(** * Organic growth patterns: a shallow embedding of the growth engines

    The two engines of the repository, [OrganicPatternGenerator]
    (organic-patterns.py, two dimensions) and [OrganicPattern3D]
    (organic-patterns-3d.py, three dimensions), are embedded as functions on
    dense arrays.

    Numbers.  NumPy cells are IEEE doubles.  In the embedding of the growth
    rule a cell is an exact rational ([Q]): the grids [grow] makes hold 0 and
    1 (and the clipped noise of 'mycelium'), and every comparison the engines
    make is kept as it is written in the source.  Where the doubles
    themselves decide what the code does, the operations are those of IEEE
    binary64, taken from the specification of floating-point arithmetic of
    the standard library ([SpecFloat]): the radius of [seed_center] (its
    rounded square in two dimensions, the double square root in three), and
    [add_environment], which is embedded on doubles ([Env64]) next to the
    exact product of [Gen2D.scale].  The statements on the exact product are
    the formulas of the factors and order relations that rounding keeps;
    what rounding decides (underflow, the order of two products) is stated
    on [Env64].

    Arrays.  A two-dimensional ndarray is a list of rows, a three-dimensional
    one a list of planes, indexed [z][y][x] as in the source.  Whole-array
    NumPy expressions are embedded cell by cell over the shape of the array.

    Effects.  The exceptions of Python are the [Raise] results of a small
    error monad; the global NumPy random generator is an explicit
    [RandomState] that is threaded through the calls that draw from it. *)

From Stdlib Require Import String List ZArith QArith Qminmax Bool Lia Lqa.
From Stdlib Require Import SpecFloat.
Import ListNotations.

Open Scope Q_scope.

(* ------------------------------------------------------------------ *)
(** ** Exceptions *)

Inductive exn : Type :=
| KeyError      (* a dict lookup with an unknown key *)
| ValueError    (* numpy rejects an argument *)
| IndexError    (* an index outside its array *)
| OverflowError. (* an int too large to convert to float *)

Inductive result (A : Type) : Type :=
| Ok (a : A)
| Raise (e : exn).

Arguments Ok {A} a.
Arguments Raise {A} e.

Definition bind {A B : Type} (m : result A) (f : A -> result B) : result B :=
  match m with
  | Ok a => f a
  | Raise e => Raise e
  end.

Notation "'do' x <- m ; k" := (bind m (fun x => k))
  (at level 60, x name, m at next level, right associativity).

(* ------------------------------------------------------------------ *)
(** ** IEEE binary64 and the numbers of Python *)

(** A double is a [spec_float] of precision 53 and maximal exponent 1024:
    a signed zero, a signed infinity, NaN, or a sign with a mantissa and an
    exponent.  The operations round to nearest, ties to even; a comparison
    with NaN is false. *)
Module F64.

Definition prec : Z := 53.
Definition emax : Z := 1024.

Definition float : Type := spec_float.

(** The double nearest to an integer: the conversion of an [int]. *)
Definition of_Z (z : Z) : float := binary_normalize prec emax z 0 false.

Definition zero : float := S754_zero false.
Definition one : float := of_Z 1.

Definition add : float -> float -> float := SFadd prec emax.
Definition sub : float -> float -> float := SFsub prec emax.
Definition mul : float -> float -> float := SFmul prec emax.
Definition div : float -> float -> float := SFdiv prec emax.
Definition sqrt : float -> float := SFsqrt prec emax.
Definition neg : float -> float := SFopp.

Definition leb : float -> float -> bool := SFleb.
Definition ltb : float -> float -> bool := SFltb.
Definition eqb : float -> float -> bool := SFeqb.

Definition is_nan (x : float) : bool :=
  match x with S754_nan => true | _ => false end.
Definition is_inf (x : float) : bool :=
  match x with S754_infinity _ => true | _ => false end.

(** [np.maximum], [np.minimum] and [np.clip] on doubles. *)
Definition maximum (x y : float) : float :=
  if is_nan x then x else if is_nan y then y else if leb y x then x else y.
Definition minimum (x y : float) : float :=
  if is_nan x then x else if is_nan y then y else if leb x y then x else y.
Definition clip (lo hi x : float) : float := minimum (maximum x lo) hi.

(** The literals [0.5] and [0.3]: the doubles nearest to 1/2 and 3/10. *)
Definition half : float := div (of_Z 1) (of_Z 2).
Definition three_tenths : float := div (of_Z 3) (of_Z 10).

End F64.

Module Py.

(** A Python number: an [int] of any size or a [float]. *)
Inductive number : Type :=
| PyInt (z : Z)
| PyFloat (f : F64.float).

(** [float(n)]: an int is rounded to the nearest double, and is refused when
    that is beyond the largest one. *)
Definition to_float (n : number) : result F64.float :=
  match n with
  | PyFloat f => Ok f
  | PyInt z =>
      let f := F64.of_Z z in
      if F64.is_inf f then Raise OverflowError else Ok f
  end.

(** [n * n]: exact on ints, rounded on floats. *)
Definition square (n : number) : number :=
  match n with
  | PyInt z => PyInt (z * z)
  | PyFloat f => PyFloat (F64.mul f f)
  end.

(** [-n]: the number of opposite sign. *)
Definition negate (n : number) : number :=
  match n with
  | PyInt z => PyInt (- z)
  | PyFloat f => PyFloat (F64.neg f)
  end.

(** [d <= n] for an entry [d] of an integer array and a Python number [n]:
    a comparison of integers for an int, of doubles for a float. *)
Definition int_le (d : Z) (n : number) : bool :=
  match n with
  | PyInt z => Z.leb d z
  | PyFloat f => F64.leb (F64.of_Z d) f
  end.

End Py.

(* ------------------------------------------------------------------ *)
(** ** The fragment of NumPy and SciPy the engines use *)

Module Np.

Definition Qlt_bool (x y : Q) : bool := negb (Qle_bool y x).

Definition Qsum (l : list Q) : Q := fold_right Qplus 0 l.

(** *** Two-dimensional arrays *)

Definition array2 (A : Type) : Type := list (list A).

Definition rows {A} (g : array2 A) : nat := length g.
Definition cols {A} (g : array2 A) : nat := length (hd [] g).

Definition cell2 {A} (d : A) (g : array2 A) (i j : nat) : A :=
  nth j (nth i g []) d.

Definition build2 {A} (h w : nat) (f : nat -> nat -> A) : array2 A :=
  map (fun i => map (fun j => f i j) (seq 0 w)) (seq 0 h).

(** [g] is a rectangular array of shape [(h, w)]. *)
Definition shape2 {A} (g : array2 A) (h w : nat) : Prop :=
  length g = h /\ Forall (fun r => length r = w) g.

(** *** Three-dimensional arrays *)

Definition array3 (A : Type) : Type := list (list (list A)).

Definition planes {A} (g : array3 A) : nat := length g.
Definition rows3 {A} (g : array3 A) : nat := length (hd [] g).
Definition cols3 {A} (g : array3 A) : nat := length (hd [] (hd [] g)).

Definition cell3 {A} (d : A) (g : array3 A) (z y x : nat) : A :=
  nth x (nth y (nth z g []) []) d.

Definition build3 {A} (dp h w : nat) (f : nat -> nat -> nat -> A) : array3 A :=
  map (fun z => build2 h w (f z)) (seq 0 dp).

Definition shape3 {A} (g : array3 A) (dp h w : nat) : Prop :=
  length g = dp /\ Forall (fun p => shape2 p h w) g.

(** *** Element-wise expressions *)

(** [np.zeros((h, w))] and [np.zeros_like(g)]. *)
Definition zeros2 (h w : nat) : array2 Q := build2 h w (fun _ _ => 0).
Definition zeros_like2 (g : array2 Q) : array2 Q := zeros2 (rows g) (cols g).
Definition zeros3 (dp h w : nat) : array3 Q := build3 dp h w (fun _ _ _ => 0).
Definition zeros_like3 (g : array3 Q) : array3 Q :=
  zeros3 (planes g) (rows3 g) (cols3 g).

(** [np.clip(x, lo, hi)] is [minimum(maximum(x, lo), hi)]. *)
Definition clip (lo hi x : Q) : Q := Qmin (Qmax x lo) hi.

(** [np.sum(g > 0)]: the number of cells above zero. *)
Definition count_positive (l : list Q) : nat :=
  length (filter (fun x => Qlt_bool 0 x) l).
Definition active2 (g : array2 Q) : nat := count_positive (concat g).
Definition active3 (g : array3 Q) : nat := count_positive (concat (concat g)).

(** *** [np.linspace(start, stop, num)] with the default [endpoint=True] *)

Definition linspace (start stop : Q) (num : nat) : list Q :=
  let div := (num - 1)%nat in
  let delta := stop - start in
  map (fun i =>
         if (Nat.ltb 1 num && Nat.eqb i (num - 1))%bool then stop
         else if Nat.ltb 0 div
              then inject_Z (Z.of_nat i) * (delta / inject_Z (Z.of_nat div)) + start
              else inject_Z (Z.of_nat i) * delta + start)
      (seq 0 num).

(** *** The random generator

    The state of the global generator is the stream of the uniform samples
    of [[0, 1)] it is going to return and a cursor into it. *)

Record RandomState : Type := mkRandomState
  { sample : nat -> Q;
    cursor : nat }.

(** The samples of the generator lie in [[0, 1)]. *)
Definition uniform (st : RandomState) : Prop :=
  forall n, 0 <= sample st n /\ sample st n < 1.

Definition advance (n : nat) (st : RandomState) : RandomState :=
  mkRandomState (sample st) (cursor st + n).

(** [np.random.random((h, w))]: [h * w] samples in row-major order. *)
Definition random2 (h w : nat) (st : RandomState) : array2 Q * RandomState :=
  (build2 h w (fun i j => sample st (cursor st + (i * w + j))),
   advance (h * w) st).

Definition random3 (dp h w : nat) (st : RandomState) : array3 Q * RandomState :=
  (build3 dp h w (fun z y x => sample st (cursor st + ((z * h + y) * w + x))),
   advance (dp * h * w) st).

(** [np.random.choice([a0, a1], size, p=[p0, p1])].  The probabilities are
    checked first ([ValueError] when one of them is negative or when they
    do not sum to one); then one uniform sample [u] is drawn per cell and
    the cell is [a[idx]], where [idx] is the number of entries of the
    cumulated distribution [[p0 / (p0 + p1), 1]] that are [<= u]
    (searchsorted, side='right'): 0 below the first entry, 1 from there on,
    the samples being below one. *)
Definition check_p (p0 p1 : Q) : result unit :=
  if (Qlt_bool p0 0 || Qlt_bool p1 0)%bool then Raise ValueError
  else if negb (Qeq_bool (p0 + p1) 1) then Raise ValueError
  else Ok tt.

Definition pick (a0 a1 : Q) (p0 p1 : Q) (u : Q) : Q :=
  let cdf0 := p0 / (p0 + p1) in
  if Qlt_bool u cdf0 then a0 else a1.

Definition choice2 (a0 a1 : Q) (h w : nat) (p0 p1 : Q) (st : RandomState)
  : result (array2 Q * RandomState) :=
  do _ <- check_p p0 p1;
  let '(u, st') := random2 h w st in
  Ok (build2 h w (fun i j => pick a0 a1 p0 p1 (cell2 0 u i j)), st').

Definition choice3 (a0 a1 : Q) (dp h w : nat) (p0 p1 : Q) (st : RandomState)
  : result (array3 Q * RandomState) :=
  do _ <- check_p p0 p1;
  let '(u, st') := random3 dp h w st in
  Ok (build3 dp h w (fun z y x => pick a0 a1 p0 p1 (cell3 0 u z y x)), st').

(** *** [scipy.ndimage.convolve(input, weights, mode='wrap')]

    The weights of the engines have extent three along every axis, so the
    footprint is centred on index 1.  A convolution mirrors the weights:
    the cell at offset [a] of the kernel multiplies the input at
    [i + 1 - a].  In mode 'wrap' the input is extended periodically, so the
    index is taken modulo the extent of the axis. *)

Definition wrap (n : nat) (i : Z) : nat := Z.to_nat (i mod Z.of_nat n).

Definition src (n i a : nat) : nat :=
  wrap n (Z.of_nat i + 1 - Z.of_nat a).

Definition taps : list nat := [0; 1; 2]%nat.

Definition offsets2 : list (nat * nat) := list_prod taps taps.

Definition offsets3 : list (nat * nat * nat) := list_prod (list_prod taps taps) taps.

Definition term2 (g k : array2 Q) (i j : nat) (o : nat * nat) : Q :=
  let '(a, b) := o in
  cell2 0 k a b * cell2 0 g (src (rows g) i a) (src (cols g) j b).

Definition neighbor2 (g k : array2 Q) (i j : nat) : Q :=
  Qsum (map (term2 g k i j) offsets2).

Definition convolve2 (g k : array2 Q) : array2 Q :=
  build2 (rows g) (cols g) (neighbor2 g k).

Definition term3 (g k : array3 Q) (z y x : nat) (o : nat * nat * nat) : Q :=
  let '(a, b, c) := o in
  cell3 0 k a b c *
  cell3 0 g (src (planes g) z a) (src (rows3 g) y b) (src (cols3 g) x c).

Definition neighbor3 (g k : array3 Q) (z y x : nat) : Q :=
  Qsum (map (term3 g k z y x) offsets3).

Definition convolve3 (g k : array3 Q) : array3 Q :=
  build3 (planes g) (rows3 g) (cols3 g) (neighbor3 g k).

End Np.

(* ------------------------------------------------------------------ *)
(** ** organic-patterns.py: [OrganicPatternGenerator] *)

Module Gen2D.
Import Np.

Record Pattern : Type := mkPattern
  { kernel : array2 Q;
    survive_range : Q * Q;
    birth_range : Q * Q;
    color_map : string }.

Definition moore : array2 Q :=
  [[1; 1; 1];
   [1; 0; 1];
   [1; 1; 1]].

Definition von_neumann : array2 Q :=
  [[0; 1; 0];
   [1; 0; 1];
   [0; 1; 0]].

(** [self.patterns], a dict keyed by the pattern name. *)
Definition patterns : list (string * Pattern) :=
  [ ("coral"%string,    mkPattern moore       (2, 3) (3, 3) "YlOrRd");
    ("lichen"%string,   mkPattern von_neumann (1, 3) (2, 3) "YlGn");
    ("mycelium"%string, mkPattern moore       (2, 4) (2, 3) "copper") ].

Fixpoint lookup {A} (key : string) (d : list (string * A)) : result A :=
  match d with
  | [] => Raise KeyError
  | (k, v) :: d' => if String.eqb key k then Ok v else lookup key d'
  end.

Record OrganicPatternGenerator : Type := mkGenerator
  { width : nat;
    height : nat;
    grid : array2 Q }.

(** [__init__(width, height)] *)
Definition init (width height : nat) : OrganicPatternGenerator :=
  mkGenerator width height (zeros2 height width).

Definition set_grid (self : OrganicPatternGenerator) (g : array2 Q)
  : OrganicPatternGenerator :=
  mkGenerator (width self) (height self) g.

(** The class invariant: the grid has shape [(height, width)]. *)
Definition well_shaped (self : OrganicPatternGenerator) : Prop :=
  shape2 (grid self) (height self) (width self).

(** [seed_random(density)] *)
Definition seed_random (density : Q) (self : OrganicPatternGenerator)
           (st : RandomState) : result (OrganicPatternGenerator * RandomState) :=
  do r <- choice2 0 1 (height self) (width self) (1 - density) density st;
  Ok (set_grid self (fst r), snd r).

(** [seed_center(radius)]: [y] and [x] are the offsets from the centre, in
    integer arrays; [radius * radius] is the product of Python, exact for an
    int and rounded for a float. *)
Definition seed_center (radius : Py.number) (self : OrganicPatternGenerator)
  : OrganicPatternGenerator :=
  let center_y := Z.of_nat (height self / 2) in
  let center_x := Z.of_nat (width self / 2) in
  set_grid self
    (build2 (height self) (width self) (fun i j =>
       let y := (Z.of_nat i - center_y)%Z in
       let x := (Z.of_nat j - center_x)%Z in
       if Py.int_le (x * x + y * y) (Py.square radius) then 1 else 0)).

(** [seed_line()]: row [height // 2], columns [width // 4 : 3 * width // 4].
    The row index is checked against the grid: without rows, [height // 2]
    is out of bounds. *)
Definition seed_line (self : OrganicPatternGenerator)
  : result OrganicPatternGenerator :=
  if Nat.ltb (height self / 2) (height self) then
    Ok (set_grid self
          (build2 (height self) (width self) (fun i j =>
             if (Nat.eqb i (height self / 2) && Nat.leb (width self / 4) j
                 && Nat.ltb j (3 * width self / 4))%bool
             then 1 else 0)))
  else Raise IndexError.

(** The masks of [grow], cell by cell. *)
Definition survival_mask (p : Pattern) (g neighbors : array2 Q) (i j : nat) : bool :=
  let '(survive_low, survive_high) := survive_range p in
  Qlt_bool 0 (cell2 0 g i j)
  && Qle_bool survive_low (cell2 0 neighbors i j)
  && Qle_bool (cell2 0 neighbors i j) survive_high.

Definition birth_mask (p : Pattern) (g neighbors : array2 Q) (i j : nat) : bool :=
  let '(birth_low, birth_high) := birth_range p in
  Qeq_bool (cell2 0 g i j) 0
  && Qle_bool birth_low (cell2 0 neighbors i j)
  && Qle_bool (cell2 0 neighbors i j) birth_high.

(** [next_grid] as it stands after [next_grid[survival_mask | birth_mask] = 1.0]:
    a fresh array of zeros in which the masked cells are set to one. *)
Definition next_grid (p : Pattern) (g : array2 Q) : array2 Q :=
  let neighbors := convolve2 g (kernel p) in
  let zeros := zeros_like2 g in
  build2 (rows g) (cols g) (fun i j =>
    if (survival_mask p g neighbors i j || birth_mask p g neighbors i j)%bool
    then 1 else cell2 0 zeros i j).

(** The noise of the 'mycelium' pattern:
    [np.clip(next_grid + np.random.random(shape) * 0.1, 0, 1)]. *)
Definition add_noise (next : array2 Q) (st : RandomState) : array2 Q * RandomState :=
  let '(u, st') := random2 (rows next) (cols next) st in
  (build2 (rows next) (cols next) (fun i j =>
     clip 0 1 (cell2 0 next i j + cell2 0 u i j * (1 # 10))),
   st').

(** [grow(pattern_type)]: one generation; returns the number of active cells. *)
Definition grow (pattern_type : string) (self : OrganicPatternGenerator)
           (st : RandomState)
  : result (OrganicPatternGenerator * RandomState * nat) :=
  do pattern <- lookup pattern_type patterns;
  let next := next_grid pattern (grid self) in
  let '(next, st) :=
    if String.eqb pattern_type "mycelium" then add_noise next st else (next, st) in
  let self := set_grid self next in
  Ok (self, st, active2 (grid self)).

(** The driver calls [grow] once per generation; the grids it sees. *)
Fixpoint grow_trace (pattern_type : string) (n : nat)
         (self : OrganicPatternGenerator) (st : RandomState)
  : result (list (array2 Q)) :=
  match n with
  | O => Ok []
  | S n' =>
      do r <- grow pattern_type self st;
      let '(self', st', _) := r in
      do rest <- grow_trace pattern_type n' self' st';
      Ok (grid self' :: rest)
  end.

(** [add_environment(factor)] *)
Definition moisture_gradient (self : OrganicPatternGenerator) : array2 Q :=
  let gradient := linspace (1 # 2) 1 (height self) in
  build2 (height self) (width self) (fun i _ => nth i gradient 0).

Definition light_gradient (self : OrganicPatternGenerator) : array2 Q :=
  let center_y := Z.of_nat (height self / 2) in
  let center_x := Z.of_nat (width self / 2) in
  build2 (height self) (width self) (fun i j =>
    let y := (Z.of_nat i - center_y)%Z in
    let x := (Z.of_nat j - center_x)%Z in
    clip (3 # 10) 1
      (1 - (1 # 2) * inject_Z (x * x + y * y)
           / (inject_Z (Z.of_nat (width self * height self)) / 4))).

(** [self.grid *= gradient], with the exact product of the two cells: what
    the product of the doubles is before it is rounded.  The rounded
    product is [Env64.scale] below. *)
Definition scale (g gradient : array2 Q) : array2 Q :=
  build2 (rows g) (cols g) (fun i j => cell2 0 g i j * cell2 0 gradient i j).

Definition add_environment (factor : string) (self : OrganicPatternGenerator)
  : OrganicPatternGenerator :=
  if String.eqb factor "moisture" then
    set_grid self (scale (grid self) (moisture_gradient self))
  else if String.eqb factor "light" then
    set_grid self (scale (grid self) (light_gradient self))
  else self.

End Gen2D.

(* ------------------------------------------------------------------ *)
(** ** [add_environment] on doubles

    The same method with the cells as the IEEE doubles NumPy holds and every
    operation rounded as NumPy rounds it.  This is the embedding to read
    where the size of a cell decides the outcome: a product of two positive
    doubles can be 0. *)

Module Env64.
Import Np.

Record Generator : Type := mkGenerator
  { width : nat;
    height : nat;
    grid : array2 F64.float }.

Definition set_grid (self : Generator) (g : array2 F64.float) : Generator :=
  mkGenerator (width self) (height self) g.

Definition well_shaped (self : Generator) : Prop :=
  shape2 (grid self) (height self) (width self).

(** An integer entry of an array, converted to a double. *)
Definition of_nat (n : nat) : F64.float := F64.of_Z (Z.of_nat n).

(** [np.sum(g > 0)] *)
Definition count_positive (l : list F64.float) : nat :=
  length (filter (fun x => F64.ltb F64.zero x) l).
Definition active2 (g : array2 F64.float) : nat := count_positive (concat g).

(** [np.linspace(start, stop, num)] with the default [endpoint=True]:
    [step = delta / div], then [y = arange(num) * step + start] with the
    last entry overwritten by [stop]; when the step underflows to 0,
    [y = arange(num) / div * delta + start]; for [num <= 1] there is no
    step and [y = arange(num) * delta + start]. *)
Definition linspace (start stop : F64.float) (num : nat) : list F64.float :=
  let div := (num - 1)%nat in
  let delta := F64.sub stop start in
  map (fun i =>
         if (Nat.ltb 1 num && Nat.eqb i (num - 1))%bool then stop
         else if Nat.ltb 0 div
              then let step := F64.div delta (of_nat div) in
                   if F64.eqb step F64.zero
                   then F64.add (F64.mul (F64.div (of_nat i) (of_nat div)) delta) start
                   else F64.add (F64.mul (of_nat i) step) start
              else F64.add (F64.mul (of_nat i) delta) start)
      (seq 0 num).

Definition moisture_gradient (self : Generator) : array2 F64.float :=
  let gradient := linspace F64.half F64.one (height self) in
  build2 (height self) (width self) (fun i _ => nth i gradient F64.zero).

(** [1 - 0.5 * (x*x + y*y) / (self.width * self.height / 4)], clipped:
    the squared distance is an integer entry, [width * height / 4] the
    true division of Python. *)
Definition light_gradient (self : Generator) : array2 F64.float :=
  let center_y := Z.of_nat (height self / 2) in
  let center_x := Z.of_nat (width self / 2) in
  let quarter := F64.div (of_nat (width self * height self)) (F64.of_Z 4) in
  build2 (height self) (width self) (fun i j =>
    let y := (Z.of_nat i - center_y)%Z in
    let x := (Z.of_nat j - center_x)%Z in
    F64.clip F64.three_tenths F64.one
      (F64.sub F64.one
         (F64.div (F64.mul F64.half (F64.of_Z (x * x + y * y))) quarter))).

(** [self.grid *= gradient] *)
Definition scale (g gradient : array2 F64.float) : array2 F64.float :=
  build2 (rows g) (cols g) (fun i j =>
    F64.mul (cell2 F64.zero g i j) (cell2 F64.zero gradient i j)).

Definition add_environment (factor : string) (self : Generator) : Generator :=
  if String.eqb factor "moisture" then
    set_grid self (scale (grid self) (moisture_gradient self))
  else if String.eqb factor "light" then
    set_grid self (scale (grid self) (light_gradient self))
  else self.

(** The gradient of a supported factor. *)
Definition gradient (factor : string) (self : Generator) : array2 F64.float :=
  if String.eqb factor "moisture" then moisture_gradient self
  else light_gradient self.


(** No cell is below zero. *)
Definition nonnegative2 (g : array2 F64.float) : Prop :=
  Forall (Forall (fun c => F64.ltb c F64.zero = false)) g.


(** A 2 x 2 grid of ones. *)
Definition ones22 : Generator :=
  mkGenerator 2 2 (build2 2 2 (fun _ _ => F64.one)).

(** A 5 x 5 grid of zeros but for the cell (1, 1), which holds [0.025]. *)
Definition spot5 : Generator :=
  mkGenerator 5 5
    (build2 5 5 (fun i j =>
       if (Nat.eqb i 1 && Nat.eqb j 1)%bool
       then F64.div (F64.of_Z 25) (F64.of_Z 1000) else F64.zero)).

End Env64.

(* ------------------------------------------------------------------ *)
(** ** organic-patterns-3d.py: [OrganicPattern3D] *)

Module Gen3D.
Import Np.

Definition lookup {A} := @Gen2D.lookup A.

Record Pattern : Type := mkPattern
  { kernel : array3 Q;
    survive_range : Q * Q;
    birth_range : Q * Q;
    colors : list string }.

(** [kernel[a, b, c] = v] *)
Definition set3 (a b c : nat) (v : Q) (k : array3 Q) : array3 Q :=
  build3 (planes k) (rows3 k) (cols3 k) (fun a' b' c' =>
    if (Nat.eqb a' a && Nat.eqb b' b && Nat.eqb c' c)%bool then v
    else cell3 0 k a' b' c').

(** [kernel.fill(v)] *)
Definition fill3 (v : Q) (k : array3 Q) : array3 Q :=
  build3 (planes k) (rows3 k) (cols3 k) (fun _ _ _ => v).

(** [np.sum(kernel)] *)
Definition sum3 (k : array3 Q) : Q := Qsum (concat (concat k)).

(** [kernel / s] *)
Definition div3 (k : array3 Q) (s : Q) : array3 Q :=
  build3 (planes k) (rows3 k) (cols3 k) (fun a b c => cell3 0 k a b c / s).

(** The assignments of the 'sphere' branch (the 'diamond' branch repeats
    them), in the order in which they are executed. *)
Definition faces (k : array3 Q) : array3 Q :=
  fold_left (fun k '(a, b, c, v) => set3 a b c v k)
    [ (1%nat, 1%nat, 0%nat, 1); (1%nat, 0%nat, 1%nat, 1); (0%nat, 1%nat, 1%nat, 1);
      (1%nat, 1%nat, 2%nat, 1); (1%nat, 2%nat, 1%nat, 1); (2%nat, 1%nat, 1%nat, 1);
      (1%nat, 1%nat, 1%nat, 0) ] k.

(** [_create_3d_kernel(shape)] *)
Definition create_3d_kernel (shape : string) : array3 Q :=
  let kernel := zeros3 3 3 3 in
  let kernel :=
    if String.eqb shape "sphere" then faces kernel
    else if String.eqb shape "diamond" then faces kernel
    else if String.eqb shape "cube" then set3 1 1 1 0 (fill3 1 kernel)
    else kernel in
  div3 kernel (sum3 kernel).

Definition patterns : list (string * Pattern) :=
  [ ("coral"%string,
      mkPattern (create_3d_kernel "sphere") (4, 6) (4, 5)
                ["darkred"; "red"; "orange"; "yellow"]%string);
    ("mycelium"%string,
      mkPattern (create_3d_kernel "diamond") (3, 6) (3, 4)
                ["saddlebrown"; "peru"; "burlywood"; "wheat"]%string);
    ("crystal"%string,
      mkPattern (create_3d_kernel "cube") (4, 7) (5, 6)
                ["darkblue"; "blue"; "lightblue"; "white"]%string) ].

(** The element type of [self.grid].  [np.zeros] makes a float array,
    [np.random.choice([0, 1], ...)] an integer one; [zeros_like] keeps the
    type, and [convolve] returns an array of the type of its input, so on
    an integer grid the weighted sums are truncated towards zero. *)
Inductive dtype : Type := Float64 | Int64.

Definition truncate (q : Q) : Q := inject_Z (Z.quot (Qnum q) (Z.pos (Qden q))).

Definition cast (dt : dtype) (q : Q) : Q :=
  match dt with
  | Float64 => q
  | Int64 => truncate q
  end.

Record OrganicPattern3D : Type := mkEngine
  { width : nat;
    height : nat;
    depth : nat;
    grid : array3 Q;
    grid_dtype : dtype;
    history : list (array3 Q) }.

(** [__init__(width, height, depth)] *)
Definition init (width height depth : nat) : OrganicPattern3D :=
  mkEngine width height depth (zeros3 depth height width) Float64 [].

(** [seed_random(density)] *)
Definition seed_random (density : Q) (self : OrganicPattern3D) (st : RandomState)
  : result (OrganicPattern3D * RandomState) :=
  do r <- choice3 0 1 (depth self) (height self) (width self)
                  (1 - density) density st;
  let g := fst r in
  Ok (mkEngine (width self) (height self) (depth self) g Int64 [g], snd r).

(** [seed_center(radius)].  The sum of the squares is an integer of
    Python; [np.sqrt] of it is the double square root, and
    [distance <= radius] compares doubles, an int radius being converted
    first (which fails for an int beyond the doubles).  The comparison is
    made once per cell: on a grid without cells nothing is compared. *)
Definition seed_center (radius : Py.number) (self : OrganicPattern3D)
  : result OrganicPattern3D :=
  let center_x := Z.of_nat (width self / 2) in
  let center_y := Z.of_nat (height self / 2) in
  let center_z := Z.of_nat (depth self / 2) in
  do r <- (if Nat.eqb (depth self * height self * width self) 0
           then Ok F64.zero else Py.to_float radius);
  let g :=
    build3 (depth self) (height self) (width self) (fun z y x =>
      let dx := (Z.of_nat x - center_x)%Z in
      let dy := (Z.of_nat y - center_y)%Z in
      let dz := (Z.of_nat z - center_z)%Z in
      let distance := F64.sqrt (F64.of_Z (dx * dx + dy * dy + dz * dz)) in
      if F64.leb distance r then 1 else 0) in
  Ok (mkEngine (width self) (height self) (depth self) g Float64 [g]).

(** The neighbour array of one generation: [convolve(self.grid, kernel, mode='wrap')]. *)
Definition neighbors (dt : dtype) (g k : array3 Q) : array3 Q :=
  build3 (planes g) (rows3 g) (cols3 g) (fun z y x =>
    cast dt (cell3 0 (convolve3 g k) z y x)).

Definition survive_mask (p : Pattern) (g nb : array3 Q) (z y x : nat) : bool :=
  let '(survive_low, survive_high) := survive_range p in
  Qlt_bool 0 (cell3 0 g z y x)
  && Qle_bool survive_low (cell3 0 nb z y x)
  && Qle_bool (cell3 0 nb z y x) survive_high.

Definition birth_mask (p : Pattern) (g nb : array3 Q) (z y x : nat) : bool :=
  let '(birth_low, birth_high) := birth_range p in
  Qeq_bool (cell3 0 g z y x) 0
  && Qle_bool birth_low (cell3 0 nb z y x)
  && Qle_bool (cell3 0 nb z y x) birth_high.

Definition next_grid (p : Pattern) (dt : dtype) (g : array3 Q) : array3 Q :=
  let nb := neighbors dt g (kernel p) in
  let zeros := zeros_like3 g in
  build3 (planes g) (rows3 g) (cols3 g) (fun z y x =>
    if (survive_mask p g nb z y x || birth_mask p g nb z y x)%bool
    then 1 else cell3 0 zeros z y x).

(** The body of the loop of [grow]: one generation. *)
Definition generation (p : Pattern) (self : OrganicPattern3D) : OrganicPattern3D :=
  let next := next_grid p (grid_dtype self) (grid self) in
  mkEngine (width self) (height self) (depth self) next (grid_dtype self)
           (history self ++ [next]).

Fixpoint generations_loop (p : Pattern) (generations : nat) (self : OrganicPattern3D)
  : OrganicPattern3D :=
  match generations with
  | O => self
  | S n => generations_loop p n (generation p self)
  end.

(** [grow(pattern_type, generations)] *)
Definition grow (pattern_type : string) (generations : nat) (self : OrganicPattern3D)
  : result OrganicPattern3D :=
  do pattern <- lookup pattern_type patterns;
  Ok (generations_loop pattern generations self).

(** A sequence of [grow] calls of one generation each, one per name. *)
Fixpoint grow_calls (pattern_types : list string) (self : OrganicPattern3D)
  : result OrganicPattern3D :=
  match pattern_types with
  | [] => Ok self
  | t :: ts => do self' <- grow t 1 self; grow_calls ts self'
  end.

End Gen3D.

(* ------------------------------------------------------------------ *)
(** ** The vocabulary of the statements

    The predicates in which the properties of the engines are stated: what
    the specification says of a cell, of a kernel and of a seeded engine,
    next to the expressions of the code they are compared with. *)

Module Spec.


(** Arrays without negative entries, and the sum of the weights of a
    two-dimensional kernel. *)
Definition nonnegative2 (k : Np.array2 Q) : Prop :=
  Forall (Forall (fun x => 0 <= x)) k.
Definition nonnegative3 (k : Np.array3 Q) : Prop :=
  Forall nonnegative2 k.

(** A cell of the next grid after a noise sample [u] of [[0, 1)] is added,
    scaled by 0.1, and the result clipped into [[0, 1]]. *)
Definition perturbed (next u : Q) : Q := Np.clip 0 1 (next + u * (1 # 10)).

(** The union of the two masks, as a function of the cell and of its
    neighbour value. *)
Definition aliveb (survive birth : Q * Q) (cur n : Q) : bool :=
  (Np.Qlt_bool 0 cur && Qle_bool (fst survive) n && Qle_bool n (snd survive))
  || (Qeq_bool cur 0 && Qle_bool (fst birth) n && Qle_bool n (snd birth)).


Definition kernel3_ok (total : Q) (k : Np.array3 Q) : Prop :=
  nonnegative3 k /\ Np.cell3 0 k 1 1 1 == 0 /\ Gen3D.sum3 k == total.

(** The grids of [n] successive generations of the three-dimensional rule. *)
Fixpoint iterates (p : Gen3D.Pattern) (dt : Gen3D.dtype) (n : nat) (g : Np.array3 Q)
  : list (Np.array3 Q) :=
  match n with
  | O => []
  | S n' => let g' := Gen3D.next_grid p dt g in g' :: iterates p dt n' g'
  end.

(** An engine as a successful [seed_center] or [seed_random] leaves it. *)
Inductive fresh_seed : Gen3D.OrganicPattern3D -> Prop :=
| fresh_center (radius : Py.number) (e0 e : Gen3D.OrganicPattern3D) :
    Gen3D.seed_center radius e0 = Ok e -> fresh_seed e
| fresh_random (density : Q) (e0 e : Gen3D.OrganicPattern3D) (st st' : Np.RandomState) :
    Gen3D.seed_random density e0 st = Ok (e, st') -> fresh_seed e.

Definition known (name : string) : Prop :=
  exists p, Gen3D.lookup name Gen3D.patterns = Ok p.

(** The gradient [add_environment] multiplies the grid with. *)
Definition gradient (factor : string) (self : Gen2D.OrganicPatternGenerator)
  : Np.array2 Q :=
  if String.eqb factor "moisture" then Gen2D.moisture_gradient self
  else Gen2D.light_gradient self.

Definition supported (factor : string) : Prop :=
  factor = "moisture"%string \/ factor = "light"%string.

(** The cell [(i0, j0)] of [g] contributes to the neighbour value of the
    cell [(i, j)] through the weight [(a, b)] of [k]: the neighbour value is
    that weight times the cell plus the terms of the other offsets, so that,
    where nothing is negative, it is at least the weighted cell. *)
Definition others2 (o : nat * nat) : list (nat * nat) :=
  filter (fun o' => negb (Nat.eqb (fst o) (fst o') && Nat.eqb (snd o) (snd o')))
         Np.offsets2.

Definition contributes2 (g k : Np.array2 Q) (i j a b i0 j0 : nat) : Prop :=
  Np.neighbor2 g k i j
  == Np.cell2 0 k a b * Np.cell2 0 g i0 j0
     + Np.Qsum (map (Np.term2 g k i j) (others2 (a, b)))
  /\ (nonnegative2 g -> nonnegative2 k ->
      Np.cell2 0 k a b * Np.cell2 0 g i0 j0 <= Np.neighbor2 g k i j).

Definition others3 (o : nat * nat * nat) : list (nat * nat * nat) :=
  filter (fun o' => negb (Nat.eqb (fst (fst o)) (fst (fst o'))
                          && Nat.eqb (snd (fst o)) (snd (fst o'))
                          && Nat.eqb (snd o) (snd o')))
         Np.offsets3.

Definition contributes3 (g k : Np.array3 Q) (z y x a b c z0 y0 x0 : nat) : Prop :=
  Np.neighbor3 g k z y x
  == Np.cell3 0 k a b c * Np.cell3 0 g z0 y0 x0
     + Np.Qsum (map (Np.term3 g k z y x) (others3 (a, b, c)))
  /\ (nonnegative3 g -> nonnegative3 k ->
      Np.cell3 0 k a b c * Np.cell3 0 g z0 y0 x0 <= Np.neighbor3 g k z y x).

(** The same of an entry of the neighbour array [nb] that [grow] reads:
    the entry at a cell is the weight at the offset times the grid cell
    plus the terms of the other offsets. *)
Definition counted2 (nb g k : Np.array2 Q) (i j a b i0 j0 : nat) : Prop :=
  Np.cell2 0 nb i j
  == Np.cell2 0 k a b * Np.cell2 0 g i0 j0
     + Np.Qsum (map (Np.term2 g k i j) (others2 (a, b)))
  /\ (nonnegative2 g -> nonnegative2 k ->
      Np.cell2 0 k a b * Np.cell2 0 g i0 j0 <= Np.cell2 0 nb i j).

Definition counted3 (nb g k : Np.array3 Q) (z y x a b c z0 y0 x0 : nat) : Prop :=
  Np.cell3 0 nb z y x
  == Np.cell3 0 k a b c * Np.cell3 0 g z0 y0 x0
     + Np.Qsum (map (Np.term3 g k z y x) (others3 (a, b, c)))
  /\ (nonnegative3 g -> nonnegative3 k ->
      Np.cell3 0 k a b c * Np.cell3 0 g z0 y0 x0 <= Np.cell3 0 nb z y x).

(** A cell of a seeded grid is 0 or 1. *)
Definition binary (c : Q) : Prop := c = 0 \/ c = 1.

End Spec.

(** Concrete engines used to exercise the statements. *)
Module Examples.
Import Np.

Definition st0 : RandomState := mkRandomState (fun _ => 1 # 2) 0.

Definition coral2 : Gen2D.Pattern := Gen2D.mkPattern Gen2D.moore (2, 3) (3, 3) "YlOrRd".
Definition mycelium2 : Gen2D.Pattern := Gen2D.mkPattern Gen2D.moore (2, 4) (2, 3) "copper".

(** A 5 x 5 grid seeded with [seed_center(radius=1)]: a plus around (2, 2). *)
Definition plus5 : Gen2D.OrganicPatternGenerator :=
  Gen2D.seed_center (Py.PyInt 1) (Gen2D.init 5 5).

Definition crystal3 : Gen3D.Pattern :=
  Gen3D.mkPattern (Gen3D.create_3d_kernel "cube") (4, 7) (5, 6)
                  ["darkblue"; "blue"; "lightblue"; "white"]%string.
Definition mycelium3 : Gen3D.Pattern :=
  Gen3D.mkPattern (Gen3D.create_3d_kernel "diamond") (3, 6) (3, 4)
                  ["saddlebrown"; "peru"; "burlywood"; "wheat"]%string.

(** The doubles nearest to the square roots of 41 and of 3, printed by
    Python as [6.4031242374328485] and [1.7320508075688772]. *)
Definition sqrt41 : F64.float := S754_finite false 7209276982427392 (-50).
Definition sqrt3 : F64.float := S754_finite false 7800463371553962 (-52).

(** A 3 x 3 x 3 grid seeded with [seed_center(radius=1)]. *)
Definition ball3 : Gen3D.OrganicPattern3D :=
  match Gen3D.seed_center (Py.PyInt 1) (Gen3D.init 3 3 3) with
  | Ok e => e
  | Raise _ => Gen3D.init 3 3 3
  end.

(** A 5 x 5 grid whose only live cell is (0, 2), on the edge of axis 0. *)
Definition edge5 : array2 Q :=
  build2 5 5 (fun i j => if (Nat.eqb i 0 && Nat.eqb j 2)%bool then 1 else 0).

(** A 3 x 3 x 3 grid whose only live cell is (0, 1, 1). *)
Definition edge3 : array3 Q :=
  build3 3 3 3 (fun z y x =>
    if (Nat.eqb z 0 && Nat.eqb y 1 && Nat.eqb x 1)%bool then 1 else 0).

(** A generator whose fifth sample is 0.99, the others being 0.5: with a
    density of 0.1 it draws a 1 for the cell (0, 1, 1) of a 3 x 3 x 3 grid
    and a 0 for every other cell. *)
Definition st_edge : RandomState :=
  mkRandomState (fun n => if Nat.eqb n 4 then 99 # 100 else 1 # 2) 0.

End Examples.

(* ------------------------------------------------------------------ *)
(** ** The rest of organic-patterns.py: display and driver *)

Module Driver.
Import Np.


(** The loop of [main], [for i in range(n)]: one [grow] per round, left by
    [break] after the first round whose [active_cells] is 0.  The result
    carries the values [active_cells] took, in order. *)
Fixpoint grow_rounds (pattern_type : string) (n : nat)
         (generator : Gen2D.OrganicPatternGenerator) (st : RandomState)
  : result (Gen2D.OrganicPatternGenerator * RandomState * list nat) :=
  match n with
  | O => Ok (generator, st, [])
  | S n' =>
      do r <- Gen2D.grow pattern_type generator st;
      let '(generator', st', active_cells) := r in
      if Nat.eqb active_cells 0 then Ok (generator', st', [active_cells])
      else
        do r' <- grow_rounds pattern_type n' generator' st';
        let '(generator'', st'', rest) := r' in
        Ok (generator'', st'', active_cells :: rest)
  end.

(** The body of [main] for one pattern, from the seeded generator on: thirty
    rounds at most, then [add_environment('light')] if the last
    [active_cells] is above 0.  Printing and plotting leave the generator
    as it is and are left out. *)
Definition run (pattern_type : string)
           (generator : Gen2D.OrganicPatternGenerator) (st : RandomState)
  : result (Gen2D.OrganicPatternGenerator * RandomState * list nat) :=
  do r <- grow_rounds pattern_type 30 generator st;
  let '(generator', st', actives) := r in
  let active_cells := last actives 0%nat in
  Ok (if Nat.ltb 0 active_cells
      then Gen2D.add_environment "light" generator'
      else generator',
      st', actives).

End Driver.

(* ------------------------------------------------------------------ *)
(** ** Further vocabulary *)

Module Props.

(** All cells lie in [[0, 1]]. *)
Definition unit_interval2 (g : Np.array2 Q) : Prop :=
  Forall (Forall (fun c => 0 <= c /\ c <= 1)) g.
Definition unit_interval3 (g : Np.array3 Q) : Prop :=
  Forall unit_interval2 g.

(** All cells are above 0. *)
Definition positive2 (g : Np.array2 Q) : Prop :=
  Forall (Forall (fun c => 0 < c)) g.

(** A generator none of whose samples is 0. *)
Definition positive_samples (st : Np.RandomState) : Prop :=
  forall n, 0 < Np.sample st n /\ Np.sample st n < 1.

(** The keys of the two pattern tables. *)
Definition names2 : list string := ["coral"; "lichen"; "mycelium"]%string.
Definition names3 : list string := ["coral"; "mycelium"; "crystal"]%string.

(** The squared distance of the cell [(i, j)] from the centre
    [(height // 2, width // 2)]. *)
Definition dist2 (self : Gen2D.OrganicPatternGenerator) (i j : nat) : Z :=
  let y := (Z.of_nat i - Z.of_nat (Gen2D.height self / 2))%Z in
  let x := (Z.of_nat j - Z.of_nat (Gen2D.width self / 2))%Z in
  (x * x + y * y)%Z.

Definition dist3 (self : Gen3D.OrganicPattern3D) (z y x : nat) : Z :=
  let dx := (Z.of_nat x - Z.of_nat (Gen3D.width self / 2))%Z in
  let dy := (Z.of_nat y - Z.of_nat (Gen3D.height self / 2))%Z in
  let dz := (Z.of_nat z - Z.of_nat (Gen3D.depth self / 2))%Z in
  (dx * dx + dy * dy + dz * dz)%Z.


(** What the loop of the driver reports after at most [m] rounds: at least
    one and at most [m] counts, all above 0 except possibly the last; a
    loop that ends early ends on a count of 0; and the last count is the
    number of active cells of the grid the loop leaves. *)
Definition report_ok (m : nat) (generator : Gen2D.OrganicPatternGenerator)
           (actives : list nat) : Prop :=
  (1 <= length actives <= m)%nat
  /\ Forall (fun a => 0 < a)%nat (removelast actives)
  /\ (length actives < m -> last actives 0 = 0)%nat
  /\ last actives 0%nat = Np.active2 (Gen2D.grid generator).

(** Sample grids for the statements below. *)
Definition st_pos : Np.RandomState := Np.mkRandomState (fun _ => 1 # 4) 0.
Definition lichen2 : Gen2D.Pattern :=
  Gen2D.mkPattern Gen2D.von_neumann (1, 3) (2, 3) "YlGn".
Definition blank5 : Gen2D.OrganicPatternGenerator := Gen2D.init 5 5.
Definition coral3 : Gen3D.Pattern :=
  Gen3D.mkPattern (Gen3D.create_3d_kernel "sphere") (4, 6) (4, 5)
                  ["darkred"; "red"; "orange"; "yellow"]%string.

End Props.

(* ------------------------------------------------------------------ *)
(** ** Arrays: lookup in an array given cell by cell *)

Module NpFacts.
Import Np.

Lemma Qlt_bool_iff (x y : Q) : Qlt_bool x y = true <-> x < y.
Proof.
  unfold Qlt_bool. rewrite negb_true_iff. split; intro H.
  - apply Qnot_le_lt. intro C. apply Qle_bool_iff in C. congruence.
  - destruct (Qle_bool y x) eqn:E; trivial.
    apply Qle_bool_iff in E. exfalso. apply (Qlt_not_le _ _ H E).
Qed.

Lemma Qle_bool_false (x y : Q) : Qle_bool x y = false <-> ~ x <= y.
Proof.
  split; intro H.
  - intro C. apply Qle_bool_iff in C. congruence.
  - destruct (Qle_bool x y) eqn:E; trivial. apply Qle_bool_iff in E. contradiction.
Qed.

Lemma Qlt_bool_false (x y : Q) : Qlt_bool x y = false <-> ~ x < y.
Proof.
  split; intro H.
  - intro C. apply Qlt_bool_iff in C. congruence.
  - destruct (Qlt_bool x y) eqn:E; trivial. apply Qlt_bool_iff in E. contradiction.
Qed.


Lemma nth_map_seq {A} (d : A) (f : nat -> A) (n i : nat) :
  (i < n)%nat -> nth i (map f (seq 0 n)) d = f i.
Proof.
  intro H. rewrite (nth_indep _ d (f 0%nat)) by (rewrite length_map, length_seq; exact H).
  rewrite (map_nth f (seq 0 n) 0%nat i), seq_nth by exact H. reflexivity.
Qed.

Section Build.
Context {A : Type}.

Lemma cell_build2 (d : A) (h w : nat) (f : nat -> nat -> A) (i j : nat) :
  (i < h)%nat -> (j < w)%nat -> cell2 d (build2 h w f) i j = f i j.
Proof.
  intros Hi Hj. unfold cell2, build2.
  rewrite (nth_map_seq [] (fun i => map (fun j => f i j) (seq 0 w))) by exact Hi.
  apply (nth_map_seq d (fun j => f i j)). exact Hj.
Qed.

Lemma shape_build2 (h w : nat) (f : nat -> nat -> A) : shape2 (build2 h w f) h w.
Proof.
  unfold shape2, build2. split.
  - now rewrite length_map, length_seq.
  - apply Forall_forall. intros r Hr. apply in_map_iff in Hr.
    destruct Hr as [i [<- _]]. now rewrite length_map, length_seq.
Qed.

Lemma shape2_rows (g : array2 A) (h w : nat) : shape2 g h w -> rows g = h.
Proof. intros [H _]. exact H. Qed.

Lemma shape2_cols (g : array2 A) (h w : nat) :
  shape2 g h w -> (0 < h)%nat -> cols g = w.
Proof.
  intros [H1 H2] Hh. unfold cols. destruct g as [|r g]; simpl in *; [lia|].
  now inversion H2.
Qed.

Lemma shape2_row (g : array2 A) (h w i : nat) :
  shape2 g h w -> (i < h)%nat -> length (nth i g []) = w.
Proof.
  intros [H1 H2] Hi. rewrite Forall_forall in H2. apply H2, nth_In. lia.
Qed.

Lemma cell_build3 (d : A) (dp h w : nat) (f : nat -> nat -> nat -> A) (z y x : nat) :
  (z < dp)%nat -> (y < h)%nat -> (x < w)%nat ->
  cell3 d (build3 dp h w f) z y x = f z y x.
Proof.
  intros Hz Hy Hx. unfold cell3, build3.
  rewrite (nth_map_seq [] (fun z => build2 h w (f z))) by exact Hz.
  now apply cell_build2.
Qed.

Lemma shape_build3 (dp h w : nat) (f : nat -> nat -> nat -> A) :
  shape3 (build3 dp h w f) dp h w.
Proof.
  unfold shape3, build3. split.
  - now rewrite length_map, length_seq.
  - apply Forall_forall. intros p Hp. apply in_map_iff in Hp.
    destruct Hp as [z [<- _]]. apply shape_build2.
Qed.

Lemma shape3_dims (g : array3 A) (dp h w : nat) :
  shape3 g dp h w -> (0 < dp)%nat -> (0 < h)%nat ->
  planes g = dp /\ rows3 g = h /\ cols3 g = w.
Proof.
  intros [H1 H2] Hd Hh. unfold planes, rows3, cols3.
  destruct g as [|p g]; simpl in *; [lia|].
  inversion H2 as [|? ? Hp _]; subst. split; [reflexivity|]. split.
  - apply (shape2_rows _ _ _ Hp).
  - apply (shape2_cols _ _ _ Hp Hh).
Qed.
End Build.

End NpFacts.

(* ------------------------------------------------------------------ *)
(** ** The generation rule *)

Module RuleFacts.
Import Np NpFacts.
Import Spec.



Lemma next_grid_cell2 (p : Gen2D.Pattern) (g : array2 Q) (h w i j : nat) :
  shape2 g h w -> (i < h)%nat -> (j < w)%nat ->
  cell2 0 (Gen2D.next_grid p g) i j =
  if aliveb (Gen2D.survive_range p) (Gen2D.birth_range p)
            (cell2 0 g i j) (neighbor2 g (Gen2D.kernel p) i j)
  then 1 else 0.
Proof.
  intros Hs Hi Hj.
  assert (Hr : rows g = h) by apply (shape2_rows _ _ _ Hs).
  assert (Hc : cols g = w) by (apply (shape2_cols _ _ _ Hs); lia).
  unfold Gen2D.next_grid, zeros_like2, zeros2, convolve2.
  rewrite Hr, Hc, cell_build2 by assumption.
  unfold Gen2D.survival_mask, Gen2D.birth_mask, aliveb.
  destruct (Gen2D.survive_range p) as [sl sh], (Gen2D.birth_range p) as [bl bh].
  rewrite !cell_build2 by assumption. reflexivity.
Qed.

Lemma neighbors_cell3 (dt : Gen3D.dtype) (g k : array3 Q) (dp h w z y x : nat) :
  shape3 g dp h w -> (z < dp)%nat -> (y < h)%nat -> (x < w)%nat ->
  cell3 0 (Gen3D.neighbors dt g k) z y x = Gen3D.cast dt (neighbor3 g k z y x).
Proof.
  intros Hs Hz Hy Hx.
  destruct (shape3_dims _ _ _ _ Hs) as (Hp & Hr & Hc); [lia | lia |].
  unfold Gen3D.neighbors, convolve3. rewrite Hp, Hr, Hc.
  now rewrite !cell_build3 by assumption.
Qed.

Lemma next_grid_cell3 (p : Gen3D.Pattern) (dt : Gen3D.dtype) (g : array3 Q)
      (dp h w z y x : nat) :
  shape3 g dp h w -> (z < dp)%nat -> (y < h)%nat -> (x < w)%nat ->
  cell3 0 (Gen3D.next_grid p dt g) z y x =
  if aliveb (Gen3D.survive_range p) (Gen3D.birth_range p)
            (cell3 0 g z y x) (Gen3D.cast dt (neighbor3 g (Gen3D.kernel p) z y x))
  then 1 else 0.
Proof.
  intros Hs Hz Hy Hx.
  pose proof (neighbors_cell3 dt g (Gen3D.kernel p) _ _ _ _ _ _ Hs Hz Hy Hx) as Hn.
  destruct (shape3_dims _ _ _ _ Hs) as (Hp & Hr & Hc); [lia | lia |].
  unfold Gen3D.next_grid, zeros_like3, zeros3.
  rewrite Hp, Hr, Hc, cell_build3 by assumption.
  unfold Gen3D.survive_mask, Gen3D.birth_mask, aliveb.
  destruct (Gen3D.survive_range p) as [sl sh], (Gen3D.birth_range p) as [bl bh].
  rewrite Hn, cell_build3 by assumption. reflexivity.
Qed.

Lemma shape_next_grid2 (p : Gen2D.Pattern) (g : array2 Q) (h w : nat) :
  shape2 g h w -> (0 < h)%nat -> shape2 (Gen2D.next_grid p g) h w.
Proof.
  intros Hs Hh. unfold Gen2D.next_grid.
  rewrite (shape2_rows _ _ _ Hs), (shape2_cols _ _ _ Hs Hh). apply shape_build2.
Qed.


(** The scenario of the specification: on a 5 x 5 grid, the plus that
    [seed_center(radius=1)] draws around (2, 2) becomes, after one 'coral'
    generation, the ring of the eight cells around (2, 2). *)
Example coral_on_plus5 :
  Gen2D.grid Examples.plus5
  = [[0; 0; 0; 0; 0]; [0; 0; 1; 0; 0]; [0; 1; 1; 1; 0]; [0; 0; 1; 0; 0]; [0; 0; 0; 0; 0]]
  /\ Gen2D.next_grid Examples.coral2 (Gen2D.grid Examples.plus5)
     = [[0; 0; 0; 0; 0]; [0; 1; 1; 1; 0]; [0; 1; 0; 1; 0]; [0; 1; 1; 1; 0]; [0; 0; 0; 0; 0]].
Proof. split; vm_compute; reflexivity. Qed.

(** What [grow] of the two-dimensional engine installs. *)
Lemma grow2_unfold (name : string) (p : Gen2D.Pattern)
      (self : Gen2D.OrganicPatternGenerator) (st : RandomState) :
  Gen2D.lookup name Gen2D.patterns = Ok p ->
  let next := Gen2D.next_grid p (Gen2D.grid self) in
  let r := if String.eqb name "mycelium" then Gen2D.add_noise next st else (next, st) in
  Gen2D.grow name self st
  = Ok (Gen2D.set_grid self (fst r), snd r, active2 (fst r)).
Proof.
  intros H. unfold Gen2D.grow. rewrite H. simpl.
  destruct (String.eqb name "mycelium").
  - destruct (Gen2D.add_noise _ st) as [n' st']. reflexivity.
  - reflexivity.
Qed.

Lemma grow3_one (name : string) (p : Gen3D.Pattern) (self : Gen3D.OrganicPattern3D) :
  Gen3D.lookup name Gen3D.patterns = Ok p ->
  Gen3D.grow name 1 self = Ok (Gen3D.generation p self).
Proof. intros H. unfold Gen3D.grow. rewrite H. reflexivity. Qed.

End RuleFacts.

Module ExampleFacts.
Import Np Examples.

Lemma plus5_shaped : Gen2D.well_shaped plus5.
Proof. split; [reflexivity | repeat constructor]. Defined.

Lemma ball3_shaped :
  shape3 (Gen3D.grid ball3) (Gen3D.depth ball3) (Gen3D.height ball3) (Gen3D.width ball3).
Proof. split; [reflexivity | repeat constructor]. Defined.

Lemma ball3_seeded :
  Gen3D.seed_center (Py.PyInt 1) (Gen3D.init 3 3 3) = Ok ball3.
Proof. vm_compute. reflexivity. Defined.

Lemma edge5_shape : shape2 edge5 5 5.
Proof. apply NpFacts.shape_build2. Defined.

Lemma edge3_shape : shape3 edge3 3 3 3.
Proof. apply NpFacts.shape_build3. Defined.

Lemma edge5_nonneg : Spec.nonnegative2 edge5.
Proof. repeat constructor; apply Qle_bool_iff; reflexivity. Defined.

Lemma edge3_nonneg : Spec.nonnegative3 edge3.
Proof. repeat constructor; apply Qle_bool_iff; reflexivity. Defined.

Lemma moore_nonneg : Spec.nonnegative2 Gen2D.moore.
Proof. repeat constructor; apply Qle_bool_iff; reflexivity. Defined.

Lemma sphere_nonneg : Spec.nonnegative3 (Gen3D.create_3d_kernel "sphere").
Proof.
  unfold Spec.nonnegative3, Spec.nonnegative2.
  set (k := Gen3D.create_3d_kernel _). vm_compute in k. subst k.
  repeat constructor; apply Qle_bool_iff; reflexivity.
Defined.

End ExampleFacts.



(* ------------------------------------------------------------------ *)
(** ** The kernels *)

Module KernelFacts.
Import Np.
Import Spec.

Ltac nonneg := repeat constructor; apply Qle_bool_iff; reflexivity.



Lemma faces_ok (shape : string) :
  shape = "sphere"%string \/ shape = "diamond"%string ->
  kernel3_ok 1 (Gen3D.create_3d_kernel shape).
Proof.
  intros [-> | ->];
    (split; [ set (k := Gen3D.create_3d_kernel _); vm_compute in k; subst k; nonneg
            | split; reflexivity ]).
Qed.

Lemma cube_ok : kernel3_ok 1 (Gen3D.create_3d_kernel "cube").
Proof.
  split; [ set (k := Gen3D.create_3d_kernel _); vm_compute in k; subst k; nonneg
         | split; reflexivity ].
Qed.

End KernelFacts.



(* ------------------------------------------------------------------ *)
(** ** Periodic boundaries *)

Module WrapFacts.
Import Np NpFacts.

Lemma wrap_lt (n : nat) (i : Z) : (0 < n)%nat -> (wrap n i < n)%nat.
Proof.
  intro H. unfold wrap.
  pose proof (Z.mod_pos_bound i (Z.of_nat n) ltac:(lia)). lia.
Qed.

Lemma src_lt (n i a : nat) : (0 < n)%nat -> (src n i a < n)%nat.
Proof. intro H. now apply wrap_lt. Qed.

(** The middle tap reads the cell itself. *)
Lemma src_mid (n i : nat) : (i < n)%nat -> src n i 1 = i.
Proof.
  intro H. unfold src, wrap.
  replace (Z.of_nat i + 1 - Z.of_nat 1)%Z with (Z.of_nat i) by lia.
  rewrite Z.mod_small by lia. lia.
Qed.

(** Tap 0 at the last coordinate reads coordinate 0. *)
Lemma src_last (n : nat) : (0 < n)%nat -> src n (n - 1) 0 = 0%nat.
Proof.
  intro H. unfold src, wrap.
  replace (Z.of_nat (n - 1) + 1 - Z.of_nat 0)%Z with (Z.of_nat n) by lia.
  now rewrite Z.mod_same by lia.
Qed.

(** Tap 2 at coordinate 0 reads the last coordinate. *)
Lemma src_first (n : nat) : (0 < n)%nat -> src n 0 2 = (n - 1)%nat.
Proof.
  intro H. unfold src, wrap.
  replace (Z.of_nat 0 + 1 - Z.of_nat 2)%Z
    with ((Z.of_nat n - 1) + (-1) * Z.of_nat n)%Z by lia.
  rewrite Z.mod_add by lia. rewrite Z.mod_small by lia. lia.
Qed.

Lemma Qsum_ge_term {A} (f : A -> Q) (l : list A) (o : A) :
  (forall x, In x l -> 0 <= f x) -> In o l -> f o <= Qsum (map f l).
Proof.
  induction l as [|x l IH]; intros Hpos Hin; [destruct Hin|].
  assert (Hrest : 0 <= Qsum (map f l)).
  { clear IH Hin. induction l as [|y l IH]; simpl; [lra|].
    pose proof (Hpos y (or_intror (or_introl eq_refl))).
    assert (0 <= Qsum (map f l)).
    { apply IH. intros t [<- | Ht]; apply Hpos; simpl; auto. }
    lra. }
  simpl. destruct Hin as [<- | Hin].
  - lra.
  - pose proof (Hpos x (or_introl eq_refl)).
    assert (f o <= Qsum (map f l)) by (apply IH; [intros; apply Hpos; now right | exact Hin]).
    lra.
Qed.

Lemma nth_nonneg (l : list Q) (i : nat) :
  Forall (fun x => 0 <= x) l -> 0 <= nth i l 0.
Proof.
  intro H. destruct (Nat.lt_ge_cases i (length l)) as [Hi | Hi].
  - rewrite Forall_forall in H. apply H, nth_In, Hi.
  - rewrite nth_overflow by exact Hi. lra.
Qed.

Lemma cell2_nonneg (g : array2 Q) (i j : nat) :
  Spec.nonnegative2 g -> 0 <= cell2 0 g i j.
Proof.
  intro H. unfold cell2. apply nth_nonneg.
  destruct (Nat.lt_ge_cases i (length g)) as [Hi | Hi].
  - unfold Spec.nonnegative2 in H. rewrite Forall_forall in H. apply H, nth_In, Hi.
  - rewrite nth_overflow by exact Hi. constructor.
Qed.

Lemma cell3_nonneg (g : array3 Q) (z y x : nat) :
  Spec.nonnegative3 g -> 0 <= cell3 0 g z y x.
Proof.
  intro H. unfold cell3. apply (cell2_nonneg (nth z g []) y x).
  destruct (Nat.lt_ge_cases z (length g)) as [Hz | Hz].
  - unfold Spec.nonnegative3 in H. rewrite Forall_forall in H. apply H, nth_In, Hz.
  - rewrite nth_overflow by exact Hz. constructor.
Qed.

Lemma term2_nonneg (g k : array2 Q) (i j : nat) (o : nat * nat) :
  Spec.nonnegative2 g -> Spec.nonnegative2 k -> 0 <= term2 g k i j o.
Proof.
  intros Hg Hk. destruct o as [a b]. unfold term2.
  apply Qmult_le_0_compat; now apply cell2_nonneg.
Qed.

Lemma term3_nonneg (g k : array3 Q) (z y x : nat) (o : nat * nat * nat) :
  Spec.nonnegative3 g -> Spec.nonnegative3 k -> 0 <= term3 g k z y x o.
Proof.
  intros Hg Hk. destruct o as [[a b] c]. unfold term3.
  apply Qmult_le_0_compat; now apply cell3_nonneg.
Qed.

(** One summand of the neighbour value is a lower bound of it. *)
Lemma neighbor2_ge (g k : array2 Q) (i j a b : nat) :
  Spec.nonnegative2 g -> Spec.nonnegative2 k -> In (a, b) offsets2 ->
  term2 g k i j (a, b) <= neighbor2 g k i j.
Proof.
  intros Hg Hk Hin. unfold neighbor2.
  apply (Qsum_ge_term (term2 g k i j)); [|exact Hin].
  intros o _. now apply term2_nonneg.
Qed.

Lemma neighbor3_ge (g k : array3 Q) (z y x a b c : nat) :
  Spec.nonnegative3 g -> Spec.nonnegative3 k -> In (a, b, c) offsets3 ->
  term3 g k z y x (a, b, c) <= neighbor3 g k z y x.
Proof.
  intros Hg Hk Hin. unfold neighbor3.
  apply (Qsum_ge_term (term3 g k z y x)); [|exact Hin].
  intros o _. now apply term3_nonneg.
Qed.

Lemma in_offsets2 (a b : nat) : (a < 3)%nat -> (b < 3)%nat -> In (a, b) offsets2.
Proof.
  intros Ha Hb. apply in_prod; unfold taps; simpl; lia.
Qed.

Lemma in_offsets3 (a b c : nat) :
  (a < 3)%nat -> (b < 3)%nat -> (c < 3)%nat -> In (a, b, c) offsets3.
Proof.
  intros Ha Hb Hc. apply in_prod; [now apply in_offsets2 | unfold taps; simpl; lia].
Qed.

(** The sum over the offsets, with one offset taken out. *)
Lemma split_offsets2 (f : nat * nat -> Q) (a b : nat) :
  (a < 3)%nat -> (b < 3)%nat ->
  Qsum (map f offsets2) == f (a, b) + Qsum (map f (Spec.others2 (a, b))).
Proof.
  intros Ha Hb.
  destruct a as [|[|[|a]]]; [| | |lia];
    (destruct b as [|[|[|b]]]; [| | |lia]);
    unfold Spec.others2, offsets2, taps; simpl; ring.
Qed.

Lemma split_offsets3 (f : nat * nat * nat -> Q) (a b c : nat) :
  (a < 3)%nat -> (b < 3)%nat -> (c < 3)%nat ->
  Qsum (map f offsets3) == f (a, b, c) + Qsum (map f (Spec.others3 (a, b, c))).
Proof.
  intros Ha Hb Hc.
  destruct a as [|[|[|a]]]; [| | |lia];
    (destruct b as [|[|[|b]]]; [| | |lia]);
    (destruct c as [|[|[|c]]]; [| | |lia]);
    unfold Spec.others3, offsets3, taps; simpl; ring.
Qed.

Lemma contributes2_at (g k : array2 Q) (h w i j a b : nat) :
  shape2 g h w -> (0 < h)%nat -> (a < 3)%nat -> (b < 3)%nat ->
  Spec.contributes2 g k i j a b (src h i a) (src w j b).
Proof.
  intros Hs Hh Ha Hb.
  assert (Hr : rows g = h) by apply (shape2_rows _ _ _ Hs).
  assert (Hc : cols g = w) by (apply (shape2_cols _ _ _ Hs); lia).
  assert (T : term2 g k i j (a, b)
              = cell2 0 k a b * cell2 0 g (src h i a) (src w j b))
    by (unfold term2; now rewrite Hr, Hc).
  split.
  - unfold neighbor2. rewrite <- T. now apply split_offsets2.
  - intros Hg Hk. rewrite <- T.
    apply neighbor2_ge; [exact Hg | exact Hk | now apply in_offsets2].
Qed.

Lemma contributes3_at (g k : array3 Q) (dp h w z y x a b c : nat) :
  shape3 g dp h w -> (0 < dp)%nat -> (0 < h)%nat ->
  (a < 3)%nat -> (b < 3)%nat -> (c < 3)%nat ->
  Spec.contributes3 g k z y x a b c (src dp z a) (src h y b) (src w x c).
Proof.
  intros Hs Hd Hh Ha Hb Hc.
  destruct (shape3_dims _ _ _ _ Hs Hd Hh) as (Hp3 & Hr3 & Hc3).
  assert (T : term3 g k z y x (a, b, c)
              = cell3 0 k a b c * cell3 0 g (src dp z a) (src h y b) (src w x c))
    by (unfold term3; now rewrite Hp3, Hr3, Hc3).
  split.
  - unfold neighbor3. rewrite <- T. now apply split_offsets3.
  - intros Hg Hk. rewrite <- T.
    apply neighbor3_ge; [exact Hg | exact Hk | now apply in_offsets3].
Qed.

End WrapFacts.

(** C3.  A live cell at coordinate 0 is lost to the cell at the opposite
    edge on the grid [seed_random] of the three-dimensional engine makes.
    That grid is drawn from [[0, 1]] and is an integer array, so the array
    [convolve] returns is an integer array too and every weighted sum is
    truncated.  On a 3 x 3 x 3 grid seeded with the single live cell
    (0, 1, 1), the wrapped sum of 'coral' at (2, 1, 1) is 1/6, the weight of
    that cell; the entry [grow] reads there is 0, and the whole neighbour
    array equals the one of the empty grid.  The same cells in a float
    grid, as [seed_center] makes it, give 1/6. *)
Theorem C3_integer_grid_drops_neighbour :
  let k := Gen3D.create_3d_kernel "sphere" in
  exists seeded st',
    Gen3D.seed_random (1 # 10) (Gen3D.init 3 3 3) Examples.st_edge = Ok (seeded, st')
    /\ Gen3D.grid seeded = Examples.edge3
    /\ Gen3D.grid_dtype seeded = Gen3D.Int64
    /\ Np.cell3 0 (Gen3D.grid seeded) 0 1 1 = 1
    /\ Np.cell3 0 k 0 1 1 == 1 # 6
    /\ Np.cell3 0 (Np.convolve3 (Gen3D.grid seeded) k) 2 1 1 == 1 # 6
    /\ Np.cell3 0
         (Gen3D.neighbors (Gen3D.grid_dtype seeded) (Gen3D.grid seeded) k) 2 1 1 = 0
    /\ Gen3D.neighbors (Gen3D.grid_dtype seeded) (Gen3D.grid seeded) k
       = Gen3D.neighbors Gen3D.Int64 (Np.zeros3 3 3 3) k
    /\ Np.cell3 0 (Gen3D.neighbors Gen3D.Float64 (Gen3D.grid seeded) k) 2 1 1 == 1 # 6.
Proof.
  intro k. eexists. eexists. split; [vm_compute; reflexivity|].
  cbn [Gen3D.grid Gen3D.grid_dtype].
  do 7 (split; [vm_compute; reflexivity|]).
  vm_compute. reflexivity.
Qed.

(** X19.  The neighbour array [grow] reads is computed on a torus.  For
    every rectangular grid and every kernel, along every axis, the entry of
    [convolve(grid, kernel, mode='wrap')] for a cell at the last coordinate
    of an axis contains the cell at coordinate 0 of that axis, weighted by
    the kernel, and the entry for a cell at coordinate 0 contains the cell
    at the last coordinate (so that, where no cell and no weight is
    negative, the entry is at least that weighted cell); all the indices
    the sum reads lie inside the grid.  In three dimensions this is the
    array of a float grid, as [seed_center] makes it. *)
Theorem X19_periodic_neighbours
  (g2 k2 : Np.array2 Q) (h w i j : nat)
  (g3 k3 : Np.array3 Q) (d3 h3 w3 z y x : nat) :
  Np.shape2 g2 h w -> (i < h)%nat -> (j < w)%nat ->
  Np.shape3 g3 d3 h3 w3 -> (z < d3)%nat -> (y < h3)%nat -> (x < w3)%nat ->
  let nb2 := Np.convolve2 g2 k2 in
  let nb3 := Gen3D.neighbors Gen3D.Float64 g3 k3 in
  (* two dimensions, axis 0 and axis 1 *)
  (Spec.counted2 nb2 g2 k2 (h - 1) j 0 1 0 j
   /\ Spec.counted2 nb2 g2 k2 0 j 2 1 (h - 1) j
   /\ Spec.counted2 nb2 g2 k2 i (w - 1) 1 0 i 0
   /\ Spec.counted2 nb2 g2 k2 i 0 1 2 i (w - 1))
  /\ (forall a b, In (a, b) Np.offsets2 ->
        (Np.src (Np.rows g2) i a < h)%nat /\ (Np.src (Np.cols g2) j b < w)%nat)
  (* three dimensions, axes 0, 1 and 2 *)
  /\ (Spec.counted3 nb3 g3 k3 (d3 - 1) y x 0 1 1 0 y x
      /\ Spec.counted3 nb3 g3 k3 0 y x 2 1 1 (d3 - 1) y x
      /\ Spec.counted3 nb3 g3 k3 z (h3 - 1) x 1 0 1 z 0 x
      /\ Spec.counted3 nb3 g3 k3 z 0 x 1 2 1 z (h3 - 1) x
      /\ Spec.counted3 nb3 g3 k3 z y (w3 - 1) 1 1 0 z y 0
      /\ Spec.counted3 nb3 g3 k3 z y 0 1 1 2 z y (w3 - 1))
  /\ (forall a b c, In (a, b, c) Np.offsets3 ->
        (Np.src (Np.planes g3) z a < d3)%nat
        /\ (Np.src (Np.rows3 g3) y b < h3)%nat
        /\ (Np.src (Np.cols3 g3) x c < w3)%nat).
Proof.
  intros S2 Hi Hj S3 Hz Hy Hx nb2 nb3.
  assert (Hr : Np.rows g2 = h) by apply (NpFacts.shape2_rows _ _ _ S2).
  assert (Hc : Np.cols g2 = w) by (apply (NpFacts.shape2_cols _ _ _ S2); lia).
  destruct (NpFacts.shape3_dims _ _ _ _ S3) as (Hp3 & Hr3 & Hc3); [lia | lia |].
  assert (N2 : forall i' j', (i' < h)%nat -> (j' < w)%nat ->
             Np.cell2 0 nb2 i' j' = Np.neighbor2 g2 k2 i' j').
  { intros i' j' Hi' Hj'. unfold nb2, Np.convolve2. rewrite Hr, Hc.
    now rewrite NpFacts.cell_build2. }
  assert (C3 : forall z' y' x', (z' < d3)%nat -> (y' < h3)%nat -> (x' < w3)%nat ->
             Np.cell3 0 (Np.convolve3 g3 k3) z' y' x' = Np.neighbor3 g3 k3 z' y' x').
  { intros z' y' x' Hz' Hy' Hx'. unfold Np.convolve3. rewrite Hp3, Hr3, Hc3.
    now rewrite NpFacts.cell_build3. }
  assert (N3 : forall dt z' y' x', (z' < d3)%nat -> (y' < h3)%nat -> (x' < w3)%nat ->
             Np.cell3 0 (Gen3D.neighbors dt g3 k3) z' y' x'
             = Gen3D.cast dt (Np.neighbor3 g3 k3 z' y' x')).
  { intros dt z' y' x' Hz' Hy' Hx'. unfold Gen3D.neighbors. rewrite Hp3, Hr3, Hc3.
    rewrite NpFacts.cell_build3 by assumption. now rewrite C3. }
  assert (E2 : forall i' j' a b, (i' < h)%nat -> (j' < w)%nat ->
             (a < 3)%nat -> (b < 3)%nat ->
             Spec.counted2 nb2 g2 k2 i' j' a b (Np.src h i' a) (Np.src w j' b)).
  { intros i' j' a b Hi' Hj' Ha Hb. unfold Spec.counted2.
    rewrite (N2 i' j' Hi' Hj').
    apply (WrapFacts.contributes2_at g2 k2 h w i' j' a b); (assumption || lia). }
  assert (E3 : forall z' y' x' a b c,
             (z' < d3)%nat -> (y' < h3)%nat -> (x' < w3)%nat ->
             (a < 3)%nat -> (b < 3)%nat -> (c < 3)%nat ->
             Spec.counted3 nb3 g3 k3 z' y' x' a b c
               (Np.src d3 z' a) (Np.src h3 y' b) (Np.src w3 x' c)).
  { intros z' y' x' a b c Hz' Hy' Hx' Ha Hb Hc'. unfold Spec.counted3, nb3.
    rewrite (N3 Gen3D.Float64 z' y' x' Hz' Hy' Hx'). cbn [Gen3D.cast].
    apply (WrapFacts.contributes3_at g3 k3 d3 h3 w3 z' y' x' a b c);
      (assumption || lia). }
  split; [|split; [|split]].
  - split; [|split; [|split]].
    + pose proof (E2 (h - 1)%nat j 0%nat 1%nat) as H.
      rewrite WrapFacts.src_last, WrapFacts.src_mid in H by lia. apply H; lia.
    + pose proof (E2 0%nat j 2%nat 1%nat) as H.
      rewrite WrapFacts.src_first, WrapFacts.src_mid in H by lia. apply H; lia.
    + pose proof (E2 i (w - 1)%nat 1%nat 0%nat) as H.
      rewrite WrapFacts.src_last, WrapFacts.src_mid in H by lia. apply H; lia.
    + pose proof (E2 i 0%nat 1%nat 2%nat) as H.
      rewrite WrapFacts.src_first, WrapFacts.src_mid in H by lia. apply H; lia.
  - intros a b _. rewrite Hr, Hc. split; apply WrapFacts.src_lt; lia.
  - split; [|split; [|split; [|split; [|split]]]].
    + pose proof (E3 (d3 - 1)%nat y x 0%nat 1%nat 1%nat) as H.
      rewrite WrapFacts.src_last, !WrapFacts.src_mid in H by lia. apply H; lia.
    + pose proof (E3 0%nat y x 2%nat 1%nat 1%nat) as H.
      rewrite WrapFacts.src_first, !WrapFacts.src_mid in H by lia. apply H; lia.
    + pose proof (E3 z (h3 - 1)%nat x 1%nat 0%nat 1%nat) as H.
      rewrite WrapFacts.src_last, !WrapFacts.src_mid in H by lia. apply H; lia.
    + pose proof (E3 z 0%nat x 1%nat 2%nat 1%nat) as H.
      rewrite WrapFacts.src_first, !WrapFacts.src_mid in H by lia. apply H; lia.
    + pose proof (E3 z y (w3 - 1)%nat 1%nat 1%nat 0%nat) as H.
      rewrite WrapFacts.src_last, !WrapFacts.src_mid in H by lia. apply H; lia.
    + pose proof (E3 z y 0%nat 1%nat 1%nat 2%nat) as H.
      rewrite WrapFacts.src_first, !WrapFacts.src_mid in H by lia. apply H; lia.
  - intros a b c _. rewrite Hp3, Hr3, Hc3. repeat split; apply WrapFacts.src_lt; lia.
Qed.

Lemma X19_periodic_neighbours_witness :
  1 <= Np.cell2 0 (Np.convolve2 Examples.edge5 Gen2D.moore) 4 2
  /\ (1 # 6) <= Np.cell3 0 (Gen3D.neighbors Gen3D.Float64 Examples.edge3
                              (Gen3D.create_3d_kernel "sphere")) 2 1 1.
Proof.
  destruct (X19_periodic_neighbours
              Examples.edge5 Gen2D.moore 5 5 1 2
              Examples.edge3 (Gen3D.create_3d_kernel "sphere") 3 3 3 1 1 1
              ExampleFacts.edge5_shape ltac:(lia) ltac:(lia)
              ExampleFacts.edge3_shape ltac:(lia) ltac:(lia) ltac:(lia))
    as (((_ & A) & _) & _ & ((_ & B) & _) & _).
  split.
  - apply (Qle_trans _ (Np.cell2 0 Gen2D.moore 0 1 * Np.cell2 0 Examples.edge5 0 2));
      [ apply Qle_bool_iff; reflexivity
      | exact (A ExampleFacts.edge5_nonneg ExampleFacts.moore_nonneg) ].
  - apply (Qle_trans _ (Np.cell3 0 (Gen3D.create_3d_kernel "sphere") 0 1 1
                        * Np.cell3 0 Examples.edge3 0 1 1));
      [ apply Qle_bool_iff; reflexivity
      | exact (B ExampleFacts.edge3_nonneg ExampleFacts.sphere_nonneg) ].
Defined.

(* ------------------------------------------------------------------ *)
(** ** The noise of 'mycelium' *)

Module NoiseFacts.
Import Np NpFacts.

Lemma clip_bounds (lo hi x : Q) : lo <= hi -> lo <= clip lo hi x /\ clip lo hi x <= hi.
Proof.
  intro H. unfold clip.
  destruct (Q.max_spec x lo) as [[? E1] | [? E1]],
           (Q.min_spec (Qmax x lo) hi) as [[? E2] | [? E2]]; lra.
Qed.

Lemma clip_inside (lo hi x : Q) : lo <= x -> x <= hi -> clip lo hi x == x.
Proof.
  intros H1 H2. unfold clip.
  destruct (Q.max_spec x lo) as [[? E1] | [? E1]],
           (Q.min_spec (Qmax x lo) hi) as [[? E2] | [? E2]]; lra.
Qed.

Lemma clip_above (lo hi x : Q) : lo <= hi -> hi <= x -> clip lo hi x == hi.
Proof.
  intros H1 H2. unfold clip.
  destruct (Q.max_spec x lo) as [[? E1] | [? E1]],
           (Q.min_spec (Qmax x lo) hi) as [[? E2] | [? E2]]; lra.
Qed.

(** A cell of the grid that [add_noise] returns. *)
Lemma add_noise_cell (next : array2 Q) (st : RandomState) (h w i j : nat) :
  shape2 next h w -> (i < h)%nat -> (j < w)%nat ->
  cell2 0 (fst (Gen2D.add_noise next st)) i j
  = clip 0 1 (cell2 0 next i j + sample st (cursor st + (i * w + j)) * (1 # 10)).
Proof.
  intros Hs Hi Hj.
  assert (Hr : rows next = h) by apply (shape2_rows _ _ _ Hs).
  assert (Hc : cols next = w) by (apply (shape2_cols _ _ _ Hs); lia).
  unfold Gen2D.add_noise, random2. simpl. rewrite Hr, Hc.
  now rewrite !cell_build2 by assumption.
Qed.

Lemma add_noise_state (next : array2 Q) (st : RandomState) :
  snd (Gen2D.add_noise next st) = advance (rows next * cols next) st.
Proof. reflexivity. Qed.

(** The cells of a generation are 0 or 1. *)
Lemma next_grid2_binary (p : Gen2D.Pattern) (g : array2 Q) (h w i j : nat) :
  shape2 g h w -> (i < h)%nat -> (j < w)%nat ->
  cell2 0 (Gen2D.next_grid p g) i j = 0 \/ cell2 0 (Gen2D.next_grid p g) i j = 1.
Proof.
  intros Hs Hi Hj. rewrite (RuleFacts.next_grid_cell2 p g h w i j Hs Hi Hj).
  destruct (Spec.aliveb _ _ _ _); auto.
Qed.

Lemma next_grid3_binary (p : Gen3D.Pattern) (dt : Gen3D.dtype) (g : array3 Q)
      (dp h w z y x : nat) :
  shape3 g dp h w -> (z < dp)%nat -> (y < h)%nat -> (x < w)%nat ->
  cell3 0 (Gen3D.next_grid p dt g) z y x = 0
  \/ cell3 0 (Gen3D.next_grid p dt g) z y x = 1.
Proof.
  intros Hs Hz Hy Hx.
  rewrite (RuleFacts.next_grid_cell3 p dt g dp h w z y x Hs Hz Hy Hx).
  destruct (Spec.aliveb _ _ _ _); auto.
Qed.

(** Noise moves a binary cell up by less than a tenth and keeps it in [0, 1]. *)
Lemma noisy_cell (c u : Q) :
  c = 0 \/ c = 1 -> 0 <= u -> u < 1 ->
  let c' := clip 0 1 (c + u * (1 # 10)) in
  0 <= c' /\ c' <= 1 /\ c <= c' /\ c' < c + (1 # 10).
Proof.
  intros Hc Hu0 Hu1 c'. subst c'.
  destruct Hc as [-> | ->].
  - rewrite clip_inside by lra. lra.
  - rewrite clip_above by lra. lra.
Qed.

End NoiseFacts.

(** C4, the claim as stated fails in the three-dimensional engine: its [grow]
    draws no random number.  Growing 'mycelium' for one generation from the
    3 x 3 x 3 centre seed installs the bare generation grid; the cell
    (0, 0, 0) is 0, where a noise sample of 1/2 would have made it 1/20. *)
Lemma C4_counterexample :
  exists e',
    Gen3D.grow "mycelium" 1 Examples.ball3 = Ok e'
    /\ Gen3D.grid e'
       = Gen3D.next_grid Examples.mycelium3 Gen3D.Float64 (Gen3D.grid Examples.ball3)
    /\ Np.cell3 0 (Gen3D.grid e') 0 0 0 = 0
    /\ ~ Np.cell3 0 (Gen3D.grid e') 0 0 0
         == Spec.perturbed
              (Np.cell3 0 (Gen3D.next_grid Examples.mycelium3 Gen3D.Float64
                             (Gen3D.grid Examples.ball3)) 0 0 0)
              (Np.sample Examples.st0 0).
Proof.
  eexists. split; [reflexivity|]. split; [reflexivity|]. split; [reflexivity|].
  intro H. vm_compute in H. discriminate H.
Qed.

(** C4, amended.  In the two-dimensional engine a [grow] step of 'mycelium',
    and of no other rule, adds to every cell of the next grid one tenth of a
    fresh sample of [[0, 1)] and clips the sum into [[0, 1]]: the cell stays
    in [[0, 1]] and rises by less than 0.1; for every other rule the next
    grid is installed as it is and the generator is left untouched.  The
    three-dimensional engine adds no noise for any rule, 'mycelium'
    included: the grid it installs has cells 0 and 1 only. *)
Theorem C4_noise_amended
  (name2 : string) (p2 : Gen2D.Pattern) (self2 : Gen2D.OrganicPatternGenerator)
  (st : Np.RandomState) (i j : nat)
  (name3 : string) (p3 : Gen3D.Pattern) (self3 : Gen3D.OrganicPattern3D)
  (z y x : nat) :
  Gen2D.lookup name2 Gen2D.patterns = Ok p2 ->
  Gen2D.well_shaped self2 -> Np.uniform st ->
  (i < Gen2D.height self2)%nat -> (j < Gen2D.width self2)%nat ->
  Gen3D.lookup name3 Gen3D.patterns = Ok p3 ->
  Np.shape3 (Gen3D.grid self3) (Gen3D.depth self3) (Gen3D.height self3) (Gen3D.width self3) ->
  (z < Gen3D.depth self3)%nat -> (y < Gen3D.height self3)%nat ->
  (x < Gen3D.width self3)%nat ->
  let next2 := Gen2D.next_grid p2 (Gen2D.grid self2) in
  let u := Np.sample st (Np.cursor st + (i * Gen2D.width self2 + j)) in
  (exists self2' st' n,
      Gen2D.grow name2 self2 st = Ok (self2', st', n)
      /\ (name2 = "mycelium"%string ->
          let c := Np.cell2 0 (Gen2D.grid self2') i j in
          c = Spec.perturbed (Np.cell2 0 next2 i j) u
          /\ 0 <= c /\ c <= 1
          /\ Np.cell2 0 next2 i j <= c /\ c < Np.cell2 0 next2 i j + (1 # 10)
          /\ st' = Np.advance (Gen2D.height self2 * Gen2D.width self2) st)
      /\ (name2 <> "mycelium"%string -> Gen2D.grid self2' = next2 /\ st' = st))
  /\ (exists self3',
         Gen3D.grow name3 1 self3 = Ok self3'
         /\ Gen3D.grid self3'
            = Gen3D.next_grid p3 (Gen3D.grid_dtype self3) (Gen3D.grid self3)
         /\ (Np.cell3 0 (Gen3D.grid self3') z y x = 0
             \/ Np.cell3 0 (Gen3D.grid self3') z y x = 1)).
Proof.
  intros L2 W2 U Hi Hj L3 W3 Hz Hy Hx next2 u.
  assert (S2 : Np.shape2 next2 (Gen2D.height self2) (Gen2D.width self2))
    by (apply RuleFacts.shape_next_grid2; [exact W2 | lia]).
  split.
  - rewrite (RuleFacts.grow2_unfold name2 p2 self2 st L2). fold next2.
    do 3 eexists. split; [reflexivity|]. split.
    + intros ->. rewrite String.eqb_refl.
      cbn [fst snd Gen2D.grid Gen2D.set_grid].
      rewrite (NoiseFacts.add_noise_cell next2 st _ _ i j S2 Hi Hj). fold u.
      split; [reflexivity|].
      destruct (NoiseFacts.noisy_cell (Np.cell2 0 next2 i j) u) as (A & B & C & D).
      * apply (NoiseFacts.next_grid2_binary p2 _ _ _ i j W2 Hi Hj).
      * apply U.
      * apply U.
      * repeat split; try assumption.
        rewrite NoiseFacts.add_noise_state.
        now rewrite (NpFacts.shape2_rows _ _ _ S2),
                    (NpFacts.shape2_cols _ _ _ S2) by lia.
    + intros N. apply String.eqb_neq in N. rewrite N. simpl. auto.
  - rewrite (RuleFacts.grow3_one name3 p3 self3 L3). eexists.
    split; [reflexivity|]. split; [reflexivity|]. simpl.
    apply (NoiseFacts.next_grid3_binary p3 _ _ _ _ _ z y x W3 Hz Hy Hx).
Qed.

Lemma C4_noise_amended_witness :
  Np.cell2 0 (fst (Gen2D.add_noise
                     (Gen2D.next_grid Examples.mycelium2 (Gen2D.grid Examples.plus5))
                     Examples.st0)) 0 0
  < Np.cell2 0 (Gen2D.next_grid Examples.mycelium2 (Gen2D.grid Examples.plus5)) 0 0
    + (1 # 10).
Proof.
  destruct (C4_noise_amended "mycelium" Examples.mycelium2 Examples.plus5 Examples.st0 0 0
              "mycelium" Examples.mycelium3 Examples.ball3 0 0 0)
    as ((s' & st' & n & G & M & _) & _).
  - reflexivity.
  - exact ExampleFacts.plus5_shaped.
  - intro k. split; [apply Qle_bool_iff | apply NpFacts.Qlt_bool_iff]; reflexivity.
  - vm_compute; lia.
  - vm_compute; lia.
  - reflexivity.
  - exact ExampleFacts.ball3_shaped.
  - vm_compute; lia.
  - vm_compute; lia.
  - vm_compute; lia.
  - rewrite (RuleFacts.grow2_unfold "mycelium" Examples.mycelium2 _ _ eq_refl) in G.
    injection G as <- _ _.
    exact (proj1 (proj2 (proj2 (proj2 (proj2 (M eq_refl)))))).
Defined.

(* ------------------------------------------------------------------ *)
(** ** Sequences of generations *)

Module TraceFacts.
Import Np.
Import Spec.

Lemma length_iterates p dt n g : length (iterates p dt n g) = n.
Proof. revert g. induction n as [|n IH]; intro g; simpl; [reflexivity|]. now rewrite IH. Qed.

Lemma loop_dtype p n e :
  Gen3D.grid_dtype (Gen3D.generations_loop p n e) = Gen3D.grid_dtype e.
Proof. revert e. induction n as [|n IH]; intro e; simpl; [reflexivity|]. now rewrite IH. Qed.

Lemma loop_history p n e :
  Gen3D.history (Gen3D.generations_loop p n e)
  = Gen3D.history e ++ iterates p (Gen3D.grid_dtype e) n (Gen3D.grid e).
Proof.
  revert e. induction n as [|n IH]; intro e; simpl.
  - now rewrite app_nil_r.
  - rewrite IH. simpl. now rewrite <- app_assoc.
Qed.

Lemma last_cons {A} (x d : A) (l : list A) : last (x :: l) d = last l x.
Proof.
  revert x d. induction l as [|y l IH]; intros x d; [reflexivity|].
  change (last (x :: y :: l) d) with (last (y :: l) d). now rewrite !IH.
Qed.

Lemma loop_grid p n e :
  Gen3D.grid (Gen3D.generations_loop p n e)
  = last (iterates p (Gen3D.grid_dtype e) n (Gen3D.grid e)) (Gen3D.grid e).
Proof.
  revert e. induction n as [|n IH]; intro e; [reflexivity|].
  simpl Gen3D.generations_loop. rewrite IH.
  cbn [Gen3D.generation Gen3D.grid Gen3D.grid_dtype iterates].
  now rewrite last_cons.
Qed.

(** Without noise the trace of the two-dimensional engine depends on the
    grid alone. *)
Lemma grow_trace_quiet (name : string) (p : Gen2D.Pattern) (n : nat) :
  Gen2D.lookup name Gen2D.patterns = Ok p -> name <> "mycelium"%string ->
  forall a b sa sb, Gen2D.grid a = Gen2D.grid b ->
  exists tr, Gen2D.grow_trace name n a sa = Ok tr
             /\ Gen2D.grow_trace name n b sb = Ok tr
             /\ length tr = n.
Proof.
  intros L N. apply String.eqb_neq in N.
  induction n as [|n IH]; intros a b sa sb E.
  - exists []. repeat split.
  - simpl.
    rewrite (RuleFacts.grow2_unfold name p a sa L), (RuleFacts.grow2_unfold name p b sb L).
    rewrite N. cbn [bind fst snd].
    destruct (IH (Gen2D.set_grid a (Gen2D.next_grid p (Gen2D.grid a)))
                 (Gen2D.set_grid b (Gen2D.next_grid p (Gen2D.grid b))) sa sb)
      as (tr & Ha & Hb & Hl).
    { simpl. now rewrite E. }
    rewrite Ha, Hb. cbn [bind Gen2D.grid Gen2D.set_grid].
    exists (Gen2D.next_grid p (Gen2D.grid a) :: tr).
    rewrite E. repeat split. simpl. now rewrite Hl.
Qed.

End TraceFacts.

(** C5.  Without a noise term the engines are deterministic.  In the
    two-dimensional engine, for every rule other than 'mycelium', two
    engines that hold the same grid produce the same sequence of grids over
    any number of [grow] calls, whatever the states of their random
    generators.  In the three-dimensional engine, for every rule, two
    engines that hold the same grid reach the same grid after any number of
    generations and append the same snapshots. *)
Theorem C5_determinism
  (name2 : string) (p2 : Gen2D.Pattern) (a b : Gen2D.OrganicPatternGenerator)
  (sa sb : Np.RandomState) (n : nat)
  (name3 : string) (p3 : Gen3D.Pattern) (ea eb : Gen3D.OrganicPattern3D) (m : nat) :
  Gen2D.lookup name2 Gen2D.patterns = Ok p2 -> name2 <> "mycelium"%string ->
  Gen2D.grid a = Gen2D.grid b ->
  Gen3D.lookup name3 Gen3D.patterns = Ok p3 ->
  Gen3D.grid ea = Gen3D.grid eb -> Gen3D.grid_dtype ea = Gen3D.grid_dtype eb ->
  (exists tr,
      Gen2D.grow_trace name2 n a sa = Ok tr
      /\ Gen2D.grow_trace name2 n b sb = Ok tr
      /\ length tr = n)
  /\ (exists ea' eb' snapshots,
         Gen3D.grow name3 m ea = Ok ea'
         /\ Gen3D.grow name3 m eb = Ok eb'
         /\ Gen3D.grid ea' = Gen3D.grid eb'
         /\ Gen3D.history ea' = Gen3D.history ea ++ snapshots
         /\ Gen3D.history eb' = Gen3D.history eb ++ snapshots
         /\ length snapshots = m).
Proof.
  intros L2 N E2 L3 E3 D3. split.
  - now apply (TraceFacts.grow_trace_quiet name2 p2 n L2 N).
  - unfold Gen3D.grow. rewrite L3. cbn [bind].
    exists (Gen3D.generations_loop p3 m ea), (Gen3D.generations_loop p3 m eb),
           (Spec.iterates p3 (Gen3D.grid_dtype ea) m (Gen3D.grid ea)).
    split; [reflexivity|]. split; [reflexivity|].
    rewrite !TraceFacts.loop_grid, !TraceFacts.loop_history, <- E3, <- D3.
    repeat split. apply TraceFacts.length_iterates.
Qed.

Lemma C5_determinism_witness :
  exists tr,
    Gen2D.grow_trace "coral" 3 Examples.plus5 Examples.st0 = Ok tr
    /\ Gen2D.grow_trace "coral" 3 Examples.plus5 (Np.advance 7 Examples.st0) = Ok tr
    /\ length tr = 3%nat.
Proof.
  apply (C5_determinism "coral" Examples.coral2 Examples.plus5 Examples.plus5
           Examples.st0 (Np.advance 7 Examples.st0) 3
           "crystal" Examples.crystal3 Examples.ball3 Examples.ball3 2).
  - reflexivity.
  - discriminate.
  - reflexivity.
  - reflexivity.
  - reflexivity.
  - reflexivity.
Defined.

(** C6.  In the engine that has a [generations] parameter and a history (the
    three-dimensional one), [grow] with [generations=0] returns successfully
    for every rule of the table and leaves the engine as it was: the grid is
    the same array and nothing is appended to the history. *)
Theorem C6_grow_zero
  (name : string) (p : Gen3D.Pattern) (self : Gen3D.OrganicPattern3D) :
  Gen3D.lookup name Gen3D.patterns = Ok p ->
  exists self',
    Gen3D.grow name 0 self = Ok self'
    /\ self' = self
    /\ Gen3D.grid self' = Gen3D.grid self
    /\ Gen3D.history self' = Gen3D.history self.
Proof.
  intro L. exists self. unfold Gen3D.grow. rewrite L. repeat split.
Qed.

Lemma C6_grow_zero_witness :
  Gen3D.lookup "coral" Gen3D.patterns
  = Ok (Gen3D.mkPattern (Gen3D.create_3d_kernel "sphere") (4, 6) (4, 5)
          ["darkred"; "red"; "orange"; "yellow"]%string)
  /\ exists self',
      Gen3D.grow "coral" 0 Examples.ball3 = Ok self'
      /\ self' = Examples.ball3
      /\ Gen3D.grid self' = Gen3D.grid Examples.ball3
      /\ Gen3D.history self' = Gen3D.history Examples.ball3.
Proof.
  split; [reflexivity|].
  apply (C6_grow_zero "coral"
           (Gen3D.mkPattern (Gen3D.create_3d_kernel "sphere") (4, 6) (4, 5)
              ["darkred"; "red"; "orange"; "yellow"]%string)).
  reflexivity.
Defined.

(* ------------------------------------------------------------------ *)
(** ** The history buffer *)

Module HistoryFacts.
Import Np.
Import Spec.

Lemma fresh_history e : fresh_seed e -> Gen3D.history e = [Gen3D.grid e].
Proof.
  intros [radius e0 e' H | density e0 e' st st' H].
  - unfold Gen3D.seed_center in H.
    destruct (if Nat.eqb _ 0 then _ else _) as [r|x]; simpl in H;
      [|discriminate].
    now inversion H.
  - unfold Gen3D.seed_random in H.
    destruct (choice3 _ _ _ _ _ _ _ _) as [r|x]; simpl in H; [|discriminate].
    now inversion H.
Qed.

Lemma grow_one_history name p e :
  Gen3D.lookup name Gen3D.patterns = Ok p ->
  exists e', Gen3D.grow name 1 e = Ok e'
             /\ Gen3D.history e' = Gen3D.history e ++ [Gen3D.grid e'].
Proof.
  intro L. rewrite (RuleFacts.grow3_one name p e L). eexists. split; reflexivity.
Qed.

Lemma calls_app xs ys e :
  Gen3D.grow_calls (xs ++ ys) e
  = bind (Gen3D.grow_calls xs e) (Gen3D.grow_calls ys).
Proof.
  revert e. induction xs as [|t xs IH]; intro e; [reflexivity|].
  simpl. destruct (Gen3D.grow t 1 e) as [e1|x]; simpl; [apply IH | reflexivity].
Qed.

(** Every call appends one snapshot, the grid it installs. *)
Lemma calls_history names :
  Forall known names ->
  forall e, exists e' snapshots,
    Gen3D.grow_calls names e = Ok e'
    /\ Gen3D.history e' = Gen3D.history e ++ snapshots
    /\ length snapshots = length names
    /\ last snapshots (Gen3D.grid e) = Gen3D.grid e'.
Proof.
  induction 1 as [|t ts [p L] _ IH]; intro e.
  - exists e, []. simpl. rewrite app_nil_r. repeat split.
  - simpl. rewrite (RuleFacts.grow3_one t p e L). cbn [bind].
    destruct (IH (Gen3D.generation p e)) as (e' & hs & HC & HH & HL & HG).
    exists e', (Gen3D.grid (Gen3D.generation p e) :: hs).
    split; [exact HC|]. split; [|split].
    + rewrite HH. simpl. now rewrite <- app_assoc.
    + simpl. now rewrite HL.
    + now rewrite TraceFacts.last_cons.
Qed.

Lemma nth_error_last {A} (l : list A) (d x : A) :
  last l d = x -> nth_error (d :: l) (length l) = Some x.
Proof.
  revert d. induction l as [|y l IH]; intros d H; [simpl in *; now subst|].
  rewrite TraceFacts.last_cons in H. apply (IH y H).
Qed.

End HistoryFacts.

(** C7.  From a fresh seed, after [N] calls of [grow] of one generation each
    (rules of the table, not necessarily the same), the history holds
    [N + 1] snapshots; snapshot [k] is the grid the engine held after the
    first [k] calls, snapshot 0 being the seeded grid; and each single call
    appends exactly one snapshot, the grid it installs. *)
Theorem C7_history_length
  (seeded : Gen3D.OrganicPattern3D) (names : list string) :
  Spec.fresh_seed seeded ->
  Forall Spec.known names ->
  exists e',
    Gen3D.grow_calls names seeded = Ok e'
    /\ length (Gen3D.history e') = (length names + 1)%nat
    /\ (forall k, (k <= length names)%nat ->
         exists ek, Gen3D.grow_calls (firstn k names) seeded = Ok ek
                    /\ nth_error (Gen3D.history e') k = Some (Gen3D.grid ek))
    /\ (forall k name, nth_error names k = Some name ->
         exists ek ek', Gen3D.grow_calls (firstn k names) seeded = Ok ek
                        /\ Gen3D.grow name 1 ek = Ok ek'
                        /\ Gen3D.history ek' = Gen3D.history ek ++ [Gen3D.grid ek']).
Proof.
  intros F K.
  pose proof (HistoryFacts.fresh_history seeded F) as H0.
  destruct (HistoryFacts.calls_history names K seeded) as (e' & hs & HC & HH & HL & _).
  exists e'. split; [exact HC|]. split; [|split].
  - rewrite HH, H0. simpl. lia.
  - intros k Hk.
    assert (Kk : Forall Spec.known (firstn k names)).
    { apply Forall_forall. intros t Ht. rewrite Forall_forall in K.
      apply K. rewrite <- (firstn_skipn k names). apply in_or_app. now left. }
    assert (Ks : Forall Spec.known (skipn k names)).
    { apply Forall_forall. intros t Ht. rewrite Forall_forall in K.
      apply K. rewrite <- (firstn_skipn k names). apply in_or_app. now right. }
    destruct (HistoryFacts.calls_history _ Kk seeded) as (ek & hk & HCk & HHk & HLk & HGk).
    exists ek. split; [exact HCk|].
    destruct (HistoryFacts.calls_history _ Ks ek) as (e2 & h2 & HC2 & HH2 & _).
    assert (E : e2 = e').
    { rewrite <- (firstn_skipn k names), HistoryFacts.calls_app, HCk in HC.
      simpl in HC. congruence. }
    subst e2. rewrite HH2, HHk, H0.
    rewrite length_firstn, Nat.min_l in HLk by exact Hk.
    rewrite nth_error_app1 by (simpl; lia).
    simpl ([_] ++ _). rewrite <- HLk.
    now apply HistoryFacts.nth_error_last.
  - intros k name Hn.
    assert (Kk : Forall Spec.known (firstn k names)).
    { apply Forall_forall. intros t Ht. rewrite Forall_forall in K.
      apply K. rewrite <- (firstn_skipn k names). apply in_or_app. now left. }
    destruct (HistoryFacts.calls_history _ Kk seeded) as (ek & hk & HCk & _).
    rewrite Forall_forall in K.
    destruct (K name (nth_error_In _ _ Hn)) as [p L].
    destruct (HistoryFacts.grow_one_history name p ek L) as (ek' & G & HG).
    exists ek, ek'. auto.
Qed.

Lemma C7_history_length_witness :
  exists e',
    Gen3D.grow_calls ["coral"; "mycelium"; "crystal"]%string Examples.ball3 = Ok e'
    /\ length (Gen3D.history e') = 4%nat.
Proof.
  destruct (C7_history_length Examples.ball3 ["coral"; "mycelium"; "crystal"]%string)
    as (e' & HC & HL & _).
  - exact (Spec.fresh_center _ _ _ ExampleFacts.ball3_seeded).
  - repeat constructor; eexists; reflexivity.
  - exists e'. split; [exact HC | exact HL].
Defined.

(* ------------------------------------------------------------------ *)
(** ** Environment modulation *)

Module EnvFacts.
Import Np NpFacts.
Import Spec.

Lemma add_environment_scale factor self :
  supported factor ->
  Gen2D.add_environment factor self
  = Gen2D.set_grid self (Gen2D.scale (Gen2D.grid self) (gradient factor self)).
Proof. intros [-> | ->]; reflexivity. Qed.

(** The gradients depend on the extents of the engine only. *)
Lemma gradient_shape_only factor self :
  gradient factor self
  = gradient factor (Gen2D.init (Gen2D.width self) (Gen2D.height self)).
Proof. reflexivity. Qed.

Lemma ratio_bounds (i d : nat) :
  (0 < d)%nat -> (i <= d)%nat ->
  let r := inject_Z (Z.of_nat i) / inject_Z (Z.of_nat d) in
  0 <= r /\ r <= 1.
Proof.
  intros Hd Hi r. subst r.
  assert (D : 0 < inject_Z (Z.of_nat d)).
  { change 0 with (inject_Z 0). rewrite <- Zlt_Qlt. lia. }
  assert (I0 : 0 <= inject_Z (Z.of_nat i)).
  { change 0 with (inject_Z 0). rewrite <- Zle_Qle. lia. }
  assert (I1 : inject_Z (Z.of_nat i) <= inject_Z (Z.of_nat d)).
  { rewrite <- Zle_Qle. lia. }
  split.
  - apply Qle_shift_div_l; [exact D | lra].
  - apply Qle_shift_div_r; [exact D | lra].
Qed.

Lemma linspace_cell (num i : nat) :
  (i < num)%nat ->
  (1 # 2) <= nth i (linspace (1 # 2) 1 num) 0
  /\ nth i (linspace (1 # 2) 1 num) 0 <= 1.
Proof.
  intro Hi. unfold linspace. rewrite nth_map_seq by exact Hi.
  destruct (Nat.ltb 1 num && Nat.eqb i (num - 1))%bool eqn:Elast; [lra|].
  destruct (Nat.ltb 0 (num - 1)) eqn:Ediv.
  - apply Nat.ltb_lt in Ediv.
    destruct (ratio_bounds i (num - 1) Ediv ltac:(lia)) as [R0 R1].
    assert (D : ~ inject_Z (Z.of_nat (num - 1)) == 0).
    { change 0 with (inject_Z 0). rewrite inject_Z_injective. lia. }
    set (x := inject_Z (Z.of_nat i)) in *.
    set (d := inject_Z (Z.of_nat (num - 1))) in *.
    assert (E : x * ((1 - (1 # 2)) / d) + (1 # 2) == (1 # 2) * (x / d) + (1 # 2))
      by (field; exact D).
    rewrite E. lra.
  - apply Nat.ltb_ge in Ediv. assert (i = 0)%nat by lia. subst i.
    change (inject_Z (Z.of_nat 0)) with 0. lra.
Qed.

Lemma gradient_cell factor self i j :
  (i < Gen2D.height self)%nat -> (j < Gen2D.width self)%nat ->
  (3 # 10) <= cell2 0 (gradient factor self) i j
  /\ cell2 0 (gradient factor self) i j <= 1.
Proof.
  intros Hi Hj. unfold gradient.
  destruct (String.eqb factor "moisture").
  - unfold Gen2D.moisture_gradient. rewrite cell_build2 by assumption.
    destruct (linspace_cell (Gen2D.height self) i Hi). lra.
  - unfold Gen2D.light_gradient. rewrite cell_build2 by assumption.
    apply NoiseFacts.clip_bounds. lra.
Qed.

Lemma scale_cell g gr h w i j :
  shape2 g h w -> (i < h)%nat -> (j < w)%nat ->
  cell2 0 (Gen2D.scale g gr) i j = cell2 0 g i j * cell2 0 gr i j.
Proof.
  intros Hs Hi Hj. unfold Gen2D.scale.
  rewrite (shape2_rows _ _ _ Hs), (shape2_cols _ _ _ Hs) by lia.
  now rewrite cell_build2.
Qed.

(** A cell after [add_environment]: the cell before, times the gradient. *)
Lemma add_environment_cell factor self i j :
  supported factor -> Gen2D.well_shaped self ->
  (i < Gen2D.height self)%nat -> (j < Gen2D.width self)%nat ->
  cell2 0 (Gen2D.grid (Gen2D.add_environment factor self)) i j
  = cell2 0 (Gen2D.grid self) i j * cell2 0 (gradient factor self) i j.
Proof.
  intros Hf Hs Hi Hj. rewrite (add_environment_scale factor self Hf). simpl.
  now apply (scale_cell _ _ _ _ i j Hs).
Qed.

(** *** Counting active cells *)

Lemma count_app (a b : list Q) :
  count_positive (a ++ b) = (count_positive a + count_positive b)%nat.
Proof. unfold count_positive. now rewrite filter_app, length_app. Qed.

(** A rectangular array is the array of its cells. *)
Lemma build2_cells (g : array2 Q) (h w : nat) :
  shape2 g h w -> g = build2 h w (cell2 0 g).
Proof.
  intros Hs. pose proof Hs as [Hl Hr].
  apply (nth_ext _ _ [] []).
  - unfold build2. now rewrite length_map, length_seq.
  - intros i Hi. rewrite Hl in Hi. unfold build2.
    rewrite (nth_map_seq [] (fun i => map (fun j => cell2 0 g i j) (seq 0 w))) by exact Hi.
    apply (nth_ext _ _ 0 0).
    + rewrite length_map, length_seq. apply (shape2_row _ _ _ _ Hs Hi).
    + intros j Hj. rewrite (shape2_row _ _ _ _ Hs Hi) in Hj.
      now rewrite (nth_map_seq 0 (fun j => cell2 0 g i j)) by exact Hj.
Qed.

End EnvFacts.

Module EnvBounds.
Import Np NpFacts EnvFacts.
Import Spec.


End EnvBounds.

(** C8.  [add_environment] with 'moisture' or 'light' only attenuates: on a
    grid with non-negative cells every cell afterwards is the cell before
    times a factor of at most 1, hence not above the cell before (and not
    below 0).  The factor is the cell of a gradient that is computed from the
    extents of the grid and the kind of field alone; no random number is
    drawn. *)
Theorem C8_environment_attenuates
  (factor : string) (self : Gen2D.OrganicPatternGenerator) (i j : nat) :
  Spec.supported factor ->
  Gen2D.well_shaped self ->
  Spec.nonnegative2 (Gen2D.grid self) ->
  (i < Gen2D.height self)%nat -> (j < Gen2D.width self)%nat ->
  let before := Np.cell2 0 (Gen2D.grid self) i j in
  let after := Np.cell2 0 (Gen2D.grid (Gen2D.add_environment factor self)) i j in
  let f := Np.cell2 0 (Spec.gradient factor
                         (Gen2D.init (Gen2D.width self) (Gen2D.height self))) i j in
  after = before * f /\ f <= 1 /\ after <= before /\ 0 <= after.
Proof.
  intros Hf Hs Hn Hi Hj before after f.
  assert (E : after = before * f).
  { subst after before f. rewrite <- EnvFacts.gradient_shape_only.
    now apply EnvFacts.add_environment_cell. }
  destruct (EnvFacts.gradient_cell factor self i j Hi Hj) as [F0 F1].
  rewrite (EnvFacts.gradient_shape_only factor self) in F0, F1. fold f in F0, F1.
  assert (B : 0 <= before) by (apply WrapFacts.cell2_nonneg; exact Hn).
  split; [exact E|]. split; [exact F1|]. rewrite E. split.
  - assert (H : f * before <= 1 * before) by (apply Qmult_le_compat_r; assumption).
    lra.
  - apply Qmult_le_0_compat; lra.
Qed.

Lemma C8_environment_attenuates_witness :
  Np.cell2 0 (Gen2D.grid (Gen2D.add_environment "light" Examples.plus5)) 1 2
  <= Np.cell2 0 (Gen2D.grid Examples.plus5) 1 2.
Proof.
  apply (C8_environment_attenuates "light" Examples.plus5 1 2).
  - now right.
  - exact ExampleFacts.plus5_shaped.
  - repeat constructor; apply Qle_bool_iff; reflexivity.
  - vm_compute; lia.
  - vm_compute; lia.
Defined.

(** *** Rounding in binary64 *)

Module F64Facts.









End F64Facts.

(** *** [add_environment] on doubles *)

Module Env64Facts.
Import Np NpFacts.

Lemma scale64_unfold factor self :
  Spec.supported factor ->
  Env64.add_environment factor self
  = Env64.set_grid self (Env64.scale (Env64.grid self) (Env64.gradient factor self)).
Proof. intros [-> | ->]; reflexivity. Qed.

Lemma scale64_cell g gr h w i j :
  shape2 g h w -> (i < h)%nat -> (j < w)%nat ->
  cell2 F64.zero (Env64.scale g gr) i j
  = F64.mul (cell2 F64.zero g i j) (cell2 F64.zero gr i j).
Proof.
  intros Hs Hi Hj. unfold Env64.scale.
  rewrite (shape2_rows _ _ _ Hs), (shape2_cols _ _ _ Hs) by lia.
  now rewrite cell_build2.
Qed.

Lemma environment64_cell factor self i j :
  Spec.supported factor -> Env64.well_shaped self ->
  (i < Env64.height self)%nat -> (j < Env64.width self)%nat ->
  cell2 F64.zero (Env64.grid (Env64.add_environment factor self)) i j
  = F64.mul (cell2 F64.zero (Env64.grid self) i j)
            (cell2 F64.zero (Env64.gradient factor self) i j).
Proof.
  intros Hf Hs Hi Hj. rewrite (scale64_unfold factor self Hf).
  cbn [Env64.grid Env64.set_grid]. now apply (scale64_cell _ _ _ _ i j Hs).
Qed.









End Env64Facts.




(* ------------------------------------------------------------------ *)
(** ** Random seeding *)

Module SeedFacts.
Import Np NpFacts.
Import Spec.

Lemma check_p_outside (density : Q) :
  density < 0 \/ 1 < density -> check_p (1 - density) density = Raise ValueError.
Proof.
  intro H. unfold check_p.
  assert (E : (Qlt_bool (1 - density) 0 || Qlt_bool density 0)%bool = true).
  { apply orb_true_iff. destruct H; [right | left]; apply Qlt_bool_iff; lra. }
  now rewrite E.
Qed.

Lemma check_p_inside (density : Q) :
  0 <= density -> density <= 1 -> check_p (1 - density) density = Ok tt.
Proof.
  intros H0 H1. unfold check_p.
  assert (E : (Qlt_bool (1 - density) 0 || Qlt_bool density 0)%bool = false).
  { apply orb_false_iff. split; apply Qlt_bool_false; lra. }
  assert (S : Qeq_bool (1 - density + density) 1 = true) by (apply Qeq_bool_iff; ring).
  now rewrite E, S.
Qed.

Lemma pick_binary p0 p1 u : binary (pick 0 1 p0 p1 u).
Proof. unfold pick, binary. destruct (Qlt_bool u _); auto. Qed.

Lemma Forall_build2 {A} (P : A -> Prop) (h w : nat) (f : nat -> nat -> A) :
  (forall i j, (i < h)%nat -> (j < w)%nat -> P (f i j)) ->
  Forall (Forall P) (build2 h w f).
Proof.
  intro H. unfold build2. apply Forall_forall. intros r Hr.
  apply in_map_iff in Hr. destruct Hr as (i & <- & Hi).
  apply Forall_forall. intros c Hc.
  apply in_map_iff in Hc. destruct Hc as (j & <- & Hj).
  apply in_seq in Hi. apply in_seq in Hj. apply H; lia.
Qed.

Lemma Forall_build3 {A} (P : A -> Prop) (dp h w : nat) (f : nat -> nat -> nat -> A) :
  (forall z y x, (z < dp)%nat -> (y < h)%nat -> (x < w)%nat -> P (f z y x)) ->
  Forall (Forall (Forall P)) (build3 dp h w f).
Proof.
  intro H. unfold build3. apply Forall_forall. intros pl Hp.
  apply in_map_iff in Hp. destruct Hp as (z & <- & Hz).
  apply in_seq in Hz. apply Forall_build2. intros y x Hy Hx. apply H; lia.
Qed.

End SeedFacts.

(** C9.  [seed_random(density)], in both engines: for a density below 0 or
    above 1 the call fails with the ValueError that [np.random.choice] raises
    for a negative probability (the InvalidParameter failure of the
    specification), and no grid is installed; for a density in [[0, 1]] it
    succeeds and every cell of the seeded grid, of the shape of the engine,
    is 0 or 1. *)
Theorem C9_seed_random
  (density : Q) (st : Np.RandomState)
  (self2 : Gen2D.OrganicPatternGenerator) (self3 : Gen3D.OrganicPattern3D) :
  (density < 0 \/ 1 < density ->
   Gen2D.seed_random density self2 st = Raise ValueError
   /\ Gen3D.seed_random density self3 st = Raise ValueError)
  /\ (0 <= density /\ density <= 1 ->
      (exists self2' st',
          Gen2D.seed_random density self2 st = Ok (self2', st')
          /\ Gen2D.well_shaped self2'
          /\ Forall (Forall Spec.binary) (Gen2D.grid self2'))
      /\ (exists self3' st',
             Gen3D.seed_random density self3 st = Ok (self3', st')
             /\ Np.shape3 (Gen3D.grid self3') (Gen3D.depth self3')
                          (Gen3D.height self3') (Gen3D.width self3')
             /\ Forall (Forall (Forall Spec.binary)) (Gen3D.grid self3'))).
Proof.
  split.
  - intro H. unfold Gen2D.seed_random, Gen3D.seed_random, Np.choice2, Np.choice3.
    rewrite (SeedFacts.check_p_outside density H). split; reflexivity.
  - intros [H0 H1]. unfold Gen2D.seed_random, Gen3D.seed_random, Np.choice2, Np.choice3.
    rewrite (SeedFacts.check_p_inside density H0 H1). cbn [bind Np.random2 Np.random3 fst snd].
    split.
    + do 2 eexists. split; [reflexivity|]. split.
      * apply NpFacts.shape_build2.
      * apply SeedFacts.Forall_build2. intros. apply SeedFacts.pick_binary.
    + do 2 eexists. split; [reflexivity|]. split.
      * apply NpFacts.shape_build3.
      * apply SeedFacts.Forall_build3. intros. apply SeedFacts.pick_binary.
Qed.

Lemma C9_seed_random_witness :
  Gen2D.seed_random (3 # 2) (Gen2D.init 4 3) Examples.st0 = Raise ValueError
  /\ Gen3D.seed_random (-1 # 10) (Gen3D.init 2 2 2) Examples.st0 = Raise ValueError
  /\ exists self2' st',
      Gen2D.seed_random (3 # 10) (Gen2D.init 4 3) Examples.st0 = Ok (self2', st')
      /\ Gen2D.well_shaped self2'
      /\ Forall (Forall Spec.binary) (Gen2D.grid self2').
Proof.
  split; [|split].
  - apply (proj1 (C9_seed_random (3 # 2) Examples.st0 (Gen2D.init 4 3) (Gen3D.init 2 2 2))).
    right. reflexivity.
  - apply (proj1 (C9_seed_random (-1 # 10) Examples.st0 (Gen2D.init 4 3) (Gen3D.init 2 2 2))).
    left. reflexivity.
  - apply (proj2 (C9_seed_random (3 # 10) Examples.st0 (Gen2D.init 4 3) (Gen3D.init 2 2 2))).
    split; apply Qle_bool_iff; reflexivity.
Defined.

(* ------------------------------------------------------------------ *)
(** ** More on arrays: extensionality, cells of uniform arrays, counting *)

Module ArrayMore.
Import Np NpFacts.

Lemma build2_ext {A} (h w : nat) (f f' : nat -> nat -> A) :
  (forall i j, (i < h)%nat -> (j < w)%nat -> f i j = f' i j) ->
  build2 h w f = build2 h w f'.
Proof.
  intro H. unfold build2. apply map_ext_in. intros i Hi.
  apply map_ext_in. intros j Hj.
  apply in_seq in Hi. apply in_seq in Hj. apply H; lia.
Qed.

Lemma build3_ext {A} (dp h w : nat) (f f' : nat -> nat -> nat -> A) :
  (forall z y x, (z < dp)%nat -> (y < h)%nat -> (x < w)%nat -> f z y x = f' z y x) ->
  build3 dp h w f = build3 dp h w f'.
Proof.
  intro H. unfold build3. apply map_ext_in. intros z Hz.
  apply in_seq in Hz. apply build2_ext. intros y x Hy Hx. apply H; lia.
Qed.

(** A property of all the entries holds of every cell that is looked up,
    as soon as it holds of the default. *)
Lemma cell2_Forall {A} (P : A -> Prop) (d : A) (g : array2 A) (i j : nat) :
  P d -> Forall (Forall P) g -> P (cell2 d g i j).
Proof.
  intros Hd H. unfold cell2.
  assert (Hrow : Forall P (nth i g [])).
  { destruct (Nat.lt_ge_cases i (length g)) as [Hi | Hi].
    - rewrite Forall_forall in H. apply H, nth_In, Hi.
    - rewrite nth_overflow by exact Hi. constructor. }
  destruct (Nat.lt_ge_cases j (length (nth i g []))) as [Hj | Hj].
  - rewrite Forall_forall in Hrow. apply Hrow, nth_In, Hj.
  - now rewrite nth_overflow by exact Hj.
Qed.

Lemma cell3_Forall {A} (P : A -> Prop) (d : A) (g : array3 A) (z y x : nat) :
  P d -> Forall (Forall (Forall P)) g -> P (cell3 d g z y x).
Proof.
  intros Hd H. unfold cell3. apply (cell2_Forall P d (nth z g []) y x Hd).
  destruct (Nat.lt_ge_cases z (length g)) as [Hz | Hz].
  - rewrite Forall_forall in H. apply H, nth_In, Hz.
  - rewrite nth_overflow by exact Hz. constructor.
Qed.

(** The shape of an array that is built over the extents of another. *)
Lemma shape_like2 {A B} (g : array2 A) (h w : nat) (f : nat -> nat -> B) :
  shape2 g h w -> shape2 (build2 (rows g) (cols g) f) h w.
Proof.
  intros Hs. rewrite (shape2_rows _ _ _ Hs). destruct h as [|h'].
  - split; [reflexivity | constructor].
  - rewrite (shape2_cols _ _ _ Hs) by lia. apply shape_build2.
Qed.

Lemma shape_like3 {A B} (g : array3 A) (dp h w : nat) (f : nat -> nat -> nat -> B) :
  shape3 g dp h w -> shape3 (build3 (planes g) (rows3 g) (cols3 g) f) dp h w.
Proof.
  intros Hs. pose proof Hs as [Hl Hp]. unfold planes. rewrite Hl.
  destruct dp as [|dp']; [split; [reflexivity | constructor]|].
  destruct g as [|p g]; [discriminate|].
  assert (Sp : shape2 p h w) by now inversion Hp.
  unfold rows3, cols3. cbn [hd].
  split; [unfold build3; now rewrite length_map, length_seq|].
  apply Forall_forall. intros q Hq. unfold build3 in Hq.
  apply in_map_iff in Hq. destruct Hq as (z & <- & _).
  apply (shape_like2 p h w (f z) Sp).
Qed.

(** Equal extents. *)
Lemma build_like2 {A B} (g : array2 A) (h w : nat) (f : nat -> nat -> B) :
  shape2 g h w -> build2 (rows g) (cols g) f = build2 h w f.
Proof.
  intros Hs. rewrite (shape2_rows _ _ _ Hs). destruct h as [|h']; [reflexivity|].
  now rewrite (shape2_cols _ _ _ Hs) by lia.
Qed.

Lemma build2_no_rows {A} (w w' : nat) (f f' : nat -> nat -> A) :
  build2 0 w f = build2 0 w' f'.
Proof. reflexivity. Qed.

Lemma build2_no_cols {A} (h w : nat) (f f' : nat -> nat -> A) :
  build2 h 0 f = build2 h 0 f'.
Proof. unfold build2. apply map_ext. reflexivity. Qed.

Lemma build_like3 {A B} (g : array3 A) (dp h w : nat) (f : nat -> nat -> nat -> B) :
  shape3 g dp h w -> build3 (planes g) (rows3 g) (cols3 g) f = build3 dp h w f.
Proof.
  intros Hs. pose proof Hs as [Hl Hp]. unfold planes. rewrite Hl.
  destruct dp as [|dp']; [reflexivity|].
  destruct g as [|p g]; [discriminate|].
  assert (Sp : shape2 p h w) by now inversion Hp.
  unfold rows3, cols3. cbn [hd]. unfold build3. apply map_ext. intro z.
  apply (build_like2 p h w (f z) Sp).
Qed.

(** Counting the cells above zero. *)
Lemma count_none (l : list Q) :
  Forall (fun c => ~ 0 < c) l -> count_positive l = 0%nat.
Proof.
  induction 1 as [|c l Hc _ IH]; [reflexivity|].
  unfold count_positive in *. simpl.
  apply Qlt_bool_false in Hc. now rewrite Hc.
Qed.

Lemma count_all (l : list Q) :
  Forall (fun c => 0 < c) l -> count_positive l = length l.
Proof.
  induction 1 as [|c l Hc _ IH]; [reflexivity|].
  unfold count_positive in *. simpl.
  apply Qlt_bool_iff in Hc. rewrite Hc. simpl. now rewrite IH.
Qed.

Lemma Forall_concat {A} (P : A -> Prop) (ll : list (list A)) :
  Forall (Forall P) ll -> Forall P (concat ll).
Proof.
  induction 1 as [|l ll Hl _ IH]; simpl; [constructor|].
  apply Forall_app. now split.
Qed.

Lemma length_concat_build2 {A} (h w : nat) (f : nat -> nat -> A) :
  length (concat (build2 h w f)) = (h * w)%nat.
Proof.
  unfold build2.
  transitivity (length (seq 0 h) * w)%nat; [|now rewrite length_seq].
  induction (seq 0 h) as [|i l IH]; simpl; [reflexivity|].
  rewrite length_app, length_map, length_seq, IH. reflexivity.
Qed.

Lemma active2_none (g : array2 Q) :
  Forall (Forall (fun c => ~ 0 < c)) g -> active2 g = 0%nat.
Proof. intro H. apply count_none. now apply Forall_concat. Qed.

Lemma active3_none (g : array3 Q) :
  Forall (Forall (Forall (fun c => ~ 0 < c))) g -> active3 g = 0%nat.
Proof.
  intro H. apply count_none. apply Forall_concat.
  apply (Forall_concat (Forall (fun c => ~ 0 < c))). exact H.
Qed.

Lemma active2_all (h w : nat) (f : nat -> nat -> Q) :
  (forall i j, (i < h)%nat -> (j < w)%nat -> 0 < f i j) ->
  active2 (build2 h w f) = (h * w)%nat.
Proof.
  intro H. unfold active2. rewrite count_all.
  - apply length_concat_build2.
  - apply Forall_concat. now apply SeedFacts.Forall_build2.
Qed.

Lemma zeros2_none (h w : nat) : Forall (Forall (fun c : Q => ~ 0 < c)) (zeros2 h w).
Proof. apply SeedFacts.Forall_build2. intros. lra. Qed.

Lemma zeros3_none (dp h w : nat) :
  Forall (Forall (Forall (fun c : Q => ~ 0 < c))) (zeros3 dp h w).
Proof. apply SeedFacts.Forall_build3. intros. lra. Qed.

Lemma cell_zeros2 (h w i j : nat) : cell2 0 (zeros2 h w) i j = 0.
Proof.
  apply (cell2_Forall (fun c => c = 0)); [reflexivity|].
  apply SeedFacts.Forall_build2. reflexivity.
Qed.

Lemma cell_zeros3 (dp h w z y x : nat) : cell3 0 (zeros3 dp h w) z y x = 0.
Proof.
  apply (cell3_Forall (fun c => c = 0)); [reflexivity|].
  apply SeedFacts.Forall_build3. reflexivity.
Qed.

Lemma Qsum_zero {A} (f : A -> Q) (l : list A) :
  (forall o, In o l -> f o == 0) -> Qsum (map f l) == 0.
Proof.
  induction l as [|o l IH]; intro H; simpl; [reflexivity|].
  rewrite (H o (or_introl eq_refl)), IH; [ring|]. intros; apply H; now right.
Qed.

Lemma Qsum_le {A} (f f' : A -> Q) (l : list A) :
  (forall o, In o l -> f o <= f' o) -> Qsum (map f l) <= Qsum (map f' l).
Proof.
  induction l as [|o l IH]; intro H; simpl; [lra|].
  pose proof (H o (or_introl eq_refl)).
  assert (Qsum (map f l) <= Qsum (map f' l)) by (apply IH; intros; apply H; now right).
  lra.
Qed.

Lemma Qsum_nonneg {A} (f : A -> Q) (l : list A) :
  (forall o, In o l -> 0 <= f o) -> 0 <= Qsum (map f l).
Proof.
  induction l as [|o l IH]; intro H; simpl; [lra|].
  pose proof (H o (or_introl eq_refl)).
  assert (0 <= Qsum (map f l)) by (apply IH; intros; apply H; now right).
  lra.
Qed.

End ArrayMore.

(* ------------------------------------------------------------------ *)
(** ** The pattern tables *)

Module TableFacts.
Import Np.

Lemma lookup2_cases (name : string) :
  (In name Props.names2 /\ exists p, Gen2D.lookup name Gen2D.patterns = Ok p)
  \/ (~ In name Props.names2 /\ Gen2D.lookup name Gen2D.patterns = Raise KeyError).
Proof.
  unfold Props.names2, Gen2D.patterns. cbn [Gen2D.lookup].
  destruct (String.eqb_spec name "coral") as [-> | N1];
    [left; split; [simpl; auto | eexists; reflexivity]|].
  destruct (String.eqb_spec name "lichen") as [-> | N2];
    [left; split; [simpl; auto | eexists; reflexivity]|].
  destruct (String.eqb_spec name "mycelium") as [-> | N3];
    [left; split; [simpl; auto | eexists; reflexivity]|].
  right. split; [|reflexivity]. simpl. intros [E | [E | [E | []]]]; congruence.
Qed.

Lemma lookup3_cases (name : string) :
  (In name Props.names3 /\ exists p, Gen3D.lookup name Gen3D.patterns = Ok p)
  \/ (~ In name Props.names3 /\ Gen3D.lookup name Gen3D.patterns = Raise KeyError).
Proof.
  unfold Props.names3, Gen3D.patterns, Gen3D.lookup. cbn [Gen2D.lookup].
  destruct (String.eqb_spec name "coral") as [-> | N1];
    [left; split; [simpl; auto | eexists; reflexivity]|].
  destruct (String.eqb_spec name "mycelium") as [-> | N2];
    [left; split; [simpl; auto | eexists; reflexivity]|].
  destruct (String.eqb_spec name "crystal") as [-> | N3];
    [left; split; [simpl; auto | eexists; reflexivity]|].
  right. split; [|reflexivity]. simpl. intros [E | [E | [E | []]]]; congruence.
Qed.

(** The rules of the two-dimensional table: a birth needs at least two
    neighbours, a survival at least one. *)
Lemma pattern2_ranges (name : string) (p : Gen2D.Pattern) :
  Gen2D.lookup name Gen2D.patterns = Ok p ->
  1 <= fst (Gen2D.survive_range p) /\ 2 <= fst (Gen2D.birth_range p).
Proof.
  unfold Gen2D.patterns. cbn [Gen2D.lookup]. intro L.
  destruct (String.eqb name "coral"); [inversion L; subst; simpl; lra|].
  destruct (String.eqb name "lichen"); [inversion L; subst; simpl; lra|].
  destruct (String.eqb name "mycelium"); [inversion L; subst; simpl; lra|].
  discriminate.
Qed.

(** The rules of the three-dimensional table: the kernel is non-negative,
    its weights over the 27 offsets sum to 1, and both ranges start at 3 or
    above. *)
Lemma pattern3_ranges (name : string) (p : Gen3D.Pattern) :
  Gen3D.lookup name Gen3D.patterns = Ok p ->
  Spec.nonnegative3 (Gen3D.kernel p)
  /\ Qsum (map (fun o => let '(a, b, c) := o in cell3 0 (Gen3D.kernel p) a b c) offsets3) == 1
  /\ 3 <= fst (Gen3D.survive_range p) /\ 3 <= fst (Gen3D.birth_range p).
Proof.
  unfold Gen3D.patterns, Gen3D.lookup. cbn [Gen2D.lookup]. intro L.
  destruct (String.eqb name "coral").
  { inversion L; subst. cbn [Gen3D.kernel Gen3D.survive_range Gen3D.birth_range fst].
    split; [apply KernelFacts.faces_ok; now left|].
    split; [vm_compute; reflexivity | split; lra]. }
  destruct (String.eqb name "mycelium").
  { inversion L; subst. cbn [Gen3D.kernel Gen3D.survive_range Gen3D.birth_range fst].
    split; [apply KernelFacts.faces_ok; now right|].
    split; [vm_compute; reflexivity | split; lra]. }
  destruct (String.eqb name "crystal").
  { inversion L; subst. cbn [Gen3D.kernel Gen3D.survive_range Gen3D.birth_range fst].
    split; [apply KernelFacts.cube_ok|].
    split; [vm_compute; reflexivity | split; lra]. }
  discriminate.
Qed.

Lemma grow2_raises (name : string) self st :
  Gen2D.grow name self st = Raise KeyError <-> ~ In name Props.names2.
Proof.
  destruct (lookup2_cases name) as [[Hin [p L]] | [Hn L]].
  - rewrite (RuleFacts.grow2_unfold name p self st L). split; [discriminate | tauto].
  - unfold Gen2D.grow. rewrite L. simpl. split; [intros _; exact Hn | reflexivity].
Qed.

Lemma grow3_raises (name : string) n self :
  Gen3D.grow name n self = Raise KeyError <-> ~ In name Props.names3.
Proof.
  unfold Gen3D.grow.
  destruct (lookup3_cases name) as [[Hin [p L]] | [Hn L]]; rewrite L; simpl.
  - split; [discriminate | tauto].
  - split; [intros _; exact Hn | reflexivity].
Qed.

End TableFacts.

(** X1.  A pattern name selects a rule by a dict lookup.  [grow] of the
    two-dimensional engine raises KeyError exactly for the names other than
    'coral', 'lichen' and 'mycelium' ('crystal' included), and [grow] of the
    three-dimensional engine exactly for the names other than 'coral',
    'mycelium' and 'crystal' ('lichen' included), whatever the number of
    generations, zero included: the lookup comes before the loop.  For the
    names of the table the call succeeds. *)
Theorem X1_unknown_pattern
  (name : string) (self2 : Gen2D.OrganicPatternGenerator) (st : Np.RandomState)
  (generations : nat) (self3 : Gen3D.OrganicPattern3D) :
  (Gen2D.grow name self2 st = Raise KeyError <-> ~ In name Props.names2)
  /\ (In name Props.names2 -> exists r, Gen2D.grow name self2 st = Ok r)
  /\ (Gen3D.grow name generations self3 = Raise KeyError <-> ~ In name Props.names3)
  /\ (In name Props.names3 -> exists r, Gen3D.grow name generations self3 = Ok r).
Proof.
  split; [apply TableFacts.grow2_raises|]. split; [|split].
  - intro Hin. destruct (TableFacts.lookup2_cases name) as [[_ [p L]] | [Hn _]]; [|tauto].
    rewrite (RuleFacts.grow2_unfold name p self2 st L). eexists. reflexivity.
  - apply TableFacts.grow3_raises.
  - intro Hin. destruct (TableFacts.lookup3_cases name) as [[_ [p L]] | [Hn _]]; [|tauto].
    unfold Gen3D.grow. rewrite L. eexists. reflexivity.
Qed.

Lemma X1_unknown_pattern_witness :
  Gen2D.grow "crystal" Examples.plus5 Examples.st0 = Raise KeyError
  /\ Gen3D.grow "lichen" 0 Examples.ball3 = Raise KeyError.
Proof.
  split.
  - apply (proj1 (X1_unknown_pattern "crystal" Examples.plus5 Examples.st0 0 Examples.ball3)).
    simpl. intros [E | [E | [E | []]]]; discriminate E.
  - apply (proj1 (proj2 (proj2
             (X1_unknown_pattern "lichen" Examples.plus5 Examples.st0 0 Examples.ball3)))).
    simpl. intros [E | [E | [E | []]]]; discriminate E.
Defined.

(* ------------------------------------------------------------------ *)
(** ** Extinction *)

Module ExtinctionFacts.
Import Np NpFacts ArrayMore.

Lemma aliveb_dead (survive birth : Q * Q) (cur n : Q) :
  ~ 0 < cur -> n < fst birth -> Spec.aliveb survive birth cur n = false.
Proof.
  intros Hc Hn. unfold Spec.aliveb.
  apply Qlt_bool_false in Hc. rewrite Hc. simpl.
  assert (E : Qle_bool (fst birth) n = false) by (apply Qle_bool_false; lra).
  rewrite E. now rewrite andb_false_r.
Qed.

Lemma aliveb_starved (survive birth : Q * Q) (cur n : Q) :
  n < fst survive -> n < fst birth -> Spec.aliveb survive birth cur n = false.
Proof.
  intros Hs Hb. unfold Spec.aliveb.
  assert (E1 : Qle_bool (fst survive) n = false) by (apply Qle_bool_false; lra).
  assert (E2 : Qle_bool (fst birth) n = false) by (apply Qle_bool_false; lra).
  rewrite E1, E2. now rewrite !andb_false_r.
Qed.

Lemma neighbor2_zeros (h w : nat) (k : array2 Q) (i j : nat) :
  neighbor2 (zeros2 h w) k i j == 0.
Proof.
  unfold neighbor2. apply Qsum_zero. intros [a b] _. unfold term2.
  rewrite cell_zeros2. ring.
Qed.

(** A rectangular array is determined by its cells. *)
Lemma array2_ext (g g' : array2 Q) (h w : nat) :
  shape2 g h w -> shape2 g' h w ->
  (forall i j, (i < h)%nat -> (j < w)%nat -> cell2 0 g i j = cell2 0 g' i j) ->
  g = g'.
Proof.
  intros Hs Hs' H.
  rewrite (EnvFacts.build2_cells g h w Hs), (EnvFacts.build2_cells g' h w Hs').
  now apply build2_ext.
Qed.

Lemma next_grid_zeros (name : string) (p : Gen2D.Pattern) (h w : nat) :
  Gen2D.lookup name Gen2D.patterns = Ok p ->
  Gen2D.next_grid p (zeros2 h w) = zeros2 h w.
Proof.
  intro L. destruct (TableFacts.pattern2_ranges name p L) as [_ Hb].
  assert (Hs : shape2 (zeros2 h w) h w) by apply shape_build2.
  apply (array2_ext _ _ h w).
  - unfold Gen2D.next_grid. now apply shape_like2.
  - exact Hs.
  - intros i j Hi Hj.
    rewrite (RuleFacts.next_grid_cell2 p _ h w i j Hs Hi Hj), !cell_zeros2.
    rewrite aliveb_dead; [reflexivity | lra |].
    rewrite neighbor2_zeros. lra.
Qed.

Lemma set_grid_same (self : Gen2D.OrganicPatternGenerator) :
  Gen2D.set_grid self (Gen2D.grid self) = self.
Proof. now destruct self. Qed.

Lemma grow_extinct (name : string) self st :
  name = "coral"%string \/ name = "lichen"%string ->
  Gen2D.grid self = zeros2 (Gen2D.height self) (Gen2D.width self) ->
  Gen2D.grow name self st = Ok (self, st, 0%nat).
Proof.
  intros Hn Hz.
  assert (L : exists p, Gen2D.lookup name Gen2D.patterns = Ok p
                        /\ String.eqb name "mycelium" = false)
    by (destruct Hn as [-> | ->]; eexists; split; reflexivity).
  destruct L as (p & L & N).
  rewrite (RuleFacts.grow2_unfold name p self st L), N. cbn [fst snd].
  rewrite Hz, (next_grid_zeros name p _ _ L), <- Hz, set_grid_same.
  rewrite Hz, (active2_none _ (zeros2_none _ _)). reflexivity.
Qed.

End ExtinctionFacts.

(** X2.  Extinction is absorbing for 'coral' and 'lichen' in the
    two-dimensional engine.  On a generator whose grid is all zeros, [grow]
    returns 0 active cells and leaves the generator and the random generator
    exactly as they were; any number of further calls finds the same grid;
    and the driver loop of [main] stops after its first round, without
    applying the light gradient. *)
Theorem X2_extinction_is_absorbing
  (name : string) (self : Gen2D.OrganicPatternGenerator) (st : Np.RandomState) (n : nat) :
  name = "coral"%string \/ name = "lichen"%string ->
  Gen2D.grid self = Np.zeros2 (Gen2D.height self) (Gen2D.width self) ->
  Gen2D.grow name self st = Ok (self, st, 0%nat)
  /\ Gen2D.grow_trace name n self st = Ok (repeat (Gen2D.grid self) n)
  /\ Driver.run name self st = Ok (self, st, [0%nat]).
Proof.
  intros Hn Hz.
  pose proof (ExtinctionFacts.grow_extinct name self st Hn Hz) as G.
  split; [exact G|]. split.
  - induction n as [|n IH]; [reflexivity|].
    simpl. rewrite G. cbn [bind]. rewrite IH. reflexivity.
  - unfold Driver.run. cbn [Driver.grow_rounds]. rewrite G. reflexivity.
Qed.

Lemma X2_extinction_is_absorbing_witness :
  Gen2D.grow "lichen" Props.blank5 Examples.st0 = Ok (Props.blank5, Examples.st0, 0%nat)
  /\ Driver.run "coral" Props.blank5 Examples.st0
     = Ok (Props.blank5, Examples.st0, [0%nat]).
Proof.
  split.
  - apply (X2_extinction_is_absorbing "lichen" Props.blank5 Examples.st0 0);
      [now right | reflexivity].
  - apply (X2_extinction_is_absorbing "coral" Props.blank5 Examples.st0 0);
      [now left | reflexivity].
Defined.

Module Extinction3D.
Import Np NpFacts ArrayMore.

Lemma build3_cells (g : array3 Q) (dp h w : nat) :
  shape3 g dp h w -> g = build3 dp h w (cell3 0 g).
Proof.
  intros [Hl Hp]. apply (nth_ext _ _ [] []).
  - unfold build3. now rewrite length_map, length_seq.
  - intros z Hz. rewrite Hl in Hz. unfold build3.
    rewrite (nth_map_seq [] (fun z => build2 h w (cell3 0 g z))) by exact Hz.
    apply (EnvFacts.build2_cells (nth z g []) h w).
    rewrite Forall_forall in Hp. apply Hp, nth_In. lia.
Qed.

Lemma array3_ext (g g' : array3 Q) (dp h w : nat) :
  shape3 g dp h w -> shape3 g' dp h w ->
  (forall z y x, (z < dp)%nat -> (y < h)%nat -> (x < w)%nat ->
                 cell3 0 g z y x = cell3 0 g' z y x) ->
  g = g'.
Proof.
  intros Hs Hs' H.
  rewrite (build3_cells g dp h w Hs), (build3_cells g' dp h w Hs').
  now apply build3_ext.
Qed.

Lemma truncate_unit (q : Q) :
  0 <= q -> q <= 1 -> 0 <= Gen3D.truncate q /\ Gen3D.truncate q <= 1.
Proof.
  intros H0 H1. unfold Gen3D.truncate.
  destruct q as [n d]. unfold Qle in H0, H1. simpl in *.
  assert (Hn : (0 <= n)%Z) by lia.
  assert (Hd : (n <= Z.pos d)%Z) by lia.
  split.
  - change 0 with (inject_Z 0). rewrite <- Zle_Qle. apply Z.quot_pos; lia.
  - change 1 with (inject_Z 1). rewrite <- Zle_Qle.
    apply Z.quot_le_upper_bound; lia.
Qed.

Lemma cast_unit (dt : Gen3D.dtype) (q : Q) :
  0 <= q -> q <= 1 -> 0 <= Gen3D.cast dt q /\ Gen3D.cast dt q <= 1.
Proof.
  intros H0 H1. destruct dt; simpl; [split; assumption | now apply truncate_unit].
Qed.

(** With non-negative weights that sum to 1, the neighbour value of a grid
    with cells in [[0, 1]] lies in [[0, 1]]. *)
Lemma neighbor3_unit (g k : array3 Q) (z y x : nat) :
  Spec.nonnegative3 k ->
  Qsum (map (fun o => let '(a, b, c) := o in cell3 0 k a b c) offsets3) == 1 ->
  Props.unit_interval3 g ->
  0 <= neighbor3 g k z y x /\ neighbor3 g k z y x <= 1.
Proof.
  intros Hk Hsum Hg.
  assert (C : forall z y x, 0 <= cell3 0 g z y x /\ cell3 0 g z y x <= 1).
  { intros z' y' x'. apply (cell3_Forall (fun c => 0 <= c /\ c <= 1)); [lra | exact Hg]. }
  unfold neighbor3. split.
  - apply Qsum_nonneg. intros [[a b] c] _. unfold term3.
    apply Qmult_le_0_compat; [now apply WrapFacts.cell3_nonneg | apply C].
  - rewrite <- Hsum. apply Qsum_le. intros [[a b] c] _. unfold term3.
    pose proof (WrapFacts.cell3_nonneg k a b c Hk) as K.
    destruct (C (src (planes g) z a) (src (rows3 g) y b) (src (cols3 g) x c)) as [C0 C1].
    rewrite <- (Qmult_1_r (cell3 0 k a b c)) at 2.
    rewrite (Qmult_comm (cell3 0 k a b c) _), (Qmult_comm (cell3 0 k a b c) 1).
    apply Qmult_le_compat_r; assumption.
Qed.

Lemma zeros3_unit (dp h w : nat) : Props.unit_interval3 (zeros3 dp h w).
Proof. apply SeedFacts.Forall_build3. intros. lra. Qed.

(** One generation of any rule of the table empties the grid. *)
Lemma next_grid3_extinct (name : string) (p : Gen3D.Pattern) (dt : Gen3D.dtype)
      (g : array3 Q) (dp h w : nat) :
  Gen3D.lookup name Gen3D.patterns = Ok p ->
  shape3 g dp h w -> Props.unit_interval3 g ->
  Gen3D.next_grid p dt g = zeros3 dp h w.
Proof.
  intros L Hs Hg.
  destruct (TableFacts.pattern3_ranges name p L) as (Hk & Hsum & Hsv & Hb).
  apply (array3_ext _ _ dp h w).
  - unfold Gen3D.next_grid. now apply shape_like3.
  - apply shape_build3.
  - intros z y x Hz Hy Hx.
    rewrite (RuleFacts.next_grid_cell3 p dt g dp h w z y x Hs Hz Hy Hx), cell_zeros3.
    destruct (neighbor3_unit g (Gen3D.kernel p) z y x Hk Hsum Hg) as [N0 N1].
    destruct (cast_unit dt _ N0 N1) as [_ C1].
    rewrite ExtinctionFacts.aliveb_starved; [reflexivity | lra | lra].
Qed.

Lemma iterates_zeros (name : string) (p : Gen3D.Pattern) (dt : Gen3D.dtype)
      (dp h w n : nat) :
  Gen3D.lookup name Gen3D.patterns = Ok p ->
  Spec.iterates p dt n (zeros3 dp h w) = repeat (zeros3 dp h w) n.
Proof.
  intro L.
  assert (Hz : shape3 (zeros3 dp h w) dp h w) by apply shape_build3.
  induction n as [|n IH]; [reflexivity|].
  cbn [Spec.iterates repeat].
  rewrite (next_grid3_extinct name p dt _ dp h w L Hz (zeros3_unit _ _ _)).
  now rewrite IH.
Qed.

Lemma last_repeat {A} (x d : A) (n : nat) : last (repeat x (S n)) d = x.
Proof.
  revert d. induction n as [|n IH]; intro d; [reflexivity|].
  change (repeat x (S (S n))) with (x :: repeat x (S n)).
  rewrite TraceFacts.last_cons. apply IH.
Qed.

End Extinction3D.

(** X3.  The three-dimensional engine empties every grid in one generation.
    Its kernels are normalised, so the neighbour value of a grid with cells
    in [[0, 1]] is at most 1 (truncated or not), while every survive and
    birth range of its table starts at 3 or above.  Hence, for every rule of
    the table and every grid with cells in [[0, 1]], of either element type,
    [grow] with one generation or more leaves the all-zero grid, appends
    only all-zero snapshots and leaves no active cell. *)
Theorem X3_3d_extinction_in_one_generation
  (name : string) (p : Gen3D.Pattern) (self : Gen3D.OrganicPattern3D) (n : nat) :
  Gen3D.lookup name Gen3D.patterns = Ok p ->
  Np.shape3 (Gen3D.grid self) (Gen3D.depth self) (Gen3D.height self) (Gen3D.width self) ->
  Props.unit_interval3 (Gen3D.grid self) ->
  let zeros := Np.zeros3 (Gen3D.depth self) (Gen3D.height self) (Gen3D.width self) in
  exists self',
    Gen3D.grow name (S n) self = Ok self'
    /\ Gen3D.grid self' = zeros
    /\ Gen3D.history self' = Gen3D.history self ++ repeat zeros (S n)
    /\ Np.active3 (Gen3D.grid self') = 0%nat.
Proof.
  intros L Hs Hg zeros.
  assert (I : Spec.iterates p (Gen3D.grid_dtype self) (S n) (Gen3D.grid self)
              = repeat zeros (S n)).
  { cbn [Spec.iterates repeat].
    rewrite (Extinction3D.next_grid3_extinct name p _ _ _ _ _ L Hs Hg).
    fold zeros. f_equal. apply (Extinction3D.iterates_zeros name p _ _ _ _ n L). }
  unfold Gen3D.grow. rewrite L. cbn [bind].
  exists (Gen3D.generations_loop p (S n) self).
  split; [reflexivity|].
  assert (G : Gen3D.grid (Gen3D.generations_loop p (S n) self) = zeros)
    by (rewrite TraceFacts.loop_grid, I; apply Extinction3D.last_repeat).
  split; [exact G|]. split.
  - now rewrite TraceFacts.loop_history, I.
  - rewrite G. apply ArrayMore.active3_none, ArrayMore.zeros3_none.
Qed.

Lemma X3_3d_extinction_in_one_generation_witness :
  exists self',
    Gen3D.grow "coral" 1 Examples.ball3 = Ok self'
    /\ Gen3D.grid self' = Np.zeros3 3 3 3
    /\ Gen3D.history self' = [Gen3D.grid Examples.ball3; Np.zeros3 3 3 3]
    /\ Np.active3 (Gen3D.grid self') = 0%nat.
Proof.
  apply (X3_3d_extinction_in_one_generation "coral" Props.coral3 Examples.ball3 0).
  - reflexivity.
  - exact ExampleFacts.ball3_shaped.
  - repeat constructor; apply Qle_bool_iff; reflexivity.
Defined.

(* ------------------------------------------------------------------ *)
(** ** 'mycelium' under noise *)

Module MyceliumFacts.
Import Np NpFacts ArrayMore.

Lemma noisy_positive (c u : Q) :
  c = 0 \/ c = 1 -> 0 < u -> u < 1 -> 0 < clip 0 1 (c + u * (1 # 10)).
Proof.
  intros Hc Hu0 Hu1. destruct Hc as [-> | ->].
  - rewrite NoiseFacts.clip_inside by lra. lra.
  - rewrite NoiseFacts.clip_above by lra. lra.
Qed.

Lemma mycelium_lookup :
  Gen2D.lookup "mycelium" Gen2D.patterns = Ok Examples.mycelium2.
Proof. reflexivity. Qed.

Lemma positive_advance (n : nat) (st : RandomState) :
  Props.positive_samples st -> Props.positive_samples (advance n st).
Proof. intros H k. apply H. Qed.

(** One 'mycelium' step under positive noise. *)
Lemma grow_mycelium self st :
  Gen2D.well_shaped self -> Props.positive_samples st ->
  let next := Gen2D.next_grid Examples.mycelium2 (Gen2D.grid self) in
  let self' := Gen2D.set_grid self (fst (Gen2D.add_noise next st)) in
  Gen2D.grow "mycelium" self st
  = Ok (self', advance (Gen2D.height self * Gen2D.width self) st,
        (Gen2D.height self * Gen2D.width self)%nat)
  /\ Gen2D.well_shaped self'
  /\ Props.positive2 (Gen2D.grid self').
Proof.
  intros Hs Hp next self'.
  set (h := Gen2D.height self) in *. set (w := Gen2D.width self) in *.
  assert (Sn : shape2 next h w) by (unfold next, Gen2D.next_grid; now apply shape_like2).
  assert (Sa : shape2 (fst (Gen2D.add_noise next st)) h w).
  { unfold Gen2D.add_noise, random2. cbn [fst]. now apply shape_like2. }
  assert (Pc : forall i j, (i < h)%nat -> (j < w)%nat ->
                           0 < cell2 0 (fst (Gen2D.add_noise next st)) i j).
  { intros i j Hi Hj. rewrite (NoiseFacts.add_noise_cell next st h w i j Sn Hi Hj).
    apply noisy_positive; [|apply Hp|apply Hp].
    apply (NoiseFacts.next_grid2_binary _ _ _ _ i j Hs Hi Hj). }
  assert (E : fst (Gen2D.add_noise next st)
              = build2 h w (cell2 0 (fst (Gen2D.add_noise next st))))
    by now apply EnvFacts.build2_cells.
  split; [|split].
  - rewrite (RuleFacts.grow2_unfold "mycelium" _ self st mycelium_lookup).
    cbn [String.eqb Ascii.eqb Bool.eqb]. fold next.
    rewrite NoiseFacts.add_noise_state.
    assert (R : (rows next * cols next = h * w)%nat).
    { destruct Sn as [Hl Hr]. unfold rows. rewrite Hl. destruct h as [|h']; [reflexivity|].
      f_equal. apply (shape2_cols next (S h') w); [now split | lia]. }
    rewrite R. f_equal. f_equal.
    rewrite E. now apply active2_all.
  - exact Sa.
  - unfold Props.positive2. cbn [self' Gen2D.grid Gen2D.set_grid]. rewrite E.
    now apply SeedFacts.Forall_build2.
Qed.

End MyceliumFacts.

(** X4.  Under noise a 'mycelium' pattern never dies out.  When no noise
    sample is 0, every cell of the grid after a [grow] of 'mycelium' is above
    0, whatever the grid was, so the call returns the full cell count
    [height * width] and advances the random generator by that many samples;
    the driver loop therefore never leaves early on a non-empty grid: every
    one of its rounds reports [height * width] active cells. *)
Theorem X4_mycelium_never_dies
  (self : Gen2D.OrganicPatternGenerator) (st : Np.RandomState) (n : nat) :
  Gen2D.well_shaped self ->
  (0 < Gen2D.height self)%nat -> (0 < Gen2D.width self)%nat ->
  Props.positive_samples st ->
  let cells := (Gen2D.height self * Gen2D.width self)%nat in
  (exists self',
      Gen2D.grow "mycelium" self st = Ok (self', Np.advance cells st, cells)
      /\ Gen2D.well_shaped self'
      /\ Props.positive2 (Gen2D.grid self'))
  /\ (exists selfn,
         Driver.grow_rounds "mycelium" n self st
         = Ok (selfn, Np.advance (n * cells) st, repeat cells n)).
Proof.
  intros Hs Hh Hw Hp cells.
  split.
  - destruct (MyceliumFacts.grow_mycelium self st Hs Hp) as (G & S' & P').
    eexists. split; [exact G|]. split; assumption.
  - assert (Hc : Nat.eqb cells 0 = false) by (apply Nat.eqb_neq; unfold cells; nia).
    assert (Gen : forall m self0 st0,
               Gen2D.well_shaped self0 -> Props.positive_samples st0 ->
               (Gen2D.height self0 * Gen2D.width self0)%nat = cells ->
               exists selfn,
                 Driver.grow_rounds "mycelium" m self0 st0
                 = Ok (selfn, Np.advance (m * cells) st0, repeat cells m)).
    { induction m as [|m IH]; intros self0 st0 S0 P0 C0.
      - exists self0. simpl. destruct st0. unfold Np.advance. simpl.
        now rewrite Nat.add_0_r.
      - destruct (MyceliumFacts.grow_mycelium self0 st0 S0 P0) as (G & S' & P').
        rewrite C0 in G. cbn [Driver.grow_rounds]. rewrite G. cbn [bind]. rewrite Hc.
        destruct (IH _ (Np.advance cells st0) S' (MyceliumFacts.positive_advance _ _ P0))
          as (selfn & R); [exact C0|].
        rewrite R. cbn [bind]. exists selfn.
        replace (Np.advance (S m * cells) st0)
          with (Np.advance (m * cells) (Np.advance cells st0))
          by (unfold Np.advance; simpl; f_equal; lia).
        reflexivity. }
    apply Gen; [exact Hs | exact Hp |].
    reflexivity.
Qed.

Lemma X4_mycelium_never_dies_witness :
  exists self',
    Gen2D.grow "mycelium" Examples.plus5 Props.st_pos
    = Ok (self', Np.advance 25 Props.st_pos, 25%nat)
    /\ Gen2D.well_shaped self'
    /\ Props.positive2 (Gen2D.grid self').
Proof.
  apply (X4_mycelium_never_dies Examples.plus5 Props.st_pos 3).
  - exact ExampleFacts.plus5_shaped.
  - vm_compute; lia.
  - vm_compute; lia.
  - intro k. split; apply NpFacts.Qlt_bool_iff; reflexivity.
Defined.



(* ------------------------------------------------------------------ *)
(** ** The deterministic seeds *)

Module SeedMore.
Import Np NpFacts ArrayMore.

(** A cell of the grid [seed_center] of the two-dimensional engine makes. *)
Lemma seed_center2_cell (radius : Py.number) self (i j : nat) :
  (i < Gen2D.height self)%nat -> (j < Gen2D.width self)%nat ->
  cell2 0 (Gen2D.grid (Gen2D.seed_center radius self)) i j
  = if Py.int_le (Props.dist2 self i j) (Py.square radius) then 1 else 0.
Proof.
  intros Hi Hj. unfold Gen2D.seed_center. cbn [Gen2D.grid Gen2D.set_grid].
  now rewrite cell_build2.
Qed.

Lemma seed_center2_int (r : Z) self (i j : nat) :
  (i < Gen2D.height self)%nat -> (j < Gen2D.width self)%nat ->
  cell2 0 (Gen2D.grid (Gen2D.seed_center (Py.PyInt r) self)) i j
  = if Z.leb (Props.dist2 self i j) (r * r) then 1 else 0.
Proof. intros Hi Hj. now rewrite seed_center2_cell. Qed.

(** The product of a double with itself does not see its sign. *)
Lemma mul_neg (f : F64.float) : F64.mul (F64.neg f) (F64.neg f) = F64.mul f f.
Proof. destruct f as [s|s| |s m e]; try destruct s; reflexivity. Qed.

Lemma square_negate (n : Py.number) : Py.square (Py.negate n) = Py.square n.
Proof.
  destruct n as [z|f]; cbn [Py.square Py.negate].
  - f_equal. lia.
  - f_equal. apply mul_neg.
Qed.

(** The sign of what the rounding of binary64 returns is the one asked for. *)
Lemma round_aux_sign sx m e l :
  match binary_round_aux F64.prec F64.emax sx m e l with
  | S754_zero s | S754_infinity s | S754_finite s _ _ => s = sx
  | S754_nan => True
  end.
Proof.
  unfold binary_round_aux.
  destruct (shr_fexp F64.prec F64.emax m e l) as [mrs' e'].
  destruct (shr_fexp F64.prec F64.emax _ e' loc_Exact) as [mrs'' e''].
  destruct (shr_m mrs''); [reflexivity| |exact I].
  destruct (Z.leb _ _); reflexivity.
Qed.

Lemma of_Z_sign (d : Z) :
  (0 <= d)%Z ->
  match F64.of_Z d with
  | S754_zero s | S754_infinity s | S754_finite s _ _ => s = false
  | S754_nan => True
  end.
Proof.
  intro H. unfold F64.of_Z, binary_normalize.
  destruct d as [|p|p]; [reflexivity| |lia].
  unfold binary_round. destruct (shl_align _ _ _). apply round_aux_sign.
Qed.

Lemma sqrt_sign (x : F64.float) :
  match x with
  | S754_zero s | S754_infinity s | S754_finite s _ _ => s = false
  | S754_nan => True
  end ->
  match F64.sqrt x with
  | S754_zero s | S754_infinity s | S754_finite s _ _ => s = false
  | S754_nan => True
  end.
Proof.
  destruct x as [s|s| |s m e]; simpl; intro H; subst; auto.
  destruct (SFsqrt_core_binary _ _ _ _) as [[mz ez] lz]. apply round_aux_sign.
Qed.

(** Nothing that carries no minus sign is at most a negative double. *)
Lemma leb_negative (x f : F64.float) :
  match x with
  | S754_zero s | S754_infinity s | S754_finite s _ _ => s = false
  | S754_nan => True
  end ->
  F64.ltb f F64.zero = true -> F64.leb x f = false.
Proof.
  intros Hx Hf.
  destruct f as [s|s| |s m e]; try destruct s; try discriminate Hf;
    destruct x as [s'|s'| |s' m' e']; try subst s'; reflexivity.
Qed.

Lemma leb_nan (x f : F64.float) : F64.is_nan f = true -> F64.leb x f = false.
Proof.
  destruct f; try discriminate. intros _. now destruct x as [s|s| |s m e].
Qed.

Lemma dist3_nonneg self z y x : (0 <= Props.dist3 self z y x)%Z.
Proof.
  unfold Props.dist3. cbv zeta.
  repeat apply Z.add_nonneg_nonneg; apply Z.square_nonneg.
Qed.

(** The distance of a cell in doubles is never at most a negative radius. *)
Lemma distance_negative self z y x (f : F64.float) :
  F64.ltb f F64.zero = true ->
  F64.leb (F64.sqrt (F64.of_Z (Props.dist3 self z y x))) f = false.
Proof.
  intro Hf. apply leb_negative; [|exact Hf].
  apply sqrt_sign, of_Z_sign, dist3_nonneg.
Qed.

(** The grid [seed_center] of the three-dimensional engine draws for the
    radius [f] in doubles. *)
Lemma seed_center3_ok radius self (f : F64.float) :
  Py.to_float radius = Ok f ->
  Gen3D.seed_center radius self
  = Ok (let g := build3 (Gen3D.depth self) (Gen3D.height self) (Gen3D.width self)
                   (fun z y x =>
                      if F64.leb (F64.sqrt (F64.of_Z (Props.dist3 self z y x))) f
                      then 1 else 0) in
        Gen3D.mkEngine (Gen3D.width self) (Gen3D.height self) (Gen3D.depth self)
          g Gen3D.Float64 [g]).
Proof.
  intro F. unfold Gen3D.seed_center.
  destruct (Nat.eqb_spec (Gen3D.depth self * Gen3D.height self * Gen3D.width self) 0)
    as [E | E].
  - cbn [bind]. cbv zeta.
    assert (B : build3 (Gen3D.depth self) (Gen3D.height self) (Gen3D.width self)
                  (fun z y x =>
                     if F64.leb (F64.sqrt (F64.of_Z (Props.dist3 self z y x))) F64.zero
                     then 1 else 0)
                = build3 (Gen3D.depth self) (Gen3D.height self) (Gen3D.width self)
                    (fun z y x =>
                       if F64.leb (F64.sqrt (F64.of_Z (Props.dist3 self z y x))) f
                       then 1 else 0)).
    { apply build3_ext. intros z y x Hz Hy Hx. exfalso.
      assert (0 < Gen3D.depth self * Gen3D.height self * Gen3D.width self)%nat
        by (repeat apply Nat.mul_pos_pos; lia).
      lia. }
    unfold Props.dist3 in B. cbv zeta in B. now rewrite B.
  - rewrite F. reflexivity.
Qed.

Lemma seed_center3_empty radius self :
  (Gen3D.depth self * Gen3D.height self * Gen3D.width self = 0)%nat ->
  Gen3D.seed_center radius self
  = Ok (let g := zeros3 (Gen3D.depth self) (Gen3D.height self) (Gen3D.width self) in
        Gen3D.mkEngine (Gen3D.width self) (Gen3D.height self) (Gen3D.depth self)
          g Gen3D.Float64 [g]).
Proof.
  intro E. unfold Gen3D.seed_center. rewrite (proj2 (Nat.eqb_eq _ _) E).
  cbn [bind]. cbv zeta.
  assert (B : forall c,
             build3 (Gen3D.depth self) (Gen3D.height self) (Gen3D.width self) c
             = zeros3 (Gen3D.depth self) (Gen3D.height self) (Gen3D.width self)).
  { intro c. apply build3_ext. intros z y x Hz Hy Hx. exfalso.
    assert (0 < Gen3D.depth self * Gen3D.height self * Gen3D.width self)%nat
      by (repeat apply Nat.mul_pos_pos; lia).
    lia. }
  now rewrite B.
Qed.

Lemma seed_center3_overflow radius self x :
  Py.to_float radius = Raise x ->
  (0 < Gen3D.depth self * Gen3D.height self * Gen3D.width self)%nat ->
  Gen3D.seed_center radius self = Raise OverflowError.
Proof.
  intros F P. unfold Gen3D.seed_center.
  destruct (Nat.eqb_spec (Gen3D.depth self * Gen3D.height self * Gen3D.width self) 0)
    as [E | E]; [lia|].
  destruct radius as [z|f]; cbn [Py.to_float] in *; [|discriminate F].
  destruct (F64.is_inf (F64.of_Z z)); [reflexivity | discriminate F].
Qed.

Lemma dist2_centre self :
  Props.dist2 self (Gen2D.height self / 2) (Gen2D.width self / 2) = 0%Z.
Proof. unfold Props.dist2. lia. Qed.

Lemma dist3_centre self :
  Props.dist3 self (Gen3D.depth self / 2) (Gen3D.height self / 2) (Gen3D.width self / 2)
  = 0%Z.
Proof. unfold Props.dist3. lia. Qed.

Lemma half_lt (n : nat) : (0 < n)%nat -> (n / 2 < n)%nat.
Proof. intro H. apply Nat.div_lt; lia. Qed.

Lemma one_or_zero (b : bool) :
  ((if b then 1 else 0) = 1 <-> b = true)
  /\ ((if b then 1 else 0) = 0 <-> b = false).
Proof. destruct b; repeat split; intros; congruence || discriminate. Qed.

End SeedMore.

(** X6.  [seed_center] of the two-dimensional engine compares the integer
    [x*x + y*y] of a cell with [radius * radius] as Python computes it: the
    cell [(i, j)] is 1 when the comparison holds and 0 otherwise.  The sign
    of the radius is ignored, for an int and for a float (a negative radius
    seeds the same disc).  For an int radius [r] the square is exact: the
    cell is 1 exactly when its squared distance from the centre
    [(height // 2, width // 2)] is at most [r * r], the centre cell is
    always seeded, and a radius of larger magnitude seeds a superset.  For a
    float radius the square is rounded: the double [6.4031242374328485],
    whose square rounds to [41.0], seeds all 80 cells of an 8 x 10 grid,
    the corner at squared distance 41 included.  The grid keeps the shape
    of the engine. *)
Theorem X6_seed_center_2d
  (radius : Py.number) (r r' : Z) (self : Gen2D.OrganicPatternGenerator) (i j : nat) :
  (i < Gen2D.height self)%nat -> (j < Gen2D.width self)%nat ->
  let cell rad := Np.cell2 0 (Gen2D.grid (Gen2D.seed_center rad self)) i j in
  cell radius
  = (if Py.int_le (Props.dist2 self i j) (Py.square radius) then 1 else 0)
  /\ Gen2D.seed_center (Py.negate radius) self = Gen2D.seed_center radius self
  /\ (cell (Py.PyInt r) = 1 <-> (Props.dist2 self i j <= r * r)%Z)
  /\ (cell (Py.PyInt r) = 0 <-> (r * r < Props.dist2 self i j)%Z)
  /\ Np.cell2 0 (Gen2D.grid (Gen2D.seed_center (Py.PyInt r) self))
       (Gen2D.height self / 2) (Gen2D.width self / 2) = 1
  /\ ((r * r <= r' * r')%Z -> cell (Py.PyInt r) = 1 -> cell (Py.PyInt r') = 1)
  /\ Gen2D.well_shaped (Gen2D.seed_center radius self)
  /\ F64.mul Examples.sqrt41 Examples.sqrt41 = F64.of_Z 41
  /\ Np.cell2 0
       (Gen2D.grid (Gen2D.seed_center (Py.PyFloat Examples.sqrt41) (Gen2D.init 8 10)))
       0 0 = 1
  /\ Np.active2
       (Gen2D.grid (Gen2D.seed_center (Py.PyFloat Examples.sqrt41) (Gen2D.init 8 10)))
     = 80%nat.
Proof.
  intros Hi Hj cell.
  assert (C : forall z, cell (Py.PyInt z)
                        = if Z.leb (Props.dist2 self i j) (z * z) then 1 else 0)
    by (intro z; now apply SeedMore.seed_center2_int).
  split; [|split; [|split; [|split; [|split; [|split; [|split]]]]]].
  - now apply SeedMore.seed_center2_cell.
  - unfold Gen2D.seed_center. now rewrite SeedMore.square_negate.
  - rewrite C, (proj1 (SeedMore.one_or_zero _)). apply Z.leb_le.
  - rewrite C, (proj2 (SeedMore.one_or_zero _)). apply Z.leb_gt.
  - rewrite SeedMore.seed_center2_int by (apply SeedMore.half_lt; lia).
    rewrite SeedMore.dist2_centre.
    assert (E : Z.leb 0 (r * r) = true) by (apply Z.leb_le; nia).
    now rewrite E.
  - intros M A. rewrite C in *.
    apply (proj1 (SeedMore.one_or_zero _)) in A. apply Z.leb_le in A.
    assert (E : Z.leb (Props.dist2 self i j) (r' * r') = true)
      by (apply Z.leb_le; lia).
    now rewrite E.
  - apply NpFacts.shape_build2.
  - repeat split; vm_compute; reflexivity.
Qed.

Lemma X6_seed_center_2d_witness :
  Gen2D.seed_center (Py.PyInt (-1)) (Gen2D.init 5 5)
  = Gen2D.seed_center (Py.PyInt 1) (Gen2D.init 5 5)
  /\ Np.cell2 0 (Gen2D.grid (Gen2D.seed_center (Py.PyInt 1) (Gen2D.init 5 5))) 2 2 = 1.
Proof.
  destruct (X6_seed_center_2d (Py.PyInt 1) 1 2 (Gen2D.init 5 5) 0 0)
    as (_ & A & _ & _ & B & _).
  - vm_compute; lia.
  - vm_compute; lia.
  - split; [exact A | exact B].
Defined.

(** X7.  [seed_center] of the three-dimensional engine compares, in
    doubles, the distance [np.sqrt(dx**2 + dy**2 + dz**2)] of a cell with
    the radius converted to a double.  When the radius converts to the
    double [f], the call succeeds and the cell [(z, y, x)] is 1 exactly when
    the double square root of its squared distance is at most [f]; so a
    negative radius, or a NaN, seeds nothing (unlike in two dimensions), a
    radius of at least 0 seeds the centre cell; the history is reset to the
    one seeded snapshot and the grid is a float array of the shape of the
    engine.  When the radius is an int beyond the doubles, the call raises
    OverflowError at the first cell, and seeds the empty grid when there is
    no cell.  The distance itself is compared, not its square: the double
    [1.7320508075688772], whose square is below 3, seeds all 27 cells of a
    3 x 3 x 3 grid, the corners at squared distance 3 included. *)
Theorem X7_seed_center_3d
  (radius : Py.number) (self : Gen3D.OrganicPattern3D) :
  let cells := (Gen3D.depth self * Gen3D.height self * Gen3D.width self)%nat in
  let zeros := Np.zeros3 (Gen3D.depth self) (Gen3D.height self) (Gen3D.width self) in
  (forall f : F64.float,
     Py.to_float radius = Ok f ->
     exists seeded,
       Gen3D.seed_center radius self = Ok seeded
       /\ (forall z y x : nat,
             (z < Gen3D.depth self)%nat -> (y < Gen3D.height self)%nat ->
             (x < Gen3D.width self)%nat ->
             Np.cell3 0 (Gen3D.grid seeded) z y x
             = if F64.leb (F64.sqrt (F64.of_Z (Props.dist3 self z y x))) f
               then 1 else 0)
       /\ (F64.ltb f F64.zero = true -> Gen3D.grid seeded = zeros)
       /\ (F64.is_nan f = true -> Gen3D.grid seeded = zeros)
       /\ (F64.leb F64.zero f = true -> (0 < cells)%nat ->
           Np.cell3 0 (Gen3D.grid seeded)
             (Gen3D.depth self / 2) (Gen3D.height self / 2) (Gen3D.width self / 2) = 1)
       /\ Gen3D.history seeded = [Gen3D.grid seeded]
       /\ Gen3D.grid_dtype seeded = Gen3D.Float64
       /\ (Gen3D.depth seeded, Gen3D.height seeded, Gen3D.width seeded)
          = (Gen3D.depth self, Gen3D.height self, Gen3D.width self)
       /\ Np.shape3 (Gen3D.grid seeded)
            (Gen3D.depth self) (Gen3D.height self) (Gen3D.width self))
  /\ (forall x : exn,
        Py.to_float radius = Raise x ->
        ((0 < cells)%nat -> Gen3D.seed_center radius self = Raise OverflowError)
        /\ (cells = 0%nat ->
            exists seeded,
              Gen3D.seed_center radius self = Ok seeded
              /\ Gen3D.grid seeded = zeros
              /\ Gen3D.history seeded = [zeros]))
  /\ Py.to_float (Py.PyInt (10 ^ 400)) = Raise OverflowError
  /\ F64.sqrt (F64.of_Z 3) = Examples.sqrt3
  /\ (exists seeded,
        Gen3D.seed_center (Py.PyFloat Examples.sqrt3) (Gen3D.init 3 3 3) = Ok seeded
        /\ Np.active3 (Gen3D.grid seeded) = 27%nat).
Proof.
  intros cells zeros.
  split; [|split; [|split; [|split]]].
  - intros f F. eexists. split; [apply (SeedMore.seed_center3_ok _ _ f F)|].
    cbv zeta. cbn [Gen3D.grid Gen3D.history Gen3D.grid_dtype Gen3D.depth
                   Gen3D.height Gen3D.width].
    split; [|split; [|split; [|split; [|split; [|split; [|split]]]]]].
    + intros z y x Hz Hy Hx. now rewrite NpFacts.cell_build3.
    + intro N. apply ArrayMore.build3_ext. intros z y x _ _ _.
      now rewrite SeedMore.distance_negative.
    + intro N. apply ArrayMore.build3_ext. intros z y x _ _ _.
      now rewrite SeedMore.leb_nan.
    + intros P Hc.
      assert (0 < Gen3D.depth self /\ 0 < Gen3D.height self /\ 0 < Gen3D.width self)%nat
        as (Hd & Hh & Hw).
      { unfold cells in Hc.
        destruct (Gen3D.depth self), (Gen3D.height self), (Gen3D.width self); lia. }
      rewrite NpFacts.cell_build3 by (apply SeedMore.half_lt; assumption).
      rewrite SeedMore.dist3_centre.
      change (F64.sqrt (F64.of_Z 0)) with F64.zero. now rewrite P.
    + reflexivity.
    + reflexivity.
    + reflexivity.
    + apply NpFacts.shape_build3.
  - intros x F. split.
    + intro P. exact (SeedMore.seed_center3_overflow _ _ x F P).
    + intro E. eexists. split; [apply (SeedMore.seed_center3_empty _ _ E)|].
      split; reflexivity.
  - vm_compute. reflexivity.
  - vm_compute. reflexivity.
  - eexists. split; vm_compute; reflexivity.
Qed.

Lemma X7_seed_center_3d_witness :
  (exists seeded,
     Gen3D.seed_center (Py.PyInt (-1)) (Gen3D.init 3 3 3) = Ok seeded
     /\ Gen3D.grid seeded = Np.zeros3 3 3 3)
  /\ (exists seeded,
        Gen3D.seed_center (Py.PyInt 1) (Gen3D.init 3 3 3) = Ok seeded
        /\ Np.cell3 0 (Gen3D.grid seeded) 1 1 1 = 1)
  /\ Gen3D.seed_center (Py.PyInt (10 ^ 400)) (Gen3D.init 3 3 3) = Raise OverflowError.
Proof.
  split; [|split].
  - destruct (X7_seed_center_3d (Py.PyInt (-1)) (Gen3D.init 3 3 3)) as [A _].
    destruct (A (F64.of_Z (-1)) eq_refl) as (seeded & S & _ & N & _).
    exists seeded. split; [exact S|]. apply N. reflexivity.
  - destruct (X7_seed_center_3d (Py.PyInt 1) (Gen3D.init 3 3 3)) as [A _].
    destruct (A (F64.of_Z 1) eq_refl) as (seeded & S & _ & _ & _ & P & _).
    exists seeded. split; [exact S|]. apply P; [reflexivity | vm_compute; lia].
  - destruct (X7_seed_center_3d (Py.PyInt (10 ^ 400)) (Gen3D.init 3 3 3))
      as (_ & B & _).
    destruct (B OverflowError) as [R _]; [vm_compute; reflexivity|].
    apply R. vm_compute; lia.
Defined.

Module LineFacts.
Import Np NpFacts ArrayMore.

Lemma count_indicator (P : nat -> bool) (l : list nat) :
  count_positive (map (fun j => if P j then 1 else 0) l) = length (filter P l).
Proof.
  induction l as [|j l IH]; [reflexivity|].
  unfold count_positive in *. simpl. destruct (P j); simpl; now rewrite IH.
Qed.

Lemma filter_range (a b s n : nat) :
  length (filter (fun j => Nat.leb a j && Nat.ltb j b)%bool (seq s n))
  = (Nat.min b (s + n) - Nat.max a s)%nat.
Proof.
  revert s. induction n as [|n IH]; intro s.
  - cbn [seq filter length]. lia.
  - cbn [seq filter].
    destruct (Nat.leb_spec a s) as [A | A]; destruct (Nat.ltb_spec s b) as [B | B];
      cbn [andb length]; rewrite IH; lia.
Qed.

Lemma filter_nothing {A} (l : list A) : length (filter (fun _ => false) l) = 0%nat.
Proof. induction l; simpl; auto. Qed.

Lemma count_zero_rows (R : nat -> list Q) (l : list nat) :
  (forall i, In i l -> count_positive (R i) = 0%nat) ->
  count_positive (concat (map R l)) = 0%nat.
Proof.
  induction l as [|k l IH]; intro H; [reflexivity|].
  simpl. rewrite EnvFacts.count_app, (H k (or_introl eq_refl)), IH; [reflexivity|].
  intros; apply H; now right.
Qed.

(** The cells above zero of an array that has them in one row only. *)
Lemma count_one_row (R : nat -> list Q) (i0 c : nat) (l : list nat) :
  NoDup l -> In i0 l ->
  count_positive (R i0) = c ->
  (forall i, i <> i0 -> count_positive (R i) = 0%nat) ->
  count_positive (concat (map R l)) = c.
Proof.
  intros Hnd Hin Hc Hz. induction l as [|i l IH]; [destruct Hin|].
  simpl. rewrite EnvFacts.count_app. inversion Hnd as [|? ? Hni Hnd']; subst.
  destruct Hin as [-> | Hin].
  - assert (Z : count_positive (concat (map R l)) = 0%nat).
    { apply count_zero_rows. intros k Hk. apply Hz. intros ->. contradiction. }
    rewrite Z. lia.
  - rewrite (Hz i) by (intros ->; contradiction). now apply IH.
Qed.

(** What [seed_line] draws on a grid with a middle row. *)
Lemma seed_line_ok self :
  (0 < Gen2D.height self)%nat ->
  Gen2D.seed_line self
  = Ok (Gen2D.set_grid self
          (build2 (Gen2D.height self) (Gen2D.width self) (fun i j =>
             if (Nat.eqb i (Gen2D.height self / 2)
                 && Nat.leb (Gen2D.width self / 4) j
                 && Nat.ltb j (3 * Gen2D.width self / 4))%bool
             then 1 else 0))).
Proof.
  intro Hh. unfold Gen2D.seed_line.
  now rewrite (proj2 (Nat.ltb_lt _ _) (SeedMore.half_lt _ Hh)).
Qed.

Lemma seed_line_none self :
  Gen2D.height self = 0%nat -> Gen2D.seed_line self = Raise IndexError.
Proof. intro E. unfold Gen2D.seed_line. now rewrite E. Qed.

Lemma seed_line_active self :
  (0 < Gen2D.height self)%nat ->
  active2 (build2 (Gen2D.height self) (Gen2D.width self) (fun i j =>
             if (Nat.eqb i (Gen2D.height self / 2)
                 && Nat.leb (Gen2D.width self / 4) j
                 && Nat.ltb j (3 * Gen2D.width self / 4))%bool
             then 1 else 0))
  = (3 * Gen2D.width self / 4 - Gen2D.width self / 4)%nat.
Proof.
  intros Hh.
  set (h := Gen2D.height self) in *. set (w := Gen2D.width self).
  unfold active2, build2.
  apply (count_one_row _ (h / 2)).
  - apply seq_NoDup.
  - apply in_seq. pose proof (SeedMore.half_lt h Hh). lia.
  - rewrite Nat.eqb_refl. cbn [andb].
    rewrite (count_indicator (fun j => Nat.leb (w / 4) j && Nat.ltb j (3 * w / 4))%bool).
    rewrite filter_range.
    assert (3 * w / 4 <= w)%nat by (apply Nat.Div0.div_le_upper_bound; lia).
    lia.
  - intros i Hi. apply Nat.eqb_neq in Hi. rewrite Hi. cbn [andb].
    rewrite (count_indicator (fun _ => false)). apply filter_nothing.
Qed.

End LineFacts.

(** X8.  [seed_line] draws one horizontal segment: on a grid that has the
    cell [(i, j)] the call succeeds, and the cell [(i, j)] is 1 exactly when
    [i] is the middle row [height // 2] and
    [width // 4 <= j < 3 * width // 4], so the seeded grid has
    [3 * width // 4 - width // 4] active cells; for a width of 1 that is
    none at all. *)
Theorem X8_seed_line
  (self : Gen2D.OrganicPatternGenerator) (i j : nat) :
  (i < Gen2D.height self)%nat -> (j < Gen2D.width self)%nat ->
  exists seeded,
    Gen2D.seed_line self = Ok seeded
    /\ let on_line := i = (Gen2D.height self / 2)%nat
                      /\ (Gen2D.width self / 4 <= j < 3 * Gen2D.width self / 4)%nat in
       (on_line -> Np.cell2 0 (Gen2D.grid seeded) i j = 1)
       /\ (~ on_line -> Np.cell2 0 (Gen2D.grid seeded) i j = 0)
       /\ Np.active2 (Gen2D.grid seeded)
          = (3 * Gen2D.width self / 4 - Gen2D.width self / 4)%nat
       /\ ((Gen2D.width self <= 1)%nat -> Np.active2 (Gen2D.grid seeded) = 0%nat)
       /\ Gen2D.well_shaped seeded.
Proof.
  intros Hi Hj.
  assert (Hh : (0 < Gen2D.height self)%nat) by lia.
  eexists. split; [apply (LineFacts.seed_line_ok self Hh)|].
  set (seeded := Gen2D.set_grid self _). intro on_line.
  assert (C : Np.cell2 0 (Gen2D.grid seeded) i j
              = if (Nat.eqb i (Gen2D.height self / 2)
                    && Nat.leb (Gen2D.width self / 4) j
                    && Nat.ltb j (3 * Gen2D.width self / 4))%bool then 1 else 0).
  { unfold seeded. cbn [Gen2D.grid Gen2D.set_grid].
    now rewrite NpFacts.cell_build2. }
  assert (R : (Nat.eqb i (Gen2D.height self / 2)
               && Nat.leb (Gen2D.width self / 4) j
               && Nat.ltb j (3 * Gen2D.width self / 4))%bool = true <-> on_line).
  { unfold on_line. rewrite !andb_true_iff, Nat.eqb_eq, Nat.leb_le, Nat.ltb_lt. tauto. }
  assert (A : Np.active2 (Gen2D.grid seeded)
              = (3 * Gen2D.width self / 4 - Gen2D.width self / 4)%nat)
    by (apply (LineFacts.seed_line_active self Hh)).
  split; [|split; [|split; [|split]]].
  - intro N. apply R in N. now rewrite C, N.
  - intro N. rewrite C.
    destruct (Nat.eqb i _ && _ && _)%bool; [|reflexivity].
    exfalso. apply N, R. reflexivity.
  - exact A.
  - intro W. rewrite A.
    assert (E : (3 * Gen2D.width self / 4 = 0)%nat) by (apply Nat.div_small; lia).
    rewrite E. reflexivity.
  - apply NpFacts.shape_build2.
Qed.

Lemma X8_seed_line_witness :
  exists seeded,
    Gen2D.seed_line (Gen2D.init 8 3) = Ok seeded
    /\ Np.active2 (Gen2D.grid seeded) = 4%nat
    /\ Np.cell2 0 (Gen2D.grid seeded) 1 2 = 1.
Proof.
  destruct (X8_seed_line (Gen2D.init 8 3) 1 2) as (seeded & S & A & _ & B & _).
  - vm_compute; lia.
  - vm_compute; lia.
  - exists seeded. split; [exact S|]. split; [exact B|].
    apply A. vm_compute. repeat split; lia.
Defined.

(* ------------------------------------------------------------------ *)
(** ** Random seeding, cell by cell *)

Module RandomFacts.
Import Np NpFacts ArrayMore.




End RandomFacts.





(* ------------------------------------------------------------------ *)
(** ** What the operations keep *)

Module InvariantFacts.
Import Np NpFacts ArrayMore.

Lemma count_le_length (l : list Q) : (count_positive l <= length l)%nat.
Proof. unfold count_positive. apply filter_length_le. Qed.

Lemma length_concat_shape (g : array2 Q) (h w : nat) :
  shape2 g h w -> length (concat g) = (h * w)%nat.
Proof.
  intros [Hl Hr]. subst h. induction g as [|r g IH]; [reflexivity|].
  simpl. rewrite length_app. inversion Hr; subst. rewrite IH by assumption. lia.
Qed.

Lemma active2_le (g : array2 Q) (h w : nat) :
  shape2 g h w -> (active2 g <= h * w)%nat.
Proof.
  intro Hs. unfold active2. rewrite <- (length_concat_shape g h w Hs).
  apply count_le_length.
Qed.

Lemma grow2_keeps (name : string) self st self' st' n :
  Gen2D.well_shaped self ->
  Gen2D.grow name self st = Ok (self', st', n) ->
  Gen2D.well_shaped self'
  /\ Gen2D.width self' = Gen2D.width self
  /\ Gen2D.height self' = Gen2D.height self
  /\ n = active2 (Gen2D.grid self')
  /\ (n <= Gen2D.height self * Gen2D.width self)%nat.
Proof.
  intros Hs G.
  destruct (TableFacts.lookup2_cases name) as [[_ [p L]] | [_ L]].
  - rewrite (RuleFacts.grow2_unfold name p self st L) in G.
    assert (Sn : shape2 (Gen2D.next_grid p (Gen2D.grid self))
                        (Gen2D.height self) (Gen2D.width self))
      by (unfold Gen2D.next_grid; now apply shape_like2).
    assert (Sr : shape2 (fst (if String.eqb name "mycelium"
                              then Gen2D.add_noise (Gen2D.next_grid p (Gen2D.grid self)) st
                              else (Gen2D.next_grid p (Gen2D.grid self), st)))
                        (Gen2D.height self) (Gen2D.width self)).
    { destruct (String.eqb name "mycelium"); [|exact Sn].
      unfold Gen2D.add_noise, random2. cbn [fst]. now apply shape_like2. }
    injection G as <- _ <-. cbn [Gen2D.grid Gen2D.set_grid Gen2D.width Gen2D.height].
    split; [exact Sr|]. split; [reflexivity|]. split; [reflexivity|].
    split; [reflexivity|]. now apply active2_le.
  - unfold Gen2D.grow in G. rewrite L in G. discriminate G.
Qed.

Lemma add_environment_keeps (factor : string) self :
  Gen2D.well_shaped self ->
  Gen2D.well_shaped (Gen2D.add_environment factor self)
  /\ Gen2D.width (Gen2D.add_environment factor self) = Gen2D.width self
  /\ Gen2D.height (Gen2D.add_environment factor self) = Gen2D.height self.
Proof.
  intro Hs. unfold Gen2D.add_environment.
  destruct (String.eqb factor "moisture");
    [|destruct (String.eqb factor "light")];
    (split; [|split; reflexivity]); try exact Hs;
    unfold Gen2D.well_shaped, Gen2D.scale; cbn [Gen2D.grid Gen2D.set_grid
                                                 Gen2D.width Gen2D.height];
    now apply shape_like2.
Qed.

Lemma generation_keeps (p : Gen3D.Pattern) self :
  shape3 (Gen3D.grid self) (Gen3D.depth self) (Gen3D.height self) (Gen3D.width self) ->
  let self' := Gen3D.generation p self in
  shape3 (Gen3D.grid self') (Gen3D.depth self') (Gen3D.height self') (Gen3D.width self')
  /\ Gen3D.depth self' = Gen3D.depth self
  /\ Gen3D.height self' = Gen3D.height self
  /\ Gen3D.width self' = Gen3D.width self
  /\ Gen3D.grid_dtype self' = Gen3D.grid_dtype self.
Proof.
  intros Hs self'. unfold self', Gen3D.generation.
  cbn [Gen3D.grid Gen3D.depth Gen3D.height Gen3D.width Gen3D.grid_dtype].
  split; [|repeat split]. unfold Gen3D.next_grid. now apply shape_like3.
Qed.

Lemma loop_keeps (p : Gen3D.Pattern) (n : nat) self :
  shape3 (Gen3D.grid self) (Gen3D.depth self) (Gen3D.height self) (Gen3D.width self) ->
  let self' := Gen3D.generations_loop p n self in
  shape3 (Gen3D.grid self') (Gen3D.depth self') (Gen3D.height self') (Gen3D.width self')
  /\ Gen3D.depth self' = Gen3D.depth self
  /\ Gen3D.height self' = Gen3D.height self
  /\ Gen3D.width self' = Gen3D.width self
  /\ Gen3D.grid_dtype self' = Gen3D.grid_dtype self.
Proof.
  revert self. induction n as [|n IH]; intros self Hs; [simpl; auto|].
  cbn [Gen3D.generations_loop].
  destruct (generation_keeps p self Hs) as (S1 & D1 & H1 & W1 & T1).
  destruct (IH _ S1) as (S2 & D2 & H2 & W2 & T2).
  split; [exact S2|]. repeat split; congruence.
Qed.

Lemma loop_add (p : Gen3D.Pattern) (m n : nat) self :
  Gen3D.generations_loop p (m + n) self
  = Gen3D.generations_loop p n (Gen3D.generations_loop p m self).
Proof.
  revert self. induction m as [|m IH]; intro self; [reflexivity|].
  cbn [Nat.add Gen3D.generations_loop]. apply IH.
Qed.

End InvariantFacts.

(** X11.  The two-dimensional operations keep the engine well formed.
    [__init__] and [seed_center] give a grid of shape [(height, width)], and
    so does [seed_line] on an engine that has a row, leaving [width] and
    [height] as they were; on an engine without rows [seed_line] raises
    IndexError, its row index [height // 2] being out of bounds.  On an
    engine with a grid of that shape, a successful [grow] and
    [add_environment] (with any factor) give one again and leave [width] and
    [height] as they were; and the number of active cells [grow] returns is
    the count of the cells above 0 of the grid it installed, which never
    exceeds [height * width]. *)
Theorem X11_operations_keep_shape_2d
  (name factor : string) (radius : Py.number)
  (self self' : Gen2D.OrganicPatternGenerator) (st st' : Np.RandomState) (n : nat) :
  Gen2D.well_shaped self ->
  Gen2D.grow name self st = Ok (self', st', n) ->
  Gen2D.well_shaped (Gen2D.init (Gen2D.width self) (Gen2D.height self))
  /\ Gen2D.well_shaped (Gen2D.seed_center radius self)
  /\ ((0 < Gen2D.height self)%nat ->
      exists seeded,
        Gen2D.seed_line self = Ok seeded
        /\ Gen2D.well_shaped seeded
        /\ Gen2D.width seeded = Gen2D.width self
        /\ Gen2D.height seeded = Gen2D.height self)
  /\ (Gen2D.height self = 0%nat -> Gen2D.seed_line self = Raise IndexError)
  /\ (Gen2D.well_shaped self'
      /\ Gen2D.width self' = Gen2D.width self
      /\ Gen2D.height self' = Gen2D.height self
      /\ n = Np.active2 (Gen2D.grid self')
      /\ (n <= Gen2D.height self * Gen2D.width self)%nat)
  /\ (Gen2D.well_shaped (Gen2D.add_environment factor self)
      /\ Gen2D.width (Gen2D.add_environment factor self) = Gen2D.width self
      /\ Gen2D.height (Gen2D.add_environment factor self) = Gen2D.height self).
Proof.
  intros Hs G.
  split; [apply NpFacts.shape_build2|].
  split; [apply NpFacts.shape_build2|].
  split.
  { intro Hh. eexists. split; [apply (LineFacts.seed_line_ok self Hh)|].
    split; [apply NpFacts.shape_build2 | split; reflexivity]. }
  split; [apply LineFacts.seed_line_none|].
  split.
  - apply (InvariantFacts.grow2_keeps name self st self' st' n Hs G).
  - apply (InvariantFacts.add_environment_keeps factor self Hs).
Qed.

Lemma X11_operations_keep_shape_2d_witness :
  (8 <= Gen2D.height Examples.plus5 * Gen2D.width Examples.plus5)%nat
  /\ Gen2D.well_shaped (Gen2D.add_environment "wind" Examples.plus5)
  /\ (exists seeded, Gen2D.seed_line Examples.plus5 = Ok seeded
                     /\ Gen2D.well_shaped seeded).
Proof.
  destruct (X11_operations_keep_shape_2d "coral" "wind" (Py.PyInt 1) Examples.plus5
              (Gen2D.set_grid Examples.plus5
                 (Gen2D.next_grid Examples.coral2 (Gen2D.grid Examples.plus5)))
              Examples.st0 Examples.st0 8)
    as (_ & _ & L & _ & (_ & _ & _ & _ & D) & E & _).
  - exact ExampleFacts.plus5_shaped.
  - vm_compute. reflexivity.
  - split; [exact D|]. split; [exact E|].
    destruct L as (seeded & S & W & _); [vm_compute; lia|].
    exists seeded. split; [exact S | exact W].
Defined.

(** X12.  Generations compose in the three-dimensional engine:
    [grow(name, m + n)] is [grow(name, m)] followed by [grow(name, n)].
    From any engine, fresh or not, a successful [grow] of [n] generations
    appends exactly [n] snapshots after the ones that were there, the last of
    them being the grid it leaves (for [n > 0]), and it keeps the extents,
    the element type and the shape of the grid. *)
Theorem X12_generations_compose
  (name : string) (p : Gen3D.Pattern) (self : Gen3D.OrganicPattern3D) (m n : nat) :
  Gen3D.lookup name Gen3D.patterns = Ok p ->
  Np.shape3 (Gen3D.grid self) (Gen3D.depth self) (Gen3D.height self) (Gen3D.width self) ->
  Gen3D.grow name (m + n) self = bind (Gen3D.grow name m self) (Gen3D.grow name n)
  /\ exists self' snapshots,
      Gen3D.grow name n self = Ok self'
      /\ Gen3D.history self' = Gen3D.history self ++ snapshots
      /\ length snapshots = n
      /\ last snapshots (Gen3D.grid self) = Gen3D.grid self'
      /\ Np.shape3 (Gen3D.grid self')
           (Gen3D.depth self') (Gen3D.height self') (Gen3D.width self')
      /\ Gen3D.depth self' = Gen3D.depth self
      /\ Gen3D.height self' = Gen3D.height self
      /\ Gen3D.width self' = Gen3D.width self
      /\ Gen3D.grid_dtype self' = Gen3D.grid_dtype self.
Proof.
  intros L Hs. unfold Gen3D.grow. rewrite L. cbn [bind].
  split; [now rewrite InvariantFacts.loop_add|].
  exists (Gen3D.generations_loop p n self),
         (Spec.iterates p (Gen3D.grid_dtype self) n (Gen3D.grid self)).
  split; [reflexivity|].
  split; [apply TraceFacts.loop_history|].
  split; [apply TraceFacts.length_iterates|].
  split; [symmetry; apply TraceFacts.loop_grid|].
  apply (InvariantFacts.loop_keeps p n self Hs).
Qed.

Lemma X12_generations_compose_witness :
  Gen3D.grow "crystal" (1 + 2) Examples.ball3
  = bind (Gen3D.grow "crystal" 1 Examples.ball3) (Gen3D.grow "crystal" 2).
Proof.
  apply (X12_generations_compose "crystal" Examples.crystal3 Examples.ball3 1 2).
  - reflexivity.
  - exact ExampleFacts.ball3_shaped.
Defined.

(* ------------------------------------------------------------------ *)
(** ** The profiles of the two gradients *)

Module GradientFacts.
Import Np NpFacts ArrayMore.




Lemma clip_monotone (lo hi x y : Q) : x <= y -> clip lo hi x <= clip lo hi y.
Proof.
  intro H. unfold clip.
  destruct (Q.max_spec x lo) as [[? E1] | [? E1]],
           (Q.max_spec y lo) as [[? E2] | [? E2]],
           (Q.min_spec (Qmax x lo) hi) as [[? E3] | [? E3]],
           (Q.min_spec (Qmax y lo) hi) as [[? E4] | [? E4]]; lra.
Qed.

Lemma clip_eq (lo hi x y : Q) : x == y -> clip lo hi x == clip lo hi y.
Proof.
  intro H. apply Qle_antisym; apply clip_monotone; lra.
Qed.


End GradientFacts.





Module ComposeFacts.
Import Np NpFacts ArrayMore.

Lemma add_environment64_keeps (factor : string) self :
  Env64.well_shaped self ->
  Env64.well_shaped (Env64.add_environment factor self)
  /\ Env64.width (Env64.add_environment factor self) = Env64.width self
  /\ Env64.height (Env64.add_environment factor self) = Env64.height self.
Proof.
  intro Hs. unfold Env64.add_environment.
  destruct (String.eqb factor "moisture");
    [|destruct (String.eqb factor "light")];
    (split; [|split; reflexivity]); try exact Hs;
    unfold Env64.well_shaped, Env64.scale;
    cbn [Env64.grid Env64.set_grid Env64.width Env64.height];
    now apply shape_like2.
Qed.

(** The gradients depend on the extents of the engine only. *)
Lemma gradient64_extents factor self self' :
  Env64.width self' = Env64.width self ->
  Env64.height self' = Env64.height self ->
  Env64.gradient factor self' = Env64.gradient factor self.
Proof.
  intros W H. unfold Env64.gradient, Env64.moisture_gradient, Env64.light_gradient.
  now rewrite W, H.
Qed.

Lemma unsupported64 other self :
  ~ Spec.supported other -> Env64.add_environment other self = self.
Proof.
  intro So. unfold Env64.add_environment.
  destruct (String.eqb_spec other "moisture") as [-> | N1];
    [exfalso; apply So; now left|].
  destruct (String.eqb_spec other "light") as [-> | N2];
    [exfalso; apply So; now right|].
  reflexivity.
Qed.

Lemma unsupported2 other self :
  ~ Spec.supported other -> Gen2D.add_environment other self = self.
Proof.
  intro So. unfold Gen2D.add_environment.
  destruct (String.eqb_spec other "moisture") as [-> | N1];
    [exfalso; apply So; now left|].
  destruct (String.eqb_spec other "light") as [-> | N2];
    [exfalso; apply So; now right|].
  reflexivity.
Qed.

End ComposeFacts.

(** X15.  [add_environment] composes cell by cell, on the doubles of NumPy.
    The gradient of a call depends on the extents of the engine only, so a
    second call uses the factors of the original engine, and a cell after
    two calls is the cell times the first factor, rounded, times the second
    factor, rounded: the modulation accumulates with every call.  The
    rounding makes the order of two gradients visible: on a 5 x 5 grid the
    cell (1, 1) of value 0.025 becomes [0.013125] after 'moisture' then
    'light' and [0.013125000000000001] after 'light' then 'moisture'.  A
    factor other than 'moisture' and 'light' is ignored: the engine is
    returned as it is, without an error. *)
Theorem X15_environment_composes
  (f1 f2 other : string) (self : Env64.Generator)
  (exact : Gen2D.OrganicPatternGenerator) (i j : nat) :
  Spec.supported f1 -> Spec.supported f2 -> ~ Spec.supported other ->
  Env64.well_shaped self ->
  (i < Env64.height self)%nat -> (j < Env64.width self)%nat ->
  let c := Np.cell2 F64.zero (Env64.grid self) i j in
  let a := Np.cell2 F64.zero (Env64.gradient f1 self) i j in
  let b := Np.cell2 F64.zero (Env64.gradient f2 self) i j in
  Env64.gradient f2 (Env64.add_environment f1 self) = Env64.gradient f2 self
  /\ Np.cell2 F64.zero
       (Env64.grid (Env64.add_environment f2 (Env64.add_environment f1 self))) i j
     = F64.mul (F64.mul c a) b
  /\ Env64.add_environment other self = self
  /\ Gen2D.add_environment other exact = exact
  /\ Np.cell2 F64.zero
       (Env64.grid (Env64.add_environment "light"
                      (Env64.add_environment "moisture" Env64.spot5))) 1 1
     = S754_finite false 7566047373982433 (-59)
  /\ Np.cell2 F64.zero
       (Env64.grid (Env64.add_environment "moisture"
                      (Env64.add_environment "light" Env64.spot5))) 1 1
     = S754_finite false 7566047373982434 (-59).
Proof.
  intros S1 S2 So Hs Hi Hj c a b.
  destruct (ComposeFacts.add_environment64_keeps f1 self Hs) as (Hs' & Hw & Hh).
  assert (G : Env64.gradient f2 (Env64.add_environment f1 self)
              = Env64.gradient f2 self)
    by (apply ComposeFacts.gradient64_extents; assumption).
  split; [exact G|]. split; [|split; [|split; [|split]]].
  - rewrite (Env64Facts.environment64_cell f2 _ i j S2 Hs')
      by (rewrite ?Hw, ?Hh; assumption).
    rewrite (Env64Facts.environment64_cell f1 self i j S1 Hs Hi Hj).
    now rewrite G.
  - now apply ComposeFacts.unsupported64.
  - now apply ComposeFacts.unsupported2.
  - vm_compute. reflexivity.
  - vm_compute. reflexivity.
Qed.

Lemma X15_environment_composes_witness :
  Np.cell2 F64.zero
    (Env64.grid (Env64.add_environment "light"
                   (Env64.add_environment "moisture" Env64.ones22))) 0 1
  = F64.mul (F64.mul F64.one F64.half) F64.half
  /\ Env64.add_environment "wind" Env64.ones22 = Env64.ones22
  /\ Gen2D.add_environment "wind" Examples.plus5 = Examples.plus5.
Proof.
  destruct (X15_environment_composes "moisture" "light" "wind"
              Env64.ones22 Examples.plus5 0 1)
    as (_ & A & B & C & _).
  - now left.
  - now right.
  - intros [E | E]; discriminate E.
  - split; [reflexivity | repeat constructor].
  - vm_compute; lia.
  - vm_compute; lia.
  - split; [|split; [exact B | exact C]].
    rewrite A. vm_compute. reflexivity.
Defined.



(* ------------------------------------------------------------------ *)
(** ** The driver loop *)

Module DriverFacts.
Import Np NpFacts ArrayMore.

Lemma last_nonempty {A} (l : list A) (d d' : A) : l <> [] -> last l d = last l d'.
Proof.
  induction l as [|x l IH]; intro H; [contradiction|].
  destruct l as [|y l]; [reflexivity|].
  change (last (x :: y :: l) d) with (last (y :: l) d).
  change (last (x :: y :: l) d') with (last (y :: l) d').
  apply IH. discriminate.
Qed.

Lemma rounds_step (name : string) (m : nat) self st :
  Driver.grow_rounds name (S m) self st
  = bind (Gen2D.grow name self st) (fun r =>
      let '(generator', st', active_cells) := r in
      if Nat.eqb active_cells 0 then Ok (generator', st', [active_cells])
      else bind (Driver.grow_rounds name m generator' st') (fun r' =>
             let '(generator'', st'', rest) := r' in
             Ok (generator'', st'', active_cells :: rest))).
Proof. reflexivity. Qed.

Lemma rounds (name : string) (p : Gen2D.Pattern) (m : nat) :
  Gen2D.lookup name Gen2D.patterns = Ok p ->
  forall self st, Gen2D.well_shaped self ->
  exists self' st' actives,
    Driver.grow_rounds name (S m) self st = Ok (self', st', actives)
    /\ Gen2D.well_shaped self'
    /\ Props.report_ok (S m) self' actives.
Proof.
  intro L. induction m as [|m IH]; intros self st Hs.
  - rewrite rounds_step.
    destruct (Gen2D.grow name self st) as [[[self1 st1] a]|e] eqn:G.
    + destruct (InvariantFacts.grow2_keeps name self st self1 st1 a Hs G)
        as (S1 & _ & _ & A & _).
      cbn [bind]. exists self1, st1, [a].
      split; [destruct (Nat.eqb a 0); reflexivity|]. split; [exact S1|].
      unfold Props.report_ok. simpl. repeat split; try lia; try constructor.
    + rewrite (RuleFacts.grow2_unfold name p self st L) in G. discriminate G.
  - rewrite rounds_step.
    destruct (Gen2D.grow name self st) as [[[self1 st1] a]|e] eqn:G.
    + destruct (InvariantFacts.grow2_keeps name self st self1 st1 a Hs G)
        as (S1 & _ & _ & A & _).
      cbn [bind]. destruct (Nat.eqb_spec a 0) as [Z | NZ].
      * exists self1, st1, [a]. split; [reflexivity|]. split; [exact S1|].
        unfold Props.report_ok. simpl. repeat split; try lia; try constructor.
      * destruct (IH self1 st1 S1) as (self' & st' & actives & R & S' & (Len & Pos & Early & Last)).
        rewrite R. cbn [bind]. exists self', st', (a :: actives).
        split; [reflexivity|]. split; [exact S'|].
        assert (Ne : actives <> []) by (destruct actives; [simpl in Len; lia | discriminate]).
        unfold Props.report_ok. split; [simpl; lia|]. split; [|split].
        -- destruct actives as [|b l]; [contradiction|].
           change (removelast (a :: b :: l)) with (a :: removelast (b :: l)).
           constructor; [lia | exact Pos].
        -- intro Hl. rewrite TraceFacts.last_cons.
           rewrite (last_nonempty actives a 0%nat Ne). apply Early. simpl in Hl. lia.
        -- rewrite TraceFacts.last_cons.
           rewrite (last_nonempty actives a 0%nat Ne). exact Last.
    + rewrite (RuleFacts.grow2_unfold name p self st L) in G. discriminate G.
Qed.

End DriverFacts.

(** X17.  The driver of [main], from a seeded generator on.  For a pattern
    of the table the loop makes between 1 and 30 [grow] calls and stops
    right after the first that reports 0 active cells: every count before
    the last is above 0, a loop of fewer than 30 rounds ends on 0, and the
    last count is the number of active cells of the grid the loop leaves.
    Then [add_environment('light')] is applied exactly when the last count
    is above 0: a pattern that died out is left as the loop left it, a live
    one is returned with the light gradient applied once.  For any other
    pattern name the first [grow] raises KeyError. *)
Theorem X17_driver_run
  (name : string) (self : Gen2D.OrganicPatternGenerator) (st : Np.RandomState) :
  Gen2D.well_shaped self ->
  (In name Props.names2 ->
   exists looped st' actives,
     Driver.grow_rounds name 30 self st = Ok (looped, st', actives)
     /\ Props.report_ok 30 looped actives
     /\ Gen2D.well_shaped looped
     /\ (last actives 0%nat = 0%nat ->
         Driver.run name self st = Ok (looped, st', actives))
     /\ ((0 < last actives 0)%nat ->
         Driver.run name self st
         = Ok (Gen2D.add_environment "light" looped, st', actives)
         /\ Gen2D.well_shaped (Gen2D.add_environment "light" looped)))
  /\ (~ In name Props.names2 -> Driver.run name self st = Raise KeyError).
Proof.
  intro Hs. split.
  - intro Hin.
    destruct (TableFacts.lookup2_cases name) as [[_ [p L]] | [Hn _]]; [|contradiction].
    destruct (DriverFacts.rounds name p 29 L self st Hs)
      as (looped & st1 & actives & R & S1 & Rep).
    exists looped, st1, actives.
    split; [exact R|]. split; [exact Rep|]. split; [exact S1|].
    unfold Driver.run. rewrite R. cbn [bind]. split.
    + intros ->. reflexivity.
    + intro Alive. rewrite (proj2 (Nat.ltb_lt _ _) Alive).
      split; [reflexivity|].
      apply (InvariantFacts.add_environment_keeps "light" looped S1).
  - intro Hn. unfold Driver.run.
    rewrite (DriverFacts.rounds_step name 29 self st).
    rewrite (proj2 (TableFacts.grow2_raises name self st) Hn). reflexivity.
Qed.

Lemma X17_driver_run_witness :
  (exists looped st' actives,
      Driver.grow_rounds "coral" 30 Examples.plus5 Examples.st0
      = Ok (looped, st', actives)
      /\ Props.report_ok 30 looped actives
      /\ (last actives 0%nat = 0%nat ->
          Driver.run "coral" Examples.plus5 Examples.st0 = Ok (looped, st', actives)))
  /\ Driver.run "crystal" Examples.plus5 Examples.st0 = Raise KeyError.
Proof.
  destruct (X17_driver_run "coral" Examples.plus5 Examples.st0 ExampleFacts.plus5_shaped)
    as [A _].
  destruct (X17_driver_run "crystal" Examples.plus5 Examples.st0 ExampleFacts.plus5_shaped)
    as [_ B].
  split.
  - destruct A as (looped & st' & actives & R & Rep & _ & D & _); [simpl; auto|].
    exists looped, st', actives. split; [exact R|]. split; [exact Rep | exact D].
  - apply B. simpl. intros [E | [E | [E | []]]]; discriminate E.
Defined.

(* ------------------------------------------------------------------ *)
(** ** The time-lapse of the three-dimensional engine *)

Module LapseFacts.
Import Np NpFacts ArrayMore.

Lemma binary_unit (c : Q) : Spec.binary c -> 0 <= c /\ c <= 1.
Proof. intros [-> | ->]; lra. Qed.

(** A freshly seeded engine holds a grid of its own shape with cells 0 and 1. *)
Lemma fresh_grid e :
  Spec.fresh_seed e ->
  shape3 (Gen3D.grid e) (Gen3D.depth e) (Gen3D.height e) (Gen3D.width e)
  /\ Props.unit_interval3 (Gen3D.grid e).
Proof.
  intros [radius e0 e' H | density e0 e' st st' H].
  - unfold Gen3D.seed_center in H.
    destruct (if Nat.eqb _ 0 then _ else _) as [r|x]; [|discriminate H].
    cbn [bind] in H. injection H as <-.
    cbn [Gen3D.grid Gen3D.depth Gen3D.height Gen3D.width].
    split; [apply shape_build3|].
    apply SeedFacts.Forall_build3. intros z y x _ _ _. cbv zeta.
    match goal with |- context [if ?b then _ else _] => destruct b end; lra.
  - unfold Gen3D.seed_random, choice3 in H.
    destruct (check_p (1 - density) density) as [[]|err]; [|discriminate H].
    cbn [bind random3 fst snd] in H. injection H as <- _.
    cbn [Gen3D.grid Gen3D.depth Gen3D.height Gen3D.width].
    split; [apply shape_build3|].
    apply SeedFacts.Forall_build3. intros z y x _ _ _.
    apply binary_unit, SeedFacts.pick_binary.
Qed.

Lemma calls_extinct (names : list string) :
  Forall Spec.known names ->
  forall e,
    shape3 (Gen3D.grid e) (Gen3D.depth e) (Gen3D.height e) (Gen3D.width e) ->
    Props.unit_interval3 (Gen3D.grid e) ->
    let zeros := zeros3 (Gen3D.depth e) (Gen3D.height e) (Gen3D.width e) in
    exists e',
      Gen3D.grow_calls names e = Ok e'
      /\ Gen3D.history e' = Gen3D.history e ++ repeat zeros (length names)
      /\ (names <> [] -> Gen3D.grid e' = zeros).
Proof.
  induction 1 as [|t ts [p L] _ IH]; intros e Hs Hu zeros.
  - exists e. split; [reflexivity|]. split; [simpl; now rewrite app_nil_r|].
    intro N. contradiction.
  - cbn [Gen3D.grow_calls]. rewrite (RuleFacts.grow3_one t p e L). cbn [bind].
    assert (G : Gen3D.grid (Gen3D.generation p e) = zeros)
      by (apply (Extinction3D.next_grid3_extinct t p _ _ _ _ _ L Hs Hu)).
    destruct (IH (Gen3D.generation p e)) as (e' & C & H & Z).
    + cbn [Gen3D.generation Gen3D.grid Gen3D.depth Gen3D.height Gen3D.width].
      change (Gen3D.next_grid p (Gen3D.grid_dtype e) (Gen3D.grid e))
        with (Gen3D.grid (Gen3D.generation p e)).
      rewrite G. apply shape_build3.
    + rewrite G. apply Extinction3D.zeros3_unit.
    + exists e'. split; [exact C|]. split.
      * rewrite H. cbn [Gen3D.generation Gen3D.history Gen3D.depth Gen3D.height
                        Gen3D.width length repeat].
        change (Gen3D.next_grid p (Gen3D.grid_dtype e) (Gen3D.grid e))
          with (Gen3D.grid (Gen3D.generation p e)).
        rewrite G. fold zeros. now rewrite <- app_assoc.
      * intros _. destruct ts as [|t' ts'].
        -- cbn [Gen3D.grow_calls] in C. injection C as <-. exact G.
        -- apply Z. discriminate.
Qed.

End LapseFacts.

(** X18.  What the time-lapse of the three-dimensional engine holds.  After
    [seed_center] or a successful [seed_random], any sequence of one or more
    [grow] calls of one generation each, with rules of the table in any
    order, leaves an empty grid, and the history is the seeded snapshot
    followed by one all-zero snapshot per call. *)
Theorem X18_timelapse_after_seed
  (seeded : Gen3D.OrganicPattern3D) (names : list string) :
  Spec.fresh_seed seeded -> Forall Spec.known names -> names <> [] ->
  let zeros := Np.zeros3 (Gen3D.depth seeded) (Gen3D.height seeded)
                         (Gen3D.width seeded) in
  exists e',
    Gen3D.grow_calls names seeded = Ok e'
    /\ Gen3D.grid e' = zeros
    /\ Gen3D.history e' = Gen3D.grid seeded :: repeat zeros (length names)
    /\ Np.active3 (Gen3D.grid e') = 0%nat.
Proof.
  intros F K N zeros.
  destruct (LapseFacts.fresh_grid seeded F) as [Hs Hu].
  destruct (LapseFacts.calls_extinct names K seeded Hs Hu) as (e' & C & H & Z).
  exists e'. split; [exact C|]. split; [now apply Z|]. split.
  - rewrite H, (HistoryFacts.fresh_history seeded F). reflexivity.
  - rewrite (Z N). apply ArrayMore.active3_none, ArrayMore.zeros3_none.
Qed.

Lemma X18_timelapse_after_seed_witness :
  exists e',
    Gen3D.grow_calls ["mycelium"; "crystal"]%string Examples.ball3 = Ok e'
    /\ Gen3D.grid e' = Np.zeros3 3 3 3
    /\ Gen3D.history e' = [Gen3D.grid Examples.ball3; Np.zeros3 3 3 3; Np.zeros3 3 3 3]
    /\ Np.active3 (Gen3D.grid e') = 0%nat.
Proof.
  apply (X18_timelapse_after_seed Examples.ball3 ["mycelium"; "crystal"]%string).
  - exact (Spec.fresh_center _ _ _ ExampleFacts.ball3_seeded).
  - repeat constructor; eexists; reflexivity.
  - discriminate.
Defined.

(* ------------------------------------------------------------------ *)
(** ** The neighbour array of an integer grid *)

Module IntegerFacts.
Import Np NpFacts ArrayMore.

(** Truncation towards zero of a value of [[0, 1)]. *)
Lemma truncate_small (q : Q) : 0 <= q -> q < 1 -> Gen3D.truncate q = 0.
Proof.
  intros H0 H1. unfold Gen3D.truncate.
  destruct q as [n d]. unfold Qle, Qlt in H0, H1. simpl in *.
  rewrite Z.quot_small by lia. reflexivity.
Qed.

(** With a dead cell under a positive weight, the weighted sum of a grid
    with cells in [[0, 1]] stays below the sum of the weights. *)
Lemma neighbor3_short (g k : array3 Q) (dp h w z y x a b c : nat) :
  shape3 g dp h w -> (0 < dp)%nat -> (0 < h)%nat ->
  Spec.nonnegative3 k ->
  Qsum (map (fun o => let '(a, b, c) := o in cell3 0 k a b c) offsets3) == 1 ->
  Props.unit_interval3 g ->
  (a < 3)%nat -> (b < 3)%nat -> (c < 3)%nat ->
  0 < cell3 0 k a b c ->
  cell3 0 g (src dp z a) (src h y b) (src w x c) == 0 ->
  0 <= neighbor3 g k z y x /\ neighbor3 g k z y x < 1.
Proof.
  intros Hs Hd Hh Hk Hsum Hg Ha Hb Hc Wpos Dead.
  destruct (Extinction3D.neighbor3_unit g k z y x Hk Hsum Hg) as [N0 _].
  split; [exact N0|].
  destruct (WrapFacts.contributes3_at g k dp h w z y x a b c Hs Hd Hh Ha Hb Hc)
    as [E _].
  rewrite E, Dead.
  pose proof (WrapFacts.split_offsets3
                (fun o => let '(a, b, c) := o in cell3 0 k a b c) a b c Ha Hb Hc) as W.
  cbv beta iota in W.
  assert (R : Qsum (map (term3 g k z y x) (Spec.others3 (a, b, c)))
              <= Qsum (map (fun o => let '(a, b, c) := o in cell3 0 k a b c)
                           (Spec.others3 (a, b, c)))).
  { apply Qsum_le. intros [[a' b'] c'] _. unfold term3.
    pose proof (WrapFacts.cell3_nonneg k a' b' c' Hk) as K.
    assert (C : 0 <= cell3 0 g (src (planes g) z a') (src (rows3 g) y b')
                          (src (cols3 g) x c')
                /\ cell3 0 g (src (planes g) z a') (src (rows3 g) y b')
                         (src (cols3 g) x c') <= 1)
      by (apply (cell3_Forall (fun c => 0 <= c /\ c <= 1)); [lra | exact Hg]).
    destruct C as [C0 C1].
    rewrite <- (Qmult_1_r (cell3 0 k a' b' c')) at 2.
    rewrite (Qmult_comm (cell3 0 k a' b' c') _), (Qmult_comm (cell3 0 k a' b' c') 1).
    apply Qmult_le_compat_r; assumption. }
  lra.
Qed.

End IntegerFacts.

(** X20.  On an integer grid, as [seed_random] of the three-dimensional
    engine makes it, the neighbour array sees a neighbourhood only when it
    is full.  For every rule of the table and every grid with cells in
    [[0, 1]]: if one cell that the kernel weights is 0, the weighted sum at
    the cell is below 1 and the entry of the integer array [convolve]
    returns is 0, whatever the other neighbours are; on a float grid the
    entry is the weighted sum itself. *)
Theorem X20_integer_neighbours
  (name : string) (p : Gen3D.Pattern) (g : Np.array3 Q)
  (dp h w z y x a b c : nat) :
  Gen3D.lookup name Gen3D.patterns = Ok p ->
  Np.shape3 g dp h w -> Props.unit_interval3 g ->
  (z < dp)%nat -> (y < h)%nat -> (x < w)%nat ->
  (a < 3)%nat -> (b < 3)%nat -> (c < 3)%nat ->
  0 < Np.cell3 0 (Gen3D.kernel p) a b c ->
  Np.cell3 0 g (Np.src dp z a) (Np.src h y b) (Np.src w x c) == 0 ->
  Np.cell3 0 (Gen3D.neighbors Gen3D.Int64 g (Gen3D.kernel p)) z y x = 0
  /\ Np.cell3 0 (Gen3D.neighbors Gen3D.Float64 g (Gen3D.kernel p)) z y x
     = Np.neighbor3 g (Gen3D.kernel p) z y x
  /\ Np.neighbor3 g (Gen3D.kernel p) z y x < 1.
Proof.
  intros L Hs Hg Hz Hy Hx Ha Hb Hc Wpos Dead.
  destruct (TableFacts.pattern3_ranges name p L) as (Hk & Hsum & _).
  destruct (IntegerFacts.neighbor3_short g (Gen3D.kernel p) dp h w z y x a b c)
    as [N0 N1]; try assumption; try lia.
  rewrite !(RuleFacts.neighbors_cell3 _ g (Gen3D.kernel p) dp h w z y x Hs Hz Hy Hx).
  cbn [Gen3D.cast].
  split; [now apply IntegerFacts.truncate_small|]. split; [reflexivity | exact N1].
Qed.

Lemma X20_integer_neighbours_witness :
  Np.cell3 0 (Gen3D.neighbors Gen3D.Int64 Examples.edge3
                (Gen3D.kernel Props.coral3)) 2 1 1 = 0.
Proof.
  destruct (X20_integer_neighbours "coral" Props.coral3 Examples.edge3
              3 3 3 2 1 1 2 1 1) as [A _].
  - reflexivity.
  - exact ExampleFacts.edge3_shape.
  - apply SeedFacts.Forall_build3. intros z y x _ _ _.
    destruct (Nat.eqb z 0 && Nat.eqb y 1 && Nat.eqb x 1)%bool; lra.
  - lia.
  - lia.
  - lia.
  - lia.
  - lia.
  - lia.
  - vm_compute. reflexivity.
  - vm_compute. reflexivity.
  - exact A.
Defined.
